(** * cloudflare-llm-ms: the OpenAI-compatible chat-completion adapter

    A shallow embedding of [src/index.ts]: the text and usage extraction
    functions, the chunk framer, the stream normalizer
    ([toOpenAiSseFromAiStream]) and the [/v1/chat/completions] handler,
    together with the parts of the JavaScript runtime they rest on
    (strings, numbers, [JSON.parse], [JSON.stringify], [TextDecoder]).

    Representation choices.
    - A JavaScript string is kept as the byte string of its UTF-8 encoding
      (a lone surrogate half as its three-byte generalised encoding), so
      ASCII text is itself and [TextEncoder] is the identity on well-formed
      text; [TextDecoder] is the streaming decoder, which replaces
      malformed bytes and keeps an unfinished character for the next
      chunk.
    - A JavaScript number is a rational (every finite double is one), [NaN]
      or an infinity; results of arithmetic and of parsing are rounded to
      the nearest double.
    - An object is the list of its own enumerable properties in enumeration
      order; reading a property takes the first entry with that key.
    - [Date.now()] is an oracle [clock]: its n-th call returns [clock n]. *)

From Stdlib Require Import String Ascii List Bool Arith ZArith QArith Lia.
From Stdlib Require Import Qround DecimalString.
From Stdlib Require DecimalFacts DecimalN.
Import ListNotations.

Set Warnings "-register-all".
Close Scope Q_scope.
Local Open Scope list_scope.
Local Open Scope string_scope.

(** ** Characters and strings *)

Module JsString.

Definition LF : ascii := "010"%char.
Definition CR : ascii := "013"%char.
Definition DQUOTE : ascii := "034"%char.

Definition code (c : ascii) : N := N_of_ascii c.

Definition byte_in (lo hi : N) (c : ascii) : bool :=
  (N.leb lo (code c) && N.leb (code c) hi)%bool.

(** Source text for JSON is written with apostrophes and turned into
    double quotes here: [dq "{'a':1}"] is the text [{"a":1}]. *)
Fixpoint dq (s : string) : string :=
  match s with
  | EmptyString => EmptyString
  | String c r => String (if Ascii.eqb c "'"%char then DQUOTE else c) (dq r)
  end.

Definition nl : string := String LF EmptyString.
Definition crlf : string := String CR (String LF EmptyString).

Definition is_empty (s : string) : bool :=
  match s with EmptyString => true | _ => false end.

Fixpoint rev_append (s acc : string) : string :=
  match s with
  | EmptyString => acc
  | String c r => rev_append r (String c acc)
  end.

Definition rev (s : string) : string := rev_append s EmptyString.

Fixpoint drop (n : nat) (s : string) : string :=
  match n, s with
  | O, _ => s
  | S k, String _ r => drop k r
  | S _, EmptyString => EmptyString
  end.

Fixpoint take (n : nat) (s : string) : string :=
  match n, s with
  | S k, String c r => String c (take k r)
  | _, _ => EmptyString
  end.

(** [s.startsWith(p)] *)
Definition startsWith (p s : string) : bool := String.prefix p s.

(** One-byte white space and line terminators of ECMAScript:
    TAB, LF, VT, FF, CR, SP. *)
Definition ws1 (c : ascii) : bool :=
  (byte_in 9 13 c || N.eqb (code c) 32)%bool.

(** U+00A0 is the byte pair C2 A0. *)
Definition ws2 (c1 c2 : ascii) : bool :=
  (N.eqb (code c1) 194 && N.eqb (code c2) 160)%bool.

(** Three-byte white space: U+1680, U+2000..U+200A, U+2028, U+2029,
    U+202F, U+205F, U+3000, U+FEFF. *)
Definition ws3 (c1 c2 c3 : ascii) : bool :=
  let a := code c1 in
  let b := code c2 in
  let c := code c3 in
  ((N.eqb a 225 && N.eqb b 154 && N.eqb c 128)
   || (N.eqb a 226 && N.eqb b 128
       && (byte_in 128 138 c3 || N.eqb c 168 || N.eqb c 169 || N.eqb c 175))
   || (N.eqb a 226 && N.eqb b 129 && N.eqb c 159)
   || (N.eqb a 227 && N.eqb b 128 && N.eqb c 128)
   || (N.eqb a 239 && N.eqb b 187 && N.eqb c 191))%bool.

(** [s.trimStart()] *)
Fixpoint trimStart (s : string) : string :=
  match s with
  | EmptyString => EmptyString
  | String c1 r1 =>
      if ws1 c1 then trimStart r1
      else
        match r1 with
        | EmptyString => s
        | String c2 r2 =>
            if ws2 c1 c2 then trimStart r2
            else
              match r2 with
              | EmptyString => s
              | String c3 r3 => if ws3 c1 c2 c3 then trimStart r3 else s
              end
        end
  end.

(** The same scan over the reversed string, where the bytes of a
    multi-byte character come last byte first. *)
Fixpoint trimStart_rev (s : string) : string :=
  match s with
  | EmptyString => EmptyString
  | String c1 r1 =>
      if ws1 c1 then trimStart_rev r1
      else
        match r1 with
        | EmptyString => s
        | String c2 r2 =>
            if ws2 c2 c1 then trimStart_rev r2
            else
              match r2 with
              | EmptyString => s
              | String c3 r3 => if ws3 c3 c2 c1 then trimStart_rev r3 else s
              end
        end
  end.

(** [s.trimEnd()] *)
Definition trimEnd (s : string) : string := rev (trimStart_rev (rev s)).

(** [s.trim()] *)
Definition trim (s : string) : string := trimEnd (trimStart s).

(** *** [String.prototype.split] with a regular expression

    [sep s] is the length of the separator matching at the very start of
    [s], if one does; the separators used here never match the empty
    string.  The scan is the one of the language definition: try a match
    at each position from the left, cut there and resume after it, and
    close the last piece at the end of the string. *)
Section Split.
Variable sep : string -> option nat.

Fixpoint split_from (s : string) (skip : nat) (cur : string) : list string :=
  match s with
  | EmptyString => [rev cur]
  | String c r =>
      match skip with
      | S k => split_from r k cur
      | O =>
          match sep s with
          | Some (S k) => rev cur :: split_from r k EmptyString
          | _ => split_from r 0 (String c cur)
          end
      end
  end.

Definition split (s : string) : list string := split_from s 0 EmptyString.

(** The first position of [s] at which a separator matches. *)
Fixpoint first_match (s : string) : option nat :=
  match s with
  | EmptyString => None
  | String _ r =>
      match sep s with
      | Some (S _) => Some 0
      | _ => option_map S (first_match r)
      end
  end.
End Split.

(** The regular expression [/\r?\n/]. *)
Definition sep_line (s : string) : option nat :=
  match s with
  | String c1 r1 =>
      if Ascii.eqb c1 LF then Some 1
      else if Ascii.eqb c1 CR then
        match r1 with
        | String c2 _ => if Ascii.eqb c2 LF then Some 2 else None
        | EmptyString => None
        end
      else None
  | EmptyString => None
  end.

(** The regular expression [/\r?\n\r?\n/]: one line break directly
    followed by another. *)
Definition sep_blank (s : string) : option nat :=
  match sep_line s with
  | Some n =>
      match sep_line (drop n s) with
      | Some m => Some (n + m)
      | None => None
      end
  | None => None
  end.

(** [parts.pop()] on the result of a split: the pieces before the last
    one, and the last one. *)
Fixpoint pop (parts : list string) : list string * option string :=
  match parts with
  | [] => ([], None)
  | [x] => ([], Some x)
  | x :: rest => let (front, last) := pop rest in (x :: front, last)
  end.

(** What a split leaves in the buffer: its last piece. *)
Definition remainder (sep : string -> option nat) (s : string) : string :=
  match snd (pop (split sep s)) with
  | Some b => b
  | None => EmptyString
  end.

End JsString.

Import JsString.

(** ** Numbers *)

Module JsNumber.

Inductive number : Type :=
| Finite (q : Q)
| NaN
| Infinity (negative : bool).

Definition of_Z (z : Z) : number := Finite (inject_Z z).

Definition zero : number := of_Z 0.

(** [Number.isFinite] on a number. *)
Definition isFinite (n : number) : bool :=
  match n with Finite _ => true | _ => false end.

(** [floor (log2 (n / d))] for positive [n] and [d]. *)
Definition floor_log2 (n d : Z) : Z :=
  let e := (Z.log2 n - Z.log2 d)%Z in
  if (d * 2 ^ Z.max 0 e <=? n * 2 ^ Z.max 0 (- e))%Z then e else (e - 1)%Z.

(** [a / b] rounded to the nearest integer, ties to the even one
    ([0 <= a], [0 < b]). *)
Definition round_half_even (a b : Z) : Z :=
  let q := (a / b)%Z in
  match (2 * (a mod b) ?= b)%Z with
  | Lt => q
  | Gt => (q + 1)%Z
  | Eq => if Z.even q then q else (q + 1)%Z
  end.

(** The double nearest to a rational: 53 significant bits, exponents
    from -1074, overflow to an infinity. *)
Definition round_double (x : Q) : number :=
  let n := Z.abs (Qnum x) in
  if (n =? 0)%Z then zero
  else
    let d := Zpos (Qden x) in
    let qe := Z.max (floor_log2 n d - 52) (-1074) in
    let m := round_half_even (n * 2 ^ Z.max 0 (- qe)) (d * 2 ^ Z.max 0 qe) in
    if ((971 <? qe) || ((qe =? 971) && (2 ^ 53 <=? m)))%Z%bool
    then Infinity (Qnum x <? 0)%Z
    else
      let sm := (Z.sgn (Qnum x) * m)%Z in
      Finite (Qred (if (0 <=? qe)%Z
                    then inject_Z (sm * 2 ^ qe)
                    else Qmake sm (Z.to_pos (2 ^ (- qe))))).

(** [a + b] *)
Definition add (a b : number) : number :=
  match a, b with
  | Finite x, Finite y => round_double (Qplus x y)
  | NaN, _ | _, NaN => NaN
  | Infinity s, Infinity t => if Bool.eqb s t then Infinity s else NaN
  | Infinity s, Finite _ | Finite _, Infinity s => Infinity s
  end.

(** [a / b] for a non-zero finite divisor [b]. *)
Definition div_by (a : number) (b : Q) : number :=
  match a with
  | Finite x => round_double (Qdiv x b)
  | NaN => NaN
  | Infinity s => Infinity (xorb s (Qnum b <? 0)%Z)
  end.

(** [Math.floor] *)
Definition floor (a : number) : number :=
  match a with
  | Finite x => of_Z (Qfloor x)
  | other => other
  end.

Definition is_zero (a : number) : bool :=
  match a with Finite x => (Qnum x =? 0)%Z | _ => false end.

(** *** Number to text *)

Definition digits_of_N (n : N) : string :=
  NilZero.string_of_uint (N.to_uint n).

(** The digits after the decimal point of [r / d] for [0 <= r < d],
    until the remainder vanishes. *)
Fixpoint fraction_digits (fuel : nat) (r d : Z) : string :=
  match fuel with
  | O => EmptyString
  | S k =>
      if (r =? 0)%Z then EmptyString
      else
        digits_of_N (Z.to_N (10 * r / d))
        ++ fraction_digits k ((10 * r) mod d)%Z d
  end.

(** [String(n)].  JavaScript prints the shortest digits that read back
    as the same double and switches to exponent notation from 1e21 up and
    below 1e-6; this prints every digit of the value.  The two agree on
    the integers of magnitude below 10^21, which is what identifiers and
    timestamps are made of. *)
Definition to_string (a : number) : string :=
  match a with
  | NaN => "NaN"
  | Infinity false => "Infinity"
  | Infinity true => "-Infinity"
  | Finite x =>
      let n := Z.abs (Qnum x) in
      let d := Zpos (Qden x) in
      let whole := digits_of_N (Z.to_N (n / d)) in
      let frac := fraction_digits 1100 (n mod d)%Z d in
      (if (Qnum x <? 0)%Z then "-" else EmptyString)
      ++ whole
      ++ (if is_empty frac then EmptyString else "." ++ frac)
  end.

(** *** Text to number *)

Definition is_digit (c : ascii) : bool := byte_in 48 57 c.

Definition digit_value (c : ascii) : Z := (Z.of_N (code c) - 48)%Z.

(** The value of a hexadecimal (or smaller radix) digit, if [c] is one. *)
Definition hex_value (c : ascii) : option Z :=
  if is_digit c then Some (digit_value c)
  else if byte_in 97 102 c then Some (Z.of_N (code c) - 87)%Z
  else if byte_in 65 70 c then Some (Z.of_N (code c) - 55)%Z
  else None.

(** The longest prefix of decimal digits, and what follows it. *)
Fixpoint span_digits (s : string) : string * string :=
  match s with
  | String c r =>
      if is_digit c
      then let (ds, rest) := span_digits r in (String c ds, rest)
      else (EmptyString, s)
  | EmptyString => (EmptyString, EmptyString)
  end.

Fixpoint decimal_value (s : string) (acc : Z) : Z :=
  match s with
  | String c r => decimal_value r (10 * acc + digit_value c)%Z
  | EmptyString => acc
  end.

(** All of [s] read in radix [base]; [None] when [s] is empty or has a
    character that is no digit of that radix. *)
Fixpoint radix_value (base : Z) (s : string) (acc : option Z) : option Z :=
  match s with
  | EmptyString => acc
  | String c r =>
      match hex_value c with
      | Some v =>
          if (v <? base)%Z
          then radix_value base r
                 (Some (base * match acc with Some a => a | None => 0 end + v)%Z)
          else None
      | None => None
      end
  end.

(** A decimal literal cut into its pieces: integer digits, fraction
    digits (with whether a point was written) and the exponent. *)
Record literal : Type := {
  lit_int : string;
  lit_point : bool;
  lit_frac : string;
  lit_exp : Z
}.

Definition read_exponent (s : string) : option Z :=
  match s with
  | EmptyString => Some 0%Z
  | String c r =>
      if (Ascii.eqb c "e" || Ascii.eqb c "E")%bool then
        let (negative, r') :=
          match r with
          | String "-" t => (true, t)
          | String "+" t => (false, t)
          | _ => (false, r)
          end in
        let (ds, rest) := span_digits r' in
        if (is_empty ds || negb (is_empty rest))%bool then None
        else Some (if negative then (- decimal_value ds 0)%Z else decimal_value ds 0%Z)
      else None
  end.

Definition read_literal (s : string) : option literal :=
  let (int_digits, r1) := span_digits s in
  let '(point, frac_digits, r2) :=
    match r1 with
    | String "." t => let (fs, rest) := span_digits t in (true, fs, rest)
    | _ => (false, EmptyString, r1)
    end in
  match read_exponent r2 with
  | Some e => Some {| lit_int := int_digits; lit_point := point;
                      lit_frac := frac_digits; lit_exp := e |}
  | None => None
  end.

(** mantissa * 10^scale, rounded to a double.  Values far outside the
    range of doubles are settled without building the power of ten. *)
Definition literal_value (negative : bool) (l : literal) : number :=
  let mantissa := decimal_value (lit_int l ++ lit_frac l) 0 in
  let scale := (lit_exp l - Z.of_nat (String.length (lit_frac l)))%Z in
  let width := Z.of_nat (String.length (lit_int l ++ lit_frac l)) in
  if (mantissa =? 0)%Z then zero
  else if (400 <? scale)%Z then Infinity negative
  else if (scale + width <? -400)%Z then zero
  else
    let signed := if negative then (- mantissa)%Z else mantissa in
    round_double
      (if (0 <=? scale)%Z
       then inject_Z (signed * 10 ^ scale)
       else Qmake signed (Z.to_pos (10 ^ (- scale)))).

(** The number grammar of JSON: an optional minus sign; a single zero or
    digits that do not start with zero; optionally a point and at least
    one digit; optionally an exponent. *)
Definition of_json_literal (s : string) : option number :=
  let (negative, body) :=
    match s with
    | String "-" r => (true, r)
    | _ => (false, s)
    end in
  match read_literal body with
  | Some l =>
      let int_ok :=
        match lit_int l with
        | EmptyString => false
        | String "0" (String _ _) => false
        | _ => true
        end in
      let frac_ok := (negb (lit_point l) || negb (is_empty (lit_frac l)))%bool in
      if (int_ok && frac_ok)%bool then Some (literal_value negative l) else None
  | None => None
  end.

(** [Number(s)]: white space is trimmed, the empty string is 0, then a
    signed decimal literal or [Infinity], or an unsigned literal in
    radix 16, 8 or 2; anything else is [NaN]. *)
Definition of_string (s : string) : number :=
  let t := trim s in
  match t with
  | EmptyString => zero
  | String "0" (String x r) =>
      let radix :=
        if (Ascii.eqb x "x" || Ascii.eqb x "X")%bool then Some 16%Z
        else if (Ascii.eqb x "o" || Ascii.eqb x "O")%bool then Some 8%Z
        else if (Ascii.eqb x "b" || Ascii.eqb x "B")%bool then Some 2%Z
        else None in
      match radix with
      | Some base =>
          match radix_value base r None with
          | Some v => round_double (inject_Z v)
          | None => NaN
          end
      | None =>
          match read_literal t with
          | Some l => literal_value false l
          | None => NaN
          end
      end
  | _ =>
      let (negative, body) :=
        match t with
        | String "-" r => (true, r)
        | String "+" r => (false, r)
        | _ => (false, t)
        end in
      if String.eqb body "Infinity" then Infinity negative
      else
        match read_literal body with
        | Some l =>
            if (is_empty (lit_int l) && is_empty (lit_frac l))%bool then NaN
            else literal_value negative l
        | None => NaN
        end
  end.

End JsNumber.

Import JsNumber.

(** ** Values, exceptions and streams *)

(** What [catch] can observe of a thrown value: an [Error] object with its
    message, or something that is not an [Error]. *)
Inductive exn : Type :=
| ErrorObject (name message : string)
| OtherThrown.

(** One successful [reader.read()] of a backend stream: a string, a chunk
    of bytes (a [Uint8Array] or another buffer), or a value that is
    neither and that [TextDecoder.decode] rejects (an object, a number,
    [null]). *)
Inductive chunk : Type :=
| ChunkString (s : string)
| ChunkBytes (bytes : string)
| ChunkOther.

(** A [ReadableStream] as the reads it will answer: the chunks in order,
    then either [done] or the rejection of the read. *)
Record stream : Type := {
  chunks : list chunk;
  failure : option exn
}.

Inductive value : Type :=
| VUndefined
| VNull
| VBool (b : bool)
| VNum (n : number)
| VStr (s : string)
| VArr (items : list value)
| VObj (fields : list (string * value))
| VStream (rs : stream).

(** Computations that may throw. *)
Inductive outcome (A : Type) : Type :=
| Return (a : A)
| Throw (e : exn).
Arguments Return {A} a.
Arguments Throw {A} e.

Definition bind {A B : Type} (m : outcome A) (f : A -> outcome B) : outcome B :=
  match m with
  | Return a => f a
  | Throw e => Throw e
  end.

Notation "x <- m ;; k" := (bind m (fun x => k))
  (at level 61, m at next level, right associativity).

Module Js.

(** [typeof v === 'object' && v !== null] *)
Definition is_object (v : value) : bool :=
  match v with
  | VArr _ | VObj _ | VStream _ => true
  | _ => false
  end.

Definition is_nullish (v : value) : bool :=
  match v with VUndefined | VNull => true | _ => false end.

(** [v instanceof ReadableStream] *)
Definition is_stream (v : value) : bool :=
  match v with VStream _ => true | _ => false end.

(** ToBoolean *)
Definition truthy (v : value) : bool :=
  match v with
  | VUndefined | VNull => false
  | VBool b => b
  | VNum NaN => false
  | VNum n => negb (is_zero n)
  | VStr s => negb (is_empty s)
  | VArr _ | VObj _ | VStream _ => true
  end.

Fixpoint lookup (k : string) (fields : list (string * value)) : value :=
  match fields with
  | [] => VUndefined
  | (k', v) :: rest => if String.eqb k k' then v else lookup k rest
  end.

(** [v[k]] for a value that is neither [null] nor [undefined] and a key
    that is an ordinary property name (not an index, not [length]). *)
Definition get (v : value) (k : string) : value :=
  match v with
  | VObj fields => lookup k fields
  | _ => VUndefined
  end.

(** [v.k], which throws on [null] and [undefined]. *)
Definition get_or_throw (v : value) (k : string) : outcome value :=
  if is_nullish v
  then Throw (ErrorObject "TypeError"
                ("Cannot read properties of "
                 ++ (match v with VNull => "null" | _ => "undefined" end)
                 ++ " (reading '" ++ k ++ "')"))
  else Return (get v k).

(** [a ?? b] *)
Definition coalesce (a b : value) : value :=
  if is_nullish a then b else a.

(** Assignment to a property: replace it in place, or add it last. *)
Fixpoint set (k : string) (v : value) (fields : list (string * value))
  : list (string * value) :=
  match fields with
  | [] => [(k, v)]
  | (k', v') :: rest =>
      if String.eqb k k' then (k, v) :: rest else (k', v') :: set k v rest
  end.

End Js.

Import Js.

(** ** UTF-8 *)

Module Utf8.

Definition byte (n : N) : ascii := ascii_of_N n.

(** The replacement character U+FFFD. *)
Definition replacement : string :=
  String (byte 239) (String (byte 191) (String (byte 189) EmptyString)).

(** The bytes of a code point (or of a surrogate half on its own). *)
Definition encode_point (cp : N) : string :=
  if (cp <? 128)%N then String (byte cp) EmptyString
  else if (cp <? 2048)%N then
    String (byte (192 + cp / 64)) (String (byte (128 + cp mod 64)) EmptyString)
  else if (cp <? 65536)%N then
    String (byte (224 + cp / 4096))
      (String (byte (128 + (cp / 64) mod 64))
         (String (byte (128 + cp mod 64)) EmptyString))
  else
    String (byte (240 + cp / 262144))
      (String (byte (128 + (cp / 4096) mod 64))
         (String (byte (128 + (cp / 64) mod 64))
            (String (byte (128 + cp mod 64)) EmptyString))).

(** The surrogate half whose three bytes are ED [b2] [b3]. *)
Definition surrogate_of (b2 b3 : ascii) : N :=
  (53248 + (code b2 - 128) * 64 + (code b3 - 128))%N.

Definition is_surrogate_bytes (b1 b2 : ascii) : bool :=
  (N.eqb (code b1) 237 && byte_in 160 191 b2)%bool.

(** Append the UTF-16 code unit [cu] to the text whose reversed bytes are
    [acc]: a low surrogate directly after a high one completes a
    supplementary character. *)
Definition push_code_unit (acc : string) (cu : N) : string :=
  let plain := rev_append (encode_point cu) acc in
  if ((56320 <=? cu) && (cu <=? 57343))%N%bool then
    match acc with
    | String b3 (String b2 (String b1 rest)) =>
        if (is_surrogate_bytes b1 b2 && byte_in 160 175 b2)%bool then
          let hi := surrogate_of b2 b3 in
          rev_append
            (encode_point (65536 + (hi - 55296) * 1024 + (cu - 56320))%N) rest
        else plain
    | _ => plain
    end
  else plain.

(** [TextEncoder.encode]: a surrogate half on its own becomes U+FFFD. *)
Fixpoint encode (s : string) : string :=
  match s with
  | EmptyString => EmptyString
  | String b1 r1 =>
      match r1 with
      | String b2 (String b3 r3) =>
          if is_surrogate_bytes b1 b2 then replacement ++ encode r3
          else String b1 (encode r1)
      | _ => String b1 (encode r1)
      end
  end.

(** The state of a [TextDecoder] between two calls of
    [decode(bytes, {stream: true})]: the bytes of an unfinished
    character, how many are still to come, the range allowed for the
    next one, and whether a leading byte-order mark can still come.
    This is the UTF-8 decoder of the Encoding Standard, which drops a
    byte-order mark only as the first character of the whole stream.  The
    properties below that compare one cutting of bytes into reads with
    another are stated for bytes below 128, which every decoder gives
    back as they are, read by read. *)
Record decoder : Type := {
  pending : string;
  needed : nat;
  lower : N;
  upper : N;
  at_start : bool
}.

Definition fresh : decoder :=
  {| pending := EmptyString; needed := 0; lower := 128; upper := 191;
     at_start := true |}.

Definition idle (d : decoder) : decoder :=
  {| pending := EmptyString; needed := 0; lower := 128; upper := 191;
     at_start := at_start d |}.

Definition started (d : decoder) : decoder :=
  {| pending := pending d; needed := needed d; lower := lower d;
     upper := upper d; at_start := false |}.

(** A finished character leaves the decoder; the byte-order mark is
    dropped when it is the first one. *)
Definition emit (d : decoder) (bytes : string) : string * decoder :=
  if (at_start d && String.eqb bytes (encode_point 65279))%bool
  then (EmptyString, started (idle d))
  else (bytes, started (idle d)).

(** A byte met when no character is in progress. *)
Definition lead (d : decoder) (b : ascii) : string * decoder :=
  let c := code b in
  let wait n lo hi :=
    (EmptyString,
     {| pending := String b EmptyString; needed := n; lower := lo;
        upper := hi; at_start := at_start d |}) in
  if (c <? 128)%N then emit d (String b EmptyString)
  else if byte_in 194 223 b then wait 1 128%N 191%N
  else if byte_in 224 239 b then
    wait 2 (if N.eqb c 224 then 160 else 128)%N
           (if N.eqb c 237 then 159 else 191)%N
  else if byte_in 240 244 b then
    wait 3 (if N.eqb c 240 then 144 else 128)%N
           (if N.eqb c 244 then 143 else 191)%N
  else emit d replacement.

Definition step (d : decoder) (b : ascii) : string * decoder :=
  match needed d with
  | O => lead d b
  | S k =>
      if byte_in (lower d) (upper d) b then
        let bytes := pending d ++ String b EmptyString in
        match k with
        | O => emit d bytes
        | S _ =>
            (EmptyString,
             {| pending := bytes; needed := k; lower := 128; upper := 191;
                at_start := at_start d |})
        end
      else
        let (bad, d1) := emit d replacement in
        let (next, d2) := lead d1 b in
        (bad ++ next, d2)
  end.

(** [decoder.decode(bytes, {stream: true})] *)
Fixpoint decode (d : decoder) (bytes : string) : string * decoder :=
  match bytes with
  | EmptyString => (EmptyString, d)
  | String b rest =>
      let (out, d1) := step d b in
      let (more, d2) := decode d1 rest in
      (out ++ more, d2)
  end.

End Utf8.

(** ** JSON *)

Module JSON.

(** *** [JSON.stringify] *)

Definition hex_digit (n : N) : ascii :=
  if (n <? 10)%N then ascii_of_N (48 + n) else ascii_of_N (87 + n).

(** [\uXXXX] with lower-case digits. *)
Definition unicode_escape (cu : N) : string :=
  String "\" (String "u"
    (String (hex_digit (cu / 4096))
       (String (hex_digit ((cu / 256) mod 16))
          (String (hex_digit ((cu / 16) mod 16))
             (String (hex_digit (cu mod 16)) EmptyString))))).

Definition escape_byte (c : ascii) : string :=
  let n := code c in
  if N.eqb n 34 then String "\" (String DQUOTE EmptyString)
  else if N.eqb n 92 then "\\"
  else if N.eqb n 8 then "\b"
  else if N.eqb n 12 then "\f"
  else if N.eqb n 10 then "\n"
  else if N.eqb n 13 then "\r"
  else if N.eqb n 9 then "\t"
  else if (n <? 32)%N then unicode_escape n
  else String c EmptyString.

Fixpoint escape (s : string) : string :=
  match s with
  | EmptyString => EmptyString
  | String b1 r1 =>
      match r1 with
      | String b2 (String b3 r3) =>
          if Utf8.is_surrogate_bytes b1 b2
          then unicode_escape (Utf8.surrogate_of b2 b3) ++ escape r3
          else escape_byte b1 ++ escape r1
      | _ => escape_byte b1 ++ escape r1
      end
  end.

Definition quote (s : string) : string :=
  String DQUOTE (escape s ++ String DQUOTE EmptyString).

(** [JSON.stringify(v)]; [None] stands for the result [undefined].  An
    [undefined] array element is written [null], an [undefined] property
    is left out, a number that is not finite is written [null], and a
    stream, having no enumerable property, is written as an empty
    object. *)
Fixpoint stringify (v : value) : option string :=
  match v with
  | VUndefined => None
  | VNull => Some "null"
  | VBool true => Some "true"
  | VBool false => Some "false"
  | VNum n => Some (if isFinite n then to_string n else "null")
  | VStr s => Some (quote s)
  | VArr items =>
      Some ("[" ++ String.concat ","
                     (map (fun x => match stringify x with
                                    | Some t => t
                                    | None => "null"
                                    end) items)
                ++ "]")
  | VObj fields =>
      Some ("{" ++ String.concat ","
                     (flat_map (fun kv => match stringify (snd kv) with
                                          | Some t => [quote (fst kv) ++ ":" ++ t]
                                          | None => []
                                          end) fields)
                ++ "}")
  | VStream _ => Some "{}"
  end.

(** *** [JSON.parse]: the lexer *)

Inductive token : Type :=
| TLBrace | TRBrace | TLBracket | TRBracket | TColon | TComma
| TString (s : string)
| TAtom (s : string).

(** Where the lexer is: outside a string with the characters of a
    literal gathered so far, inside a string, after a backslash, or among
    the four digits of a [\u] escape.  Gathered text is kept reversed. *)
Inductive lex_state : Type :=
| LOut (atom : string)
| LStr (acc : string)
| LEsc (acc : string)
| LHex (acc : string) (seen : list N).

Definition json_ws (c : ascii) : bool :=
  let n := code c in
  (N.eqb n 32 || N.eqb n 9 || N.eqb n 10 || N.eqb n 13)%bool.

Definition punctuation (c : ascii) : option token :=
  let n := code c in
  if N.eqb n 123 then Some TLBrace
  else if N.eqb n 125 then Some TRBrace
  else if N.eqb n 91 then Some TLBracket
  else if N.eqb n 93 then Some TRBracket
  else if N.eqb n 58 then Some TColon
  else if N.eqb n 44 then Some TComma
  else None.

Definition simple_escape (c : ascii) : option ascii :=
  let n := code c in
  if N.eqb n 34 then Some DQUOTE
  else if N.eqb n 92 then Some "\"%char
  else if N.eqb n 47 then Some "/"%char
  else if N.eqb n 98 then Some (ascii_of_N 8)
  else if N.eqb n 102 then Some (ascii_of_N 12)
  else if N.eqb n 110 then Some LF
  else if N.eqb n 114 then Some CR
  else if N.eqb n 116 then Some (ascii_of_N 9)
  else None.

Definition flush (atom : string) (out : list token) : list token :=
  if is_empty atom then out else TAtom (rev atom) :: out.

Fixpoint lex (s : string) (st : lex_state) (out : list token)
  : option (list token) :=
  match s with
  | EmptyString =>
      match st with
      | LOut atom => Some (List.rev (flush atom out))
      | _ => None
      end
  | String c r =>
      match st with
      | LOut atom =>
          if json_ws c then lex r (LOut EmptyString) (flush atom out)
          else
            match punctuation c with
            | Some t => lex r (LOut EmptyString) (t :: flush atom out)
            | None =>
                if Ascii.eqb c DQUOTE
                then lex r (LStr EmptyString) (flush atom out)
                else lex r (LOut (String c atom)) out
            end
      | LStr acc =>
          if Ascii.eqb c DQUOTE
          then lex r (LOut EmptyString) (TString (rev acc) :: out)
          else if Ascii.eqb c "\"%char then lex r (LEsc acc) out
          else if (code c <? 32)%N then None
          else lex r (LStr (String c acc)) out
      | LEsc acc =>
          match simple_escape c with
          | Some e => lex r (LStr (String e acc)) out
          | None =>
              if Ascii.eqb c "u"%char then lex r (LHex acc []) out else None
          end
      | LHex acc seen =>
          match hex_value c with
          | None => None
          | Some v =>
              match seen with
              | [h1; h2; h3] =>
                  lex r (LStr (Utf8.push_code_unit acc
                                 (((h1 * 16 + h2) * 16 + h3) * 16 + Z.to_N v)%N))
                    out
              | _ => lex r (LHex acc (seen ++ [Z.to_N v])%list) out
              end
          end
      end
  end.

(** *** [JSON.parse]: the parser, a stack machine over the tokens *)

(** An array or object under construction; an object remembers the key
    whose value is being read. *)
Inductive frame : Type :=
| FArr (items : list value)
| FObj (fields : list (string * value)) (key : string).

Inductive mode : Type :=
| MValue      (* a value must come *)
| MArrFirst   (* just after '[': a value or ']' *)
| MObjFirst   (* just after '{': a key or '}' *)
| MKey        (* after ',' in an object: a key *)
| MColon      (* after a key: ':' *)
| MAfter      (* after a value inside an array or object *)
| MDone (v : value).

Definition atom_value (s : string) : option value :=
  if String.eqb s "true" then Some (VBool true)
  else if String.eqb s "false" then Some (VBool false)
  else if String.eqb s "null" then Some VNull
  else match of_json_literal s with
       | Some n => Some (VNum n)
       | None => None
       end.

(** A finished value goes into the array or object on top of the stack,
    or is the result. *)
Definition deliver (v : value) (stack : list frame) : list frame * mode :=
  match stack with
  | [] => ([], MDone v)
  | FArr items :: rest => (FArr (v :: items) :: rest, MAfter)
  | FObj fields key :: rest => (FObj (Js.set key v fields) key :: rest, MAfter)
  end.

Definition expects_value (m : mode) : bool :=
  match m with MValue | MArrFirst => true | _ => false end.

Definition parse_step (st : list frame * mode) (t : token)
  : option (list frame * mode) :=
  let (stack, m) := st in
  match t with
  | TAtom s =>
      if expects_value m then
        match atom_value s with
        | Some v => Some (deliver v stack)
        | None => None
        end
      else None
  | TString s =>
      if expects_value m then Some (deliver (VStr s) stack)
      else
        match m, stack with
        | (MObjFirst | MKey), FObj fields _ :: rest =>
            Some (FObj fields s :: rest, MColon)
        | _, _ => None
        end
  | TLBracket =>
      if expects_value m then Some (FArr [] :: stack, MArrFirst) else None
  | TLBrace =>
      if expects_value m then Some (FObj [] EmptyString :: stack, MObjFirst)
      else None
  | TRBracket =>
      match m, stack with
      | (MArrFirst | MAfter), FArr items :: rest =>
          Some (deliver (VArr (List.rev items)) rest)
      | _, _ => None
      end
  | TRBrace =>
      match m, stack with
      | (MObjFirst | MAfter), FObj fields _ :: rest =>
          Some (deliver (VObj fields) rest)
      | _, _ => None
      end
  | TColon =>
      match m with
      | MColon => Some (stack, MValue)
      | _ => None
      end
  | TComma =>
      match m, stack with
      | MAfter, FArr _ :: _ => Some (stack, MValue)
      | MAfter, FObj _ _ :: _ => Some (stack, MKey)
      | _, _ => None
      end
  end.

Fixpoint run (tokens : list token) (st : list frame * mode)
  : option (list frame * mode) :=
  match tokens with
  | [] => Some st
  | t :: rest =>
      match parse_step st t with
      | Some st' => run rest st'
      | None => None
      end
  end.

(** [JSON.parse(text)]; [None] stands for the [SyntaxError]. *)
Definition parse (text : string) : option value :=
  match lex text (LOut EmptyString) [] with
  | Some tokens =>
      match run tokens ([], MValue) with
      | Some (_, MDone v) => Some v
      | _ => None
      end
  | None => None
  end.

End JSON.

(** ** The worker ([src/index.ts]) *)

Definition DEFAULT_MODEL : string := "@cf/meta/llama-3.1-8b-instruct".

(** [Date.now()] at its [tick]-th call. *)
Definition Date_now (clock : nat -> Z) (tick : nat) : number := of_Z (clock tick).

(** [createChunkPayload(id, model, content, finishReason)], with the
    reading of [Date.now()] made explicit; [None] is [null]. *)
Definition createChunkPayload (id : string) (model : value)
    (content finishReason : option string) (now : number) : value :=
  VObj
    [ ("id", VStr id);
      ("object", VStr "chat.completion.chunk");
      ("created", VNum (floor (div_by now (inject_Z 1000))));
      ("model", model);
      ("choices",
       VArr
         [ VObj
             [ ("index", VNum (of_Z 0));
               ("delta",
                match content with
                | None => VObj []
                | Some c => VObj [("content", VStr c)]
                end);
               ("finish_reason",
                match finishReason with
                | None => VNull
                | Some r => VStr r
                end) ] ]) ].

(** A value inside a template literal. *)
Definition interpolate (t : option string) : string :=
  match t with
  | Some s => s
  | None => "undefined"
  end.

Definition sseData (payload : value) : string :=
  "data: " ++ interpolate (JSON.stringify payload) ++ nl ++ nl.

Definition candidate_keys : list string :=
  ["response"; "text"; "content"; "delta"; "output_text"].

(** [extractTextCandidates].  The read [item[key]] is done by the inner
    scan of the fields, which stops at the first entry for [key] and finds
    nothing, as reading [undefined] does, when there is none
    (see [extractTextCandidates_object]). *)
Fixpoint extractTextCandidates (v : value) : list string :=
  match v with
  | VStr s => if is_empty s then [] else [s]
  | VArr items => flat_map extractTextCandidates items
  | VObj fields =>
      flat_map
        (fun key =>
           (fix read (fs : list (string * value)) : list string :=
              match fs with
              | [] => []
              | (k, x) :: rest =>
                  if String.eqb key k then extractTextCandidates x else read rest
              end) fields)
        candidate_keys
  | _ => []
  end.

(** [typeof v === 'string' && v.length > 0 ? [v] : []] *)
Definition nonempty_string (v : value) : list string :=
  match v with
  | VStr s => if is_empty s then [] else [s]
  | _ => []
  end.

(** The [content] of a [delta] that is an object. *)
Definition delta_content (delta : value) : list string :=
  if is_object delta then nonempty_string (get delta "content") else [].

Definition extractDeltaText (v : value) : list string :=
  if negb (is_object v) then []
  else
    (nonempty_string (get v "response")
     ++ nonempty_string (get v "output_text")
     ++ nonempty_string (get v "text")
     ++ delta_content (get v "delta")
     ++ match get v "choices" with
        | VArr choices =>
            flat_map
              (fun choice =>
                 if negb (is_object choice) then []
                 else (delta_content (get choice "delta")
                       ++ nonempty_string (get choice "text"))%list)
              choices
        | _ => []
        end)%list.

(** *** The stream normalizer *)

(** The output stream's controller: the frames enqueued so far, oldest
    first, and how many times [Date.now()] has been called. *)
Record controller : Type := {
  queue : list string;
  ticks : nat
}.

Definition enqueue (frame : string) (ctl : controller) : controller :=
  {| queue := (queue ctl ++ [frame])%list; ticks := ticks ctl |}.

Definition tick (ctl : controller) : controller :=
  {| queue := queue ctl; ticks := S (ticks ctl) |}.

Inductive closing : Type :=
| Closed
| Errored (e : exn).

(** What the consumer of the output stream sees. *)
Record sse : Type := {
  frames : list string;
  ending : closing
}.

Definition DONE_FRAME : string := "data: [DONE]" ++ nl ++ nl.

Section Normalizer.

Variable clock : nat -> Z.
Variable id : string.
Variable model : value.

(** A chunk payload is built, which reads the clock, then enqueued. *)
Definition emitChunk (content finishReason : option string)
    (ctl : controller) : controller :=
  let now := Date_now clock (ticks ctl) in
  enqueue
    (Utf8.encode (sseData (createChunkPayload id model content finishReason now)))
    (tick ctl).

Definition emitContent (ctl : controller) (text : string) : controller :=
  if is_empty text then ctl else emitChunk (Some text) None ctl.

(** The lines of an event that start with [data:]. *)
Definition data_lines (part : string) : list string :=
  filter (startsWith "data:") (map trim (split sep_line part)).

(** The body of [for (const line of lines)]. *)
Definition handle_line (ctl : controller) (line : string) : controller :=
  let raw := trim (drop 5 line) in
  if (is_empty raw || String.eqb raw "[DONE]")%bool then ctl
  else
    match JSON.parse raw with
    | Some parsed => fold_left emitContent (extractDeltaText parsed) ctl
    | None => emitContent ctl raw
    end.

(** The body of [for (const part of parts)]. *)
Definition handle_part (ctl : controller) (part : string) : controller :=
  match data_lines part with
  | [] => fold_left emitContent (extractTextCandidates (VStr part)) ctl
  | lines => fold_left handle_line lines ctl
  end.

(** The variables of [start] that live across reads. *)
Record reading : Type := {
  buffer : string;
  decoder : Utf8.decoder;
  ctl : controller
}.

Definition decode_error : exn :=
  ErrorObject "TypeError"
    "Failed to execute 'decode' on 'TextDecoder': parameter 1 is not of type 'ArrayBuffer'.".

(** The body of [while (true)] for a read that is not [done]. *)
Definition handle_read (r : reading) (c : chunk) : outcome reading :=
  match c with
  | ChunkString v =>
      Return {| buffer := buffer r; decoder := decoder r;
                ctl := emitContent (ctl r) v |}
  | ChunkBytes bytes =>
      let (text, d) := Utf8.decode (decoder r) bytes in
      let (parts, last) := pop (split sep_blank (buffer r ++ text)) in
      Return {| buffer := match last with Some b => b | None => EmptyString end;
                decoder := d;
                ctl := fold_left handle_part parts (ctl r) |}
  | ChunkOther => Throw decode_error
  end.

(** The loop: the state when it stops, and the exception that stopped
    it, if one did. *)
Fixpoint read_all (cs : list chunk) (r : reading) : reading * option exn :=
  match cs with
  | [] => (r, None)
  | c :: rest =>
      match handle_read r c with
      | Return r' => read_all rest r'
      | Throw e => (r, Some e)
      end
  end.

(** After the loop: the rest of the buffer, the stop chunk, the
    sentinel. *)
Definition finish (r : reading) : controller :=
  let flushed :=
    if is_empty (trim (buffer r)) then ctl r
    else fold_left emitContent (extractTextCandidates (VStr (buffer r))) (ctl r) in
  enqueue (Utf8.encode DONE_FRAME) (emitChunk None (Some "stop") flushed).

(** [toOpenAiSseFromAiStream({aiStream, id, model})], started when
    [Date.now()] has been called [tick0] times: the output stream, and
    the controller at the end. *)
Definition normalize (aiStream : stream) (tick0 : nat) : controller * closing :=
  let start := {| buffer := EmptyString; decoder := Utf8.fresh;
                  ctl := {| queue := []; ticks := tick0 |} |} in
  match read_all (chunks aiStream) start with
  | (r, Some e) => (ctl r, Errored e)
  | (r, None) =>
      match failure aiStream with
      | Some e => (ctl r, Errored e)
      | None => (finish r, Closed)
      end
  end.

Definition toOpenAiSseFromAiStream (aiStream : stream) (tick0 : nat) : sse :=
  let (c, e) := normalize aiStream tick0 in
  {| frames := queue c; ending := e |}.

End Normalizer.

(** *** Errors, usage and text extraction *)

Record error_reply : Type := {
  status : Z;
  body : value
}.

(** [createOpenAIError(message, status = 400)] *)
Definition createOpenAIError (message : string) (status : option Z) : error_reply :=
  {| status := match status with Some s => s | None => 400%Z end;
     body :=
       VObj
         [ ("error",
            VObj
              [ ("message", VStr message);
                ("type", VStr "invalid_request_error");
                ("param", VNull);
                ("code", VNull) ]) ] |}.

Definition toNumber (v : value) : option number :=
  match v with
  | VNum n => if isFinite n then Some n else None
  | VStr s => let parsed := of_string s in
              if isFinite parsed then Some parsed else None
  | _ => None
  end.

(** [a ?? b] on the results of [toNumber], [None] being [null]. *)
Definition orElse {A : Type} (a b : option A) : option A :=
  match a with
  | Some _ => a
  | None => b
  end.

Definition orDefault {A : Type} (a : option A) (b : A) : A :=
  match a with
  | Some x => x
  | None => b
  end.

Record usage : Type := {
  prompt_tokens : number;
  completion_tokens : number;
  total_tokens : number
}.

(** [promptTokens !== null && completionTokens !== null
     ? promptTokens + completionTokens : otherwise] *)
Definition sum_if_both {A : Type} (p c : option number)
    (some : number -> A) (otherwise : A) : A :=
  match p, c with
  | Some x, Some y => some (add x y)
  | _, _ => otherwise
  end.

(** The three constants of [getUsageFromObject] before the total is
    derived: what [source] reports for each quantity, under the first
    field name that holds a number. *)
Definition reported_prompt (source : value) : option number :=
  orElse (orElse (orElse (toNumber (get source "prompt_tokens"))
                         (toNumber (get source "input_tokens")))
                 (toNumber (get source "promptTokens")))
         (toNumber (get source "inputTokens")).

Definition reported_completion (source : value) : option number :=
  orElse (orElse (orElse (toNumber (get source "completion_tokens"))
                         (toNumber (get source "output_tokens")))
                 (toNumber (get source "completionTokens")))
         (toNumber (get source "outputTokens")).

Definition reported_total (source : value) : option number :=
  orElse (toNumber (get source "total_tokens"))
         (toNumber (get source "totalTokens")).

(** [getUsageFromObject(source)]; [None] is [null]. *)
Definition getUsageFromObject (source : value) : option usage :=
  let promptTokens := reported_prompt source in
  let completionTokens := reported_completion source in
  let totalTokens :=
    orElse (reported_total source)
           (sum_if_both promptTokens completionTokens Some None) in
  match promptTokens, completionTokens, totalTokens with
  | None, None, None => None
  | _, _, _ =>
      Some {| prompt_tokens := orDefault promptTokens zero;
              completion_tokens := orDefault completionTokens zero;
              total_tokens :=
                orDefault totalTokens
                  (sum_if_both promptTokens completionTokens (fun t => t) zero) |}
  end.

Definition no_usage : usage :=
  {| prompt_tokens := zero; completion_tokens := zero; total_tokens := zero |}.

(** [typeof v === 'object' && v !== null ? getUsageFromObject(v) : null] *)
Definition usage_of_object (v : value) : option usage :=
  if is_object v then getUsageFromObject v else None.

(** [extractUsageFromAiResult(result)].  Reading a property of [null] or
    [undefined] throws; on any other value the four places are tried in
    turn. *)
Definition extractUsageFromAiResult (result : value) : outcome usage :=
  _ <- get_or_throw result "prompt_tokens" ;;
  match getUsageFromObject result with
  | Some direct => Return direct
  | None =>
      match usage_of_object (get result "usage") with
      | Some u => Return u
      | None =>
          let nested := get result "result" in
          if is_object nested then
            match getUsageFromObject nested with
            | Some nestedDirect => Return nestedDirect
            | None =>
                match usage_of_object (get nested "usage") with
                | Some u => Return u
                | None => Return no_usage
                end
            end
          else Return no_usage
      end
  end.

(** The text of one element of [output]. *)
Definition output_item_text (item : value) : string :=
  match item with
  | VStr s => s
  | _ =>
      if is_object item then
        match get item "text" with
        | VStr t => t
        | _ => EmptyString
        end
      else EmptyString
  end.

(** The second attempt: the [response] or [output_text] of a [result]
    that is an object. *)
Definition text_of_container (resultContainer : value) : option string :=
  if is_object resultContainer then
    match get resultContainer "response" with
    | VStr s => Some s
    | _ =>
        match get resultContainer "output_text" with
        | VStr s => Some s
        | _ => None
        end
    end
  else None.

(** The third attempt: the texts of an [output] array, joined and
    trimmed, when that leaves something. *)
Definition text_of_output (output : value) : option string :=
  match output with
  | VArr items =>
      let text := trim (String.concat EmptyString (map output_item_text items)) in
      if is_empty text then None else Some text
  | _ => None
  end.

(** [extractTextFromAiResult(result)].  In the last case [result] is not
    [undefined] (reading its [response] would have thrown), so
    [JSON.stringify] does return a string ([stringify_defined]). *)
Definition extractTextFromAiResult (result : value) : outcome string :=
  response <- get_or_throw result "response" ;;
  match response with
  | VStr s => Return s
  | _ =>
      match text_of_container (get result "result") with
      | Some s => Return s
      | None =>
          match text_of_output (get result "output") with
          | Some text => Return text
          | None => Return (orDefault (JSON.stringify result) EmptyString)
          end
      end
  end.

(** *** The handler of [POST /v1/chat/completions] *)

(** What a request runs against: the backend binding [c.env.AI.run], the
    clock, and the eight characters [Math.random()] will contribute to
    the request identifier. *)
Record env : Type := {
  AI_run : value -> value -> outcome value;
  clock : nat -> Z;
  random_suffix : string
}.

Inductive response : Type :=
| JsonResponse (code : Z) (payload : value)
| EventStream (headers : list (string * string)) (events : sse).

(** The response, or the exception that escaped the handler, and the
    calls made to the backend, in order. *)
Record reply : Type := {
  result : outcome response;
  calls : list (value * value)
}.

Definition sse_headers : list (string * string) :=
  [ ("content-type", "text/event-stream; charset=utf-8");
    ("cache-control", "no-cache, no-transform");
    ("connection", "keep-alive") ].

Definition error_response (e : error_reply) : response :=
  JsonResponse (status e) (body e).

(** The [catch] of the handler. *)
Definition server_error (e : exn) : response :=
  let message :=
    match e with
    | ErrorObject _ m => m
    | OtherThrown => "Workers AI call failed."
    end in
  JsonResponse 500
    (VObj
       [ ("error",
          VObj
            [ ("message", VStr message);
              ("type", VStr "server_error");
              ("param", VNull);
              ("code", VNull) ]) ]).

Definition catching (m : outcome response) : response :=
  match m with
  | Return r => r
  | Throw e => server_error e
  end.

(** The callback of [messages.some]. *)
Definition invalid_message (message : value) : bool :=
  match (if is_nullish message then VUndefined else get message "content") with
  | VStr content =>
      (is_empty (trim content) || negb (truthy (get message "role")))%bool
  | _ => true
  end.

Definition usage_value (u : usage) : value :=
  VObj
    [ ("prompt_tokens", VNum (prompt_tokens u));
      ("completion_tokens", VNum (completion_tokens u));
      ("total_tokens", VNum (total_tokens u)) ].

(** The last string enqueued by the fallback branch.  Its source literal
    escapes the backslashes, so the text ends with a backslash, the letter
    n, a backslash and the letter n, not with two line feeds. *)
Definition FALLBACK_SENTINEL : string := "data: [DONE]\n\n".

(** The stream built when the backend did not answer with a stream. *)
Definition fallback_stream (e : env) (requestId : string) (model : value)
    (fallbackText : string) : sse :=
  let c0 := {| queue := []; ticks := 1 |} in
  let c1 := emitChunk (clock e) requestId model (Some fallbackText) None c0 in
  let c2 := emitChunk (clock e) requestId model None (Some "stop") c1 in
  let c3 := enqueue (Utf8.encode FALLBACK_SENTINEL) c2 in
  {| frames := queue c3; ending := Closed |}.

(** The branch [if (body.stream)]. *)
Definition respond_streaming (e : env) (requestId : string) (model : value)
    (messages : list value) : reply :=
  let inputs := VObj [("messages", VArr messages); ("stream", VBool true)] in
  {| calls := [(model, inputs)];
     result :=
       Return
         (catching
            (streamedResult <- AI_run e model inputs ;;
             let aiStream :=
               match streamedResult with
               | VStream rs => Some rs
               | _ =>
                   if is_object streamedResult then
                     match get streamedResult "response" with
                     | VStream rs => Some rs
                     | _ => None
                     end
                   else None
               end in
             match aiStream with
             | None =>
                 fallbackText <- extractTextFromAiResult streamedResult ;;
                 Return (EventStream sse_headers
                           (fallback_stream e requestId model fallbackText))
             | Some rs =>
                 Return (EventStream sse_headers
                           (toOpenAiSseFromAiStream (clock e) requestId model rs 1))
             end)) |}.

(** The rest of the [try] block. *)
Definition respond_once (e : env) (requestId : string) (model : value)
    (messages : list value) : reply :=
  let inputs := VObj [("messages", VArr messages)] in
  {| calls := [(model, inputs)];
     result :=
       Return
         (catching
            (answer <- AI_run e model inputs ;;
             content <- extractTextFromAiResult answer ;;
             u <- extractUsageFromAiResult answer ;;
             let created := floor (div_by (Date_now (clock e) 1) (inject_Z 1000)) in
             Return
               (JsonResponse 200
                  (VObj
                     [ ("id", VStr requestId);
                       ("object", VStr "chat.completion");
                       ("created", VNum created);
                       ("model", model);
                       ("choices",
                        VArr
                          [ VObj
                              [ ("index", VNum (of_Z 0));
                                ("message",
                                 VObj [ ("role", VStr "assistant");
                                        ("content", VStr content) ]);
                                ("finish_reason", VStr "stop") ] ]);
                       ("usage", usage_value u) ])))) |}.

(** The handler, on the text of the request body. *)
Definition chatCompletions (e : env) (request_body : string) : reply :=
  match JSON.parse request_body with
  | None =>
      {| calls := [];
         result := Return (error_response
                             (createOpenAIError "Invalid JSON body." None)) |}
  | Some body =>
      match get_or_throw body "model" with
      | Throw err => {| calls := []; result := Throw err |}
      | Return requested =>
          let model := coalesce requested (VStr DEFAULT_MODEL) in
          let messages :=
            match get body "messages" with
            | VArr items => items
            | _ => []
            end in
          let requestId :=
            "chatcmpl-" ++ to_string (Date_now (clock e) 0) ++ "-" ++ random_suffix e in
          match messages with
          | [] =>
              {| calls := [];
                 result :=
                   Return (error_response
                             (createOpenAIError
                                "`messages` must be a non-empty array." None)) |}
          | _ =>
              if existsb invalid_message messages then
                {| calls := [];
                   result :=
                     Return (error_response
                               (createOpenAIError
                                  "Each message must include string `role` and non-empty string `content`."
                                  None)) |}
              else if truthy (get body "stream")
              then respond_streaming e requestId model messages
              else respond_once e requestId model messages
          end
      end
  end.

(** ** What the normalizer emits, without the clock

    The frames of the output depend on the clock only through the
    [created] field of each chunk.  [emissions] lists what is emitted, in
    order, from the backend stream alone; [render] turns that list into
    frames by stamping the chunks with successive readings of the clock. *)

Inductive emission : Type :=
| Content (text : string)
| Stop
| Sentinel.

(** [emitContent] drops the empty string. *)
Definition content_of (text : string) : list emission :=
  if is_empty text then [] else [Content text].

Definition line_emissions (line : string) : list emission :=
  let raw := trim (drop 5 line) in
  if (is_empty raw || String.eqb raw "[DONE]")%bool then []
  else
    match JSON.parse raw with
    | Some parsed => flat_map content_of (extractDeltaText parsed)
    | None => content_of raw
    end.

Definition part_emissions (part : string) : list emission :=
  match data_lines part with
  | [] => flat_map content_of (extractTextCandidates (VStr part))
  | lines => flat_map line_emissions lines
  end.

(** One read: the buffer and decoder after it and what it emitted, or the
    exception. *)
Definition read_emissions (buf : string) (d : Utf8.decoder) (c : chunk)
  : outcome (string * Utf8.decoder * list emission) :=
  match c with
  | ChunkString v => Return (buf, d, content_of v)
  | ChunkBytes bytes =>
      let (text, d') := Utf8.decode d bytes in
      let (parts, last) := pop (split sep_blank (buf ++ text)) in
      Return (match last with Some b => b | None => EmptyString end, d',
              flat_map part_emissions parts)
  | ChunkOther => Throw decode_error
  end.

Fixpoint reads_emissions (cs : list chunk) (buf : string) (d : Utf8.decoder)
  : list emission * string * option exn :=
  match cs with
  | [] => ([], buf, None)
  | c :: rest =>
      match read_emissions buf d c with
      | Return (buf', d', es) =>
          let '(more, final, err) := reads_emissions rest buf' d' in
          ((es ++ more)%list, final, err)
      | Throw e => ([], buf, Some e)
      end
  end.

Definition flush_emissions (buf : string) : list emission :=
  if is_empty (trim buf) then []
  else flat_map content_of (extractTextCandidates (VStr buf)).

Definition emissions (s : stream) : list emission * closing :=
  let '(es, buf, err) := reads_emissions (chunks s) EmptyString Utf8.fresh in
  match err, failure s with
  | Some e, _ => (es, Errored e)
  | None, Some e => (es, Errored e)
  | None, None => ((es ++ flush_emissions buf ++ [Stop; Sentinel])%list, Closed)
  end.


Section Render.

Variable clock : nat -> Z.
Variable id : string.
Variable model : value.

(** The frame of a chunk stamped with the [n]-th reading of the clock. *)
Definition chunk_frame (content finishReason : option string) (n : nat) : string :=
  Utf8.encode
    (sseData (createChunkPayload id model content finishReason (Date_now clock n))).

Fixpoint render (n : nat) (es : list emission) : list string :=
  match es with
  | [] => []
  | Content text :: rest => chunk_frame (Some text) None n :: render (S n) rest
  | Stop :: rest => chunk_frame None (Some "stop") n :: render (S n) rest
  | Sentinel :: rest => Utf8.encode DONE_FRAME :: render n rest
  end.

(** How many readings of the clock a list of emissions takes. *)
Fixpoint stamps (es : list emission) : nat :=
  match es with
  | [] => 0
  | Sentinel :: rest => stamps rest
  | _ :: rest => S (stamps rest)
  end.

Definition emit (ctl : controller) (e : emission) : controller :=
  match e with
  | Content text => emitChunk clock id model (Some text) None ctl
  | Stop => emitChunk clock id model None (Some "stop") ctl
  | Sentinel => enqueue (Utf8.encode DONE_FRAME) ctl
  end.

End Render.

(** The [created] field of the chunk stamped with the [n]-th reading. *)
Definition created_at (clock : nat -> Z) (n : nat) : number :=
  floor (div_by (Date_now clock n) (inject_Z 1000)).

(** The model and the identifier the handler works with. *)
Definition requested_model (parsed : value) : value :=
  coalesce (get parsed "model") (VStr DEFAULT_MODEL).

Definition request_id (e : env) : string :=
  "chatcmpl-" ++ to_string (Date_now (clock e) 0) ++ "-" ++ random_suffix e.

(** A message the specification calls invalid: its content is not a
    string, or is blank once trimmed, or its role is missing. *)
Definition spec_invalid (message : value) : Prop :=
  (forall s, get message "content" <> VStr s)
  \/ (exists s, get message "content" = VStr s /\ trim s = EmptyString)
  \/ get message "role" = VUndefined.

(** A message with text in its content and a role that is not falsy. *)
Definition acceptable (message : value) : Prop :=
  exists s,
    get message "content" = VStr s
    /\ trim s <> EmptyString
    /\ truthy (get message "role") = true.

(** A backend that always answers [v]. *)
Definition constant_backend (v : value) : env :=
  {| AI_run := fun _ _ => Return v;
     clock := fun n => (1700000000123 + Z.of_nat n)%Z;
     random_suffix := "k3j9x2ab" |}.

(** The places where usage is looked for, in the order of the search. *)
Definition usage_locations (result : value) : list value :=
  [ result;
    get result "usage";
    get result "result";
    get (get result "result") "usage" ].

(** The usage of the first place that reports any, all zeros when none
    does. *)
Fixpoint first_reporting (locations : list value) : usage :=
  match locations with
  | [] => no_usage
  | place :: rest =>
      match usage_of_object place with
      | Some u => u
      | None => first_reporting rest
      end
  end.

(** The field names under which a token quantity is read. *)
Definition usage_keys : list string :=
  [ "prompt_tokens"; "input_tokens"; "promptTokens"; "inputTokens";
    "completion_tokens"; "output_tokens"; "completionTokens"; "outputTokens";
    "total_tokens"; "totalTokens" ].


(** Sample inputs. *)

(** A blank line: two line feeds, or two carriage-return line-feed pairs. *)
Definition blank_line (windows : bool) : string :=
  if windows then crlf ++ crlf else nl ++ nl.

(** The event whose data line carries the object with the single field
    [response], of value [tok], followed by a blank line. *)
Definition tok_event (windows : bool) : string :=
  dq "data: {'response':'tok'}" ++ blank_line windows.


(** A stream of one event in bytes and one ready-made text. *)
Definition sample_stream : stream :=
  {| chunks := [ChunkBytes (tok_event false); ChunkString "more"];
     failure := None |}.

(** A stream whose reads are all strings or bytes never makes the decoder
    throw. *)
Definition decodable (c : chunk) : bool :=
  match c with ChunkOther => false | _ => true end.

(** ** The rest of the worker *)

(** *** The bearer-token middleware *)

(** The bindings of the worker: the backend with its oracles, and the
    configured token, which may be missing. *)
Record bindings : Type := {
  AI : env;
  AUTH_TOKEN : option string
}.

(** What the middleware does with a request: hand it on ([await next()])
    or answer it itself. *)
Inductive gate : Type :=
| Next
| Deny (r : response).

Definition missing_token_response : response :=
  JsonResponse 500
    (VObj [("error", VStr "Server is missing AUTH_TOKEN configuration.")]).

Definition unauthorized_response : response :=
  JsonResponse 401 (VObj [("error", VStr "Unauthorized")]).

(** [isBearer && authHeader ? authHeader.slice(7).trim() : ''] *)
Definition requestToken (authHeader : option string) : string :=
  match authHeader with
  | Some h =>
      if (startsWith "Bearer " h && negb (is_empty h))%bool
      then trim (drop 7 h)
      else EmptyString
  | None => EmptyString
  end.

(** The callback of [app.use('*', ...)], on the configured token and the
    [Authorization] header of the request. *)
Definition authenticate (configured authHeader : option string) : gate :=
  match configured with
  | None => Deny missing_token_response
  | Some configuredToken =>
      if is_empty configuredToken then Deny missing_token_response
      else
        let token := requestToken authHeader in
        if (is_empty token || negb (String.eqb token configuredToken))%bool
        then Deny unauthorized_response
        else Next
  end.

(** A route handler behind the middleware. *)
Definition guarded (b : bindings) (authHeader : option string) (handler : reply)
  : reply :=
  match authenticate (AUTH_TOKEN b) authHeader with
  | Deny r => {| result := Return r; calls := [] |}
  | Next => handler
  end.

(** [POST /v1/chat/completions] as the application serves it. *)
Definition guardedChatCompletions (b : bindings) (authHeader : option string)
    (request_body : string) : reply :=
  guarded b authHeader (chatCompletions (AI b) request_body).

(** *** The earlier [POST /chat] handler *)

(** [body.system ? [{ role, content: body.system }] : []] *)
Definition optional_message (role : string) (content : value) : list value :=
  if truthy content
  then [VObj [("role", VStr role); ("content", content)]]
  else [].

(** The message list the handler sends: the [messages] of the body when
    that is a non-empty array, else what [system] and [prompt] give. *)
Definition legacy_messages (body : value) : list value :=
  match get body "messages" with
  | VArr (m :: rest) => m :: rest
  | _ =>
      (optional_message "system" (get body "system")
       ++ optional_message "user" (get body "prompt"))%list
  end.

Definition legacy_error (message : string) (code : Z) : response :=
  JsonResponse code (VObj [("error", VStr message)]).

Definition legacyChat (e : env) (request_body : string) : reply :=
  match JSON.parse request_body with
  | None =>
      {| calls := []; result := Return (legacy_error "Invalid JSON body." 400) |}
  | Some body =>
      match get_or_throw body "model" with
      | Throw err => {| calls := []; result := Throw err |}
      | Return requested =>
          let model := coalesce requested (VStr DEFAULT_MODEL) in
          match legacy_messages body with
          | [] =>
              {| calls := [];
                 result :=
                   Return (legacy_error
                             "Provide `prompt` or non-empty `messages`." 400) |}
          | messages =>
              let inputs := VObj [("messages", VArr messages)] in
              {| calls := [(model, inputs)];
                 result :=
                   Return
                     match AI_run e model inputs with
                     | Return answer =>
                         JsonResponse 200
                           (VObj [("model", model); ("result", answer)])
                     | Throw err =>
                         legacy_error
                           match err with
                           | ErrorObject _ m => m
                           | OtherThrown => "Workers AI call failed."
                           end 500
                     end |}
          end
      end
  end.

(** *** Vocabulary of the statements *)

(** A request that passes validation: its body parses, and its [messages]
    is a non-empty array with no invalid message. *)
Definition accepted_request (request : string) (parsed : value)
    (items : list value) : Prop :=
  JSON.parse request = Some parsed
  /\ get parsed "messages" = VArr items
  /\ items <> []
  /\ existsb invalid_message items = false.

(** The [chat.completion] object of the non-streaming answer. *)
Definition chat_completion (requestId : string) (model : value)
    (created : number) (content : string) (u : usage) : value :=
  VObj
    [ ("id", VStr requestId);
      ("object", VStr "chat.completion");
      ("created", VNum created);
      ("model", model);
      ("choices",
       VArr
         [ VObj
             [ ("index", VNum (of_Z 0));
               ("message",
                VObj [ ("role", VStr "assistant");
                       ("content", VStr content) ]);
               ("finish_reason", VStr "stop") ] ]);
      ("usage", usage_value u) ].

(** The message of the [catch] blocks. *)
Definition error_message (e : exn) : string :=
  match e with
  | ErrorObject _ m => m
  | OtherThrown => "Workers AI call failed."
  end.

(** A backend that throws. *)
Definition failing_backend (err : exn) : env :=
  {| AI_run := fun _ _ => Throw err;
     clock := fun n => (1700000000123 + Z.of_nat n)%Z;
     random_suffix := "k3j9x2ab" |}.

(** Whether a text starts with a white-space character, and whether its
    mirror image ends with one (the tests of [trimStart] and
    [trimStart_rev]). *)
Definition starts_ws (s : string) : bool :=
  match s with
  | EmptyString => false
  | String c1 r1 =>
      (ws1 c1
       || match r1 with
          | EmptyString => false
          | String c2 r2 =>
              ws2 c1 c2
              || match r2 with
                 | EmptyString => false
                 | String c3 _ => ws3 c1 c2 c3
                 end
          end)%bool
  end.

Definition starts_ws_rev (s : string) : bool :=
  match s with
  | EmptyString => false
  | String c1 r1 =>
      (ws1 c1
       || match r1 with
          | EmptyString => false
          | String c2 r2 =>
              ws2 c2 c1
              || match r2 with
                 | EmptyString => false
                 | String c3 _ => ws3 c3 c2 c1
                 end
          end)%bool
  end.

(** *** Classes of text *)

(** No line feed and no carriage return. *)
Fixpoint no_break (s : string) : bool :=
  match s with
  | EmptyString => true
  | String c r => (negb (Ascii.eqb c LF || Ascii.eqb c CR) && no_break r)%bool
  end.

(** Only bytes below 128. *)
Fixpoint ascii_only (s : string) : bool :=
  match s with
  | EmptyString => true
  | String c r => ((code c <? 128)%N && ascii_only r)%bool
  end.

(** The line [sseData] writes before the blank line. *)
Definition event_line (payload : value) : string :=
  "data: " ++ interpolate (JSON.stringify payload).

(** A content emission that carries text. *)
Definition carries_text (e : emission) : Prop :=
  match e with
  | Content text => text <> EmptyString
  | _ => False
  end.

(** A payload that is a string of bytes below 128, a boolean or
    [null]. *)
Definition scalar_payload (v : value) : Prop :=
  match v with
  | VStr t => ascii_only t = true
  | VBool _ | VNull => True
  | _ => False
  end.

(** *** Sample data of the statements below *)

Definition padded_token : string := " s3cret".

Definition sample_bindings : bindings :=
  {| AI := constant_backend (VObj [("response", VStr "hi")]);
     AUTH_TOKEN := Some "s3cret" |}.


(** Two events cut into three reads, with single line breaks only. *)
Definition unterminated_reads : list string :=
  [ dq "data: {'respon"; dq "se':'Hel'}" ++ nl; dq "data: {'response':'lo'}" ].

(** A text with a quote, a backslash, a line break and a blank line. *)
Definition awkward_text : string :=
  dq "say 'hi' \ now" ++ nl ++ nl ++ "data: [DONE]" ++ nl.

(** ** Properties *)

(** *** The runtime *)

Lemma stringify_defined (v : value) :
  v <> VUndefined -> exists s, JSON.stringify v = Some s.
Proof.
  destruct v as [| |b| | | | |]; intros H; try (eexists; reflexivity).
  - contradiction.
  - destruct b; eexists; reflexivity.
Qed.

Lemma get_or_throw_defined (v : value) (k : string) :
  is_nullish v = false -> get_or_throw v k = Return (get v k).
Proof. intros H. unfold get_or_throw. now rewrite H. Qed.

Lemma get_array_is_object (v : value) (k : string) (items : list value) :
  get v k = VArr items -> exists fields, v = VObj fields.
Proof. destruct v; simpl; intros H; try discriminate. now eexists. Qed.

(** *** Splitting text that arrives in pieces *)

Section SplitFacts.

Variable sep : string -> option nat.

Hypothesis sep_positive : forall s, sep s <> Some 0.

Hypothesis sep_stable :
  forall s n y, sep s = Some n -> sep (s ++ y) = Some n /\ n <= String.length s.

Hypothesis sep_not_late :
  forall c r y,
    sep (String c r) = None -> first_match sep r <> None ->
    sep (String c r ++ y) = None.

Lemma split_from_skip (s : string) (k : nat) (cur : string) :
  split_from sep s k cur = split_from sep (drop k s) 0 cur.
Proof.
  revert k. induction s as [|c r IH]; intros [|k]; try reflexivity.
  simpl. apply IH.
Qed.

Lemma split_from_nonempty (s : string) (k : nat) (cur : string) :
  split_from sep s k cur <> [].
Proof.
  revert k cur. induction s as [|c r IH]; intros k cur; simpl.
  - discriminate.
  - destruct k; [|apply IH].
    destruct (sep (String c r)) as [[|n]|]; try apply IH. discriminate.
Qed.

Lemma split_no_match (x cur : string) :
  first_match sep x = None ->
  split_from sep x 0 cur = [rev_append cur x].
Proof.
  revert cur. induction x as [|c r IH]; intros cur H.
  - reflexivity.
  - simpl in H |- *.
    destruct (sep (String c r)) as [[|n]|] eqn:E; try discriminate;
      (destruct (first_match sep r); [discriminate|]); now rewrite IH.
Qed.

Lemma split_first_match (x : string) (q : nat) :
  first_match sep x = Some q ->
  exists n,
    sep (drop q x) = Some (S n)
    /\ q <= String.length x
    /\ forall cur,
         split_from sep x 0 cur
         = rev_append cur (take q x) :: split_from sep (drop (q + S n) x) 0 EmptyString.
Proof.
  revert q. induction x as [|c r IH]; intros q H.
  - discriminate.
  - simpl in H.
    destruct (sep (String c r)) as [[|n]|] eqn:E.
    + now destruct (sep_positive (String c r)).
    + inversion H; subst. exists n. split; [exact E|]. split; [simpl; lia|].
      intros cur. simpl. rewrite E. now rewrite split_from_skip.
    + destruct (first_match sep r) as [q'|] eqn:F; [|discriminate].
      inversion H; subst. destruct (IH q' eq_refl) as [n [Hn [Hq Hsplit]]].
      exists n. split; [exact Hn|]. split; [simpl; lia|].
      intros cur. simpl. rewrite E. now rewrite Hsplit.
Qed.

Lemma first_match_app (x y : string) (q : nat) :
  first_match sep x = Some q -> first_match sep (x ++ y) = Some q.
Proof.
  revert q. induction x as [|c r IH]; intros q H.
  - discriminate.
  - simpl in H. change (String c r ++ y) with (String c (r ++ y)). simpl.
    destruct (sep (String c r)) as [[|n]|] eqn:E.
    + now destruct (sep_positive (String c r)).
    + destruct (sep_stable _ _ y E) as [E' _].
      change (String c r ++ y) with (String c (r ++ y)) in E'. now rewrite E'.
    + destruct (first_match sep r) as [q'|] eqn:F; [|discriminate].
      assert (E' : sep (String c r ++ y) = None)
        by (apply sep_not_late; [exact E | congruence]).
      change (String c r ++ y) with (String c (r ++ y)) in E'. rewrite E'.
      now rewrite (IH q' eq_refl).
Qed.

Lemma take_app (q : nat) (x y : string) :
  q <= String.length x -> take q (x ++ y) = take q x.
Proof.
  revert x. induction q as [|q IH]; intros [|c r] H; simpl in *; try reflexivity.
  - lia.
  - f_equal. apply IH. lia.
Qed.

Lemma drop_app (q : nat) (x y : string) :
  q <= String.length x -> drop q (x ++ y) = drop q x ++ y.
Proof.
  revert x. induction q as [|q IH]; intros [|c r] H; simpl in *; try reflexivity.
  - lia.
  - apply IH. lia.
Qed.

Lemma drop_length (q : nat) (x : string) :
  String.length (drop q x) = String.length x - q.
Proof.
  revert x. induction q as [|q IH]; intros [|c r]; simpl; try reflexivity.
  apply IH.
Qed.

Lemma pop_cons (h : string) (l : list string) :
  l <> [] -> pop (h :: l) = (h :: fst (pop l), snd (pop l)).
Proof.
  destruct l as [|x rest]; [congruence|]. intros _.
  change (pop (h :: x :: rest))
    with (let (front, last) := pop (x :: rest) in (h :: front, last)).
  now destruct (pop (x :: rest)).
Qed.

(** Splitting the whole text at once, or splitting a first piece and then
    what it left followed by the rest, cuts the same events and leaves the
    same remainder. *)
Lemma split_app_bounded (n : nat) (x y : string) :
  String.length x <= n ->
  pop (split sep (x ++ y))
  = ((fst (pop (split sep x)) ++ fst (pop (split sep (remainder sep x ++ y))))%list,
     snd (pop (split sep (remainder sep x ++ y)))).
Proof.
  revert x. induction n as [|n IH]; intros x Hlen.
  - destruct x; [|simpl in Hlen; lia]. simpl.
    now destruct (pop (split sep y)).
  - destruct (first_match sep x) as [q|] eqn:F.
    + destruct (split_first_match x q F) as [k [Hk [Hq Hx]]].
      pose proof (first_match_app x y q F) as F'.
      destruct (split_first_match (x ++ y) q F') as [k' [Hk' [_ Hxy]]].
      destruct (sep_stable _ _ y Hk) as [Hs Hle].
      rewrite drop_app in Hk' by exact Hq.
      assert (k' = k) by congruence. subst k'.
      rewrite drop_length in Hle.
      unfold remainder, split. rewrite Hx, Hxy.
      rewrite take_app by exact Hq.
      rewrite drop_app by lia.
      rewrite !pop_cons by apply split_from_nonempty.
      cbn [fst snd rev_append].
      assert (Hshort : String.length (drop (q + S k) x) <= n)
        by (rewrite drop_length; lia).
      pose proof (IH _ Hshort) as Hrec. unfold remainder, split in Hrec.
      rewrite Hrec. reflexivity.
    + unfold remainder, split. rewrite (split_no_match x EmptyString F).
      cbn [pop fst snd rev_append app].
      now destruct (pop (split_from sep (x ++ y) 0 EmptyString)).
Qed.

Lemma split_app (x y : string) :
  pop (split sep (x ++ y))
  = ((fst (pop (split sep x)) ++ fst (pop (split sep (remainder sep x ++ y))))%list,
     snd (pop (split sep (remainder sep x ++ y)))).
Proof. apply (split_app_bounded (String.length x)). lia. Qed.

End SplitFacts.

Lemma sep_line_stable (s : string) (n : nat) (y : string) :
  sep_line s = Some n ->
  sep_line (s ++ y) = Some n /\ n <= String.length s /\ 1 <= n.
Proof.
  destruct s as [|c1 [|c2 r]]; cbn [sep_line append String.length];
    try discriminate.
  - destruct (Ascii.eqb c1 LF).
    + intros H; inversion H; subst; repeat split; lia.
    + destruct (Ascii.eqb c1 CR); discriminate.
  - destruct (Ascii.eqb c1 LF).
    + intros H; inversion H; subst; repeat split; lia.
    + destruct (Ascii.eqb c1 CR); [|discriminate].
      destruct (Ascii.eqb c2 LF); [|discriminate].
      intros H; inversion H; subst; repeat split; lia.
Qed.

Lemma sep_blank_some (s : string) (k : nat) :
  sep_blank s = Some k ->
  exists n m, sep_line s = Some n /\ sep_line (drop n s) = Some m /\ k = n + m.
Proof.
  unfold sep_blank. destruct (sep_line s) as [n|] eqn:Hn; [|discriminate].
  destruct (sep_line (drop n s)) as [m|] eqn:Hm; [|discriminate].
  intros H. inversion H. exists n, m. repeat split. exact Hm.
Qed.

Lemma sep_blank_positive (s : string) : sep_blank s <> Some 0.
Proof.
  intros H. destruct (sep_blank_some s 0 H) as [n [m [Hn [Hm Hk]]]].
  destruct (sep_line_stable s n EmptyString Hn) as [_ [_ Hpos]]. lia.
Qed.

Lemma sep_blank_stable (s : string) (k : nat) (y : string) :
  sep_blank s = Some k ->
  sep_blank (s ++ y) = Some k /\ k <= String.length s.
Proof.
  intros H. destruct (sep_blank_some s k H) as [n [m [Hn [Hm Hk]]]]. subst k.
  destruct (sep_line_stable s n y Hn) as [Hn' [Hle _]].
  destruct (sep_line_stable (drop n s) m y Hm) as [Hm' [Hle' _]].
  rewrite drop_length in Hle'.
  unfold sep_blank. rewrite Hn', (drop_app n s y Hle), Hm'.
  split; [reflexivity | lia].
Qed.

Lemma sep_line_inv (s : string) (n : nat) :
  sep_line s = Some n ->
  (exists r, s = String LF r /\ n = 1)
  \/ (exists r, s = String CR (String LF r) /\ n = 2).
Proof.
  destruct s as [|c1 r1]; cbn [sep_line]; [discriminate|].
  destruct (Ascii.eqb c1 LF) eqn:E1.
  - apply Ascii.eqb_eq in E1. subst c1. intros H. inversion H. left. eauto.
  - destruct (Ascii.eqb c1 CR) eqn:E2; [|discriminate].
    apply Ascii.eqb_eq in E2. subst c1.
    destruct r1 as [|c2 r2]; [discriminate|].
    destruct (Ascii.eqb c2 LF) eqn:E3; [|discriminate].
    apply Ascii.eqb_eq in E3. subst c2. intros H. inversion H. right. eauto.
Qed.

(** An equation between a text that starts with a known character and
    another such text gives the equality of the characters. *)
Ltac head_equation :=
  match goal with
  | E : String _ _ ++ _ = String _ _ |- _ =>
      cbn [append] in E; injection E as ? ?; subst
  end.

(** A position at which the separator does not match inside a text, and
    after which it does match, does not start to match when more text is
    appended: what is missing for a match there is not at the end. *)
Lemma sep_blank_not_late (c : ascii) (r y : string) :
  sep_blank (String c r) = None ->
  first_match sep_blank r <> None ->
  sep_blank (String c r ++ y) = None.
Proof.
  intros H F.
  destruct (sep_blank (String c r ++ y)) as [k|] eqn:E; [exfalso|reflexivity].
  change (String c r ++ y) with (String c (r ++ y)) in E.
  destruct (sep_blank_some _ _ E) as [n [m [Hn [Hm _]]]]. clear E.
  destruct (sep_line_inv _ _ Hn) as [[t [Ht ->]] | [t [Ht ->]]];
    inversion Ht; subst; clear Ht Hn; cbn [drop] in Hm.
  - (* a line feed, then a line break at the start of [r ++ y] *)
    destruct r as [|r1 r']; [exact (F eq_refl)|].
    change (String r1 r' ++ y) with (String r1 (r' ++ y)) in Hm.
    destruct (sep_line_inv _ _ Hm) as [[u [Hu _]] | [u [Hu _]]];
      inversion Hu; subst; clear Hu Hm.
    + vm_compute in H; discriminate H.
    + destruct r' as [|r2 r'']; [exact (F eq_refl)|].
      head_equation.
      vm_compute in H; discriminate H.
  - (* a carriage return and a line feed, then a line break *)
    destruct r as [|r1 r']; [exact (F eq_refl)|].
    head_equation. cbn [append] in Hm.
    destruct r' as [|r2 r'']; [exact (F eq_refl)|].
    change (String r2 r'' ++ y) with (String r2 (r'' ++ y)) in Hm.
    destruct (sep_line_inv _ _ Hm) as [[u [Hu _]] | [u [Hu _]]];
      inversion Hu; subst; clear Hu Hm.
    + vm_compute in H; discriminate H.
    + destruct r'' as [|r3 r3']; [exact (F eq_refl)|].
      head_equation.
      vm_compute in H; discriminate H.
Qed.

Lemma string_app_assoc (a b c : string) : (a ++ b) ++ c = a ++ b ++ c.
Proof. induction a as [|x r IH]; simpl; congruence. Qed.

(** *** Reads of bytes below 128

    On such bytes the decoder has no character in progress and gives the
    text back as it is, so a text may be cut into reads anywhere. *)

Lemma append_empty_r (s : string) : s ++ EmptyString = s.
Proof. induction s as [|c r IH]; simpl; congruence. Qed.

Lemma concat_cons (x : string) (xs : list string) :
  String.concat EmptyString (x :: xs) = x ++ String.concat EmptyString xs.
Proof.
  destruct xs as [|y ys].
  - cbn [String.concat]. now rewrite append_empty_r.
  - reflexivity.
Qed.

Lemma ascii_only_app (a b : string) :
  ascii_only (a ++ b) = (ascii_only a && ascii_only b)%bool.
Proof.
  induction a as [|c r IH]; [reflexivity|].
  cbn [append ascii_only]. rewrite IH. now rewrite andb_assoc.
Qed.

Lemma ascii_only_head (c : ascii) (r : string) :
  ascii_only (String c r) = true -> (code c < 128)%N /\ ascii_only r = true.
Proof.
  cbn [ascii_only]. intros H. apply andb_true_iff in H. destruct H as [H1 H2].
  apply N.ltb_lt in H1. now split.
Qed.

Lemma concat_ascii (parts : list string) :
  Forall (fun p => ascii_only p = true) parts ->
  ascii_only (String.concat EmptyString parts) = true.
Proof.
  induction 1 as [|p rest Hp _ IH]; [reflexivity|].
  now rewrite concat_cons, ascii_only_app, Hp, IH.
Qed.

Lemma concat_ascii_parts (parts : list string) :
  ascii_only (String.concat EmptyString parts) = true ->
  Forall (fun p => ascii_only p = true) parts.
Proof.
  induction parts as [|p rest IH]; intros H; [constructor|].
  rewrite concat_cons, ascii_only_app in H.
  apply andb_true_iff in H. destruct H as [Hp Hrest].
  constructor; [exact Hp | now apply IH].
Qed.

(** One byte below 128, met between two characters, is one character. *)
Lemma step_ascii (d : Utf8.decoder) (b : ascii) :
  Utf8.needed d = 0 -> (code b < 128)%N ->
  Utf8.step d b = (String b EmptyString, Utf8.started (Utf8.idle d)).
Proof.
  intros Hd Hb. unfold Utf8.step. rewrite Hd. unfold Utf8.lead.
  apply N.ltb_lt in Hb. rewrite Hb. unfold Utf8.emit.
  replace (String.eqb (String b EmptyString) (Utf8.encode_point 65279))
    with false; [now rewrite andb_false_r|].
  change (Utf8.encode_point 65279)
    with (String (Utf8.byte 239) (String (Utf8.byte 187)
            (String (Utf8.byte 191) EmptyString))).
  cbn [String.eqb]. now destruct (Ascii.eqb b (Utf8.byte 239)).
Qed.

Lemma decode_ascii_state (s : string) (d : Utf8.decoder) :
  Utf8.needed d = 0 -> ascii_only s = true ->
  Utf8.decode d s
  = (s, if is_empty s then d else Utf8.started (Utf8.idle d)).
Proof.
  revert d. induction s as [|b r IH]; intros d Hd H; [reflexivity|].
  destruct (ascii_only_head b r H) as [Hb Hr].
  cbn [Utf8.decode]. rewrite (step_ascii d b Hd Hb).
  rewrite (IH (Utf8.started (Utf8.idle d)) eq_refl Hr).
  destruct r; reflexivity.
Qed.

Lemma decode_ascii (s : string) (d : Utf8.decoder) :
  Utf8.needed d = 0 -> ascii_only s = true ->
  exists d', Utf8.decode d s = (s, d') /\ Utf8.needed d' = 0.
Proof.
  intros Hd H. rewrite (decode_ascii_state s d Hd H).
  eexists. split; [reflexivity|]. now destruct s.
Qed.

(** Two reads of such bytes are decoded as the single read of both. *)
Lemma decode_ascii_app (d : Utf8.decoder) (a b : string) :
  Utf8.needed d = 0 -> ascii_only a = true -> ascii_only b = true ->
  Utf8.decode d (a ++ b)
  = let (t1, d1) := Utf8.decode d a in
    let (t2, d2) := Utf8.decode d1 b in
    (t1 ++ t2, d2).
Proof.
  intros Hd Ha Hb.
  assert (Hab : ascii_only (a ++ b) = true) by now rewrite ascii_only_app, Ha, Hb.
  rewrite (decode_ascii_state (a ++ b) d Hd Hab).
  rewrite (decode_ascii_state a d Hd Ha). cbv beta iota.
  assert (Hd1 : Utf8.needed (if is_empty a then d
                             else Utf8.started (Utf8.idle d)) = 0)
    by now destruct a.
  rewrite (decode_ascii_state b _ Hd1 Hb).
  destruct a as [|x a']; [reflexivity|].
  destruct b as [|y b']; reflexivity.
Qed.

Lemma extractTextCandidates_object (fields : list (string * value)) :
  extractTextCandidates (VObj fields)
  = flat_map (fun key => extractTextCandidates (lookup key fields)) candidate_keys.
Proof.
  assert (R : forall key,
    (fix read (fs : list (string * value)) : list string :=
       match fs with
       | [] => []
       | (k, x) :: rest =>
           if String.eqb key k then extractTextCandidates x else read rest
       end) fields = extractTextCandidates (lookup key fields)).
  { intros key. induction fields as [|[k x] rest IH]; simpl.
    - reflexivity.
    - destruct (String.eqb key k); [reflexivity | exact IH]. }
  unfold candidate_keys. cbn [flat_map]. rewrite <- !R. reflexivity.
Qed.

(** *** The controller *)

Section ControllerFacts.

Variable clock : nat -> Z.
Variable id : string.
Variable model : value.

Lemma emit_all_spec (es : list emission) (c : controller) :
  fold_left (emit clock id model) es c
  = {| queue := (queue c ++ render clock id model (ticks c) es)%list;
       ticks := ticks c + stamps es |}.
Proof.
  revert c. induction es as [|e rest IH]; intros [q n]; simpl.
  - now rewrite app_nil_r, Nat.add_0_r.
  - rewrite IH. destruct e; simpl; rewrite <- app_assoc; simpl;
      f_equal; lia.
Qed.

Lemma emitContent_spec (c : controller) (text : string) :
  emitContent clock id model c text
  = fold_left (emit clock id model) (content_of text) c.
Proof. unfold emitContent, content_of. now destruct (is_empty text). Qed.

Lemma fold_emit_flat_map {A : Type} (f : controller -> A -> controller)
    (g : A -> list emission) (xs : list A) (c : controller) :
  (forall c x, f c x = fold_left (emit clock id model) (g x) c) ->
  fold_left f xs c = fold_left (emit clock id model) (flat_map g xs) c.
Proof.
  intros H. revert c. induction xs as [|x rest IH]; intros c; simpl.
  - reflexivity.
  - now rewrite fold_left_app, <- H, IH.
Qed.

Lemma handle_line_spec (c : controller) (line : string) :
  handle_line clock id model c line
  = fold_left (emit clock id model) (line_emissions line) c.
Proof.
  unfold handle_line, line_emissions.
  destruct (is_empty (trim (drop 5 line)) || String.eqb (trim (drop 5 line)) "[DONE]")%bool.
  - reflexivity.
  - destruct (JSON.parse (trim (drop 5 line))).
    + apply fold_emit_flat_map, emitContent_spec.
    + apply emitContent_spec.
Qed.

Lemma handle_part_spec (c : controller) (part : string) :
  handle_part clock id model c part
  = fold_left (emit clock id model) (part_emissions part) c.
Proof.
  unfold handle_part, part_emissions.
  destruct (data_lines part).
  - apply fold_emit_flat_map, emitContent_spec.
  - apply fold_emit_flat_map, handle_line_spec.
Qed.

(** The loop over the reads: the controller receives [reads_emissions],
    and the buffer and the exception are the ones computed there. *)
Lemma read_all_spec (cs : list chunk) (r : reading) :
  let '(es, buf, err) := reads_emissions cs (buffer r) (decoder r) in
  ctl (fst (read_all clock id model cs r))
  = fold_left (emit clock id model) es (ctl r)
  /\ buffer (fst (read_all clock id model cs r)) = buf
  /\ snd (read_all clock id model cs r) = err.
Proof.
  revert r. induction cs as [|c rest IH]; intros [buf d ct].
  - cbn. repeat split.
  - destruct c as [v|bytes|];
      cbn [read_all reads_emissions handle_read read_emissions
           buffer decoder ctl].
    + specialize (IH {| buffer := buf; decoder := d;
                        ctl := emitContent clock id model ct v |}).
      cbn [buffer decoder ctl] in IH.
      destruct (reads_emissions rest buf d) as [[more final] err].
      rewrite fold_left_app, <- emitContent_spec. exact IH.
    + destruct (Utf8.decode d bytes) as [text d'].
      destruct (pop (split sep_blank (buf ++ text))) as [parts last].
      cbv beta iota.
      match goal with
      | |- context [read_all clock id model rest ?r'] => specialize (IH r')
      end.
      cbn [buffer decoder ctl] in IH.
      destruct (reads_emissions rest _ d') as [[more final] err].
      rewrite fold_left_app.
      rewrite <- (fold_emit_flat_map (handle_part clock id model) part_emissions)
        by apply handle_part_spec.
      exact IH.
    + cbn. repeat split.
Qed.

End ControllerFacts.

(** *** The normalizer *)

(** The output of the normalizer is the rendering of [emissions]. *)
Lemma normalizer_renders_emissions (clock : nat -> Z) (id : string)
    (model : value) (s : stream) (tick0 : nat) :
  toOpenAiSseFromAiStream clock id model s tick0
  = {| frames := render clock id model tick0 (fst (emissions s));
       ending := snd (emissions s) |}.
Proof.
  unfold toOpenAiSseFromAiStream, normalize, emissions.
  pose proof (read_all_spec clock id model (chunks s)
                {| buffer := EmptyString; decoder := Utf8.fresh;
                   ctl := {| queue := []; ticks := tick0 |} |}) as H.
  cbn [buffer decoder ctl] in H.
  destruct (reads_emissions (chunks s) EmptyString Utf8.fresh) as [[es buf] err].
  destruct (read_all clock id model (chunks s) _) as [r err'].
  cbn [fst snd] in H. destruct H as [Hctl [Hbuf ->]].
  destruct err as [e|].
  - rewrite Hctl, emit_all_spec. reflexivity.
  - destruct (failure s) as [e|].
    + rewrite Hctl, emit_all_spec. reflexivity.
    + unfold finish, flush_emissions. rewrite Hctl, Hbuf. cbn [fst snd].
      change (enqueue (Utf8.encode DONE_FRAME)
                (emitChunk clock id model None (Some "stop") ?c))
        with (fold_left (emit clock id model) [Stop; Sentinel] c).
      destruct (is_empty (trim buf)).
      * rewrite <- fold_left_app, emit_all_spec. reflexivity.
      * rewrite (fold_emit_flat_map clock id model (emitContent clock id model) content_of)
          by apply emitContent_spec.
        rewrite <- !fold_left_app, emit_all_spec. reflexivity.
Qed.

Lemma split_blank_app (x y : string) :
  pop (split sep_blank (x ++ y))
  = ((fst (pop (split sep_blank x))
        ++ fst (pop (split sep_blank (remainder sep_blank x ++ y))))%list,
     snd (pop (split sep_blank (remainder sep_blank x ++ y)))).
Proof.
  apply split_app.
  - exact sep_blank_positive.
  - exact sep_blank_stable.
  - exact sep_blank_not_late.
Qed.

(** Two reads of bytes below 128 emit what the single read of their
    concatenation emits, and leave the same buffer and decoder. *)
Lemma reads_emissions_merge (a b : string) (rest : list chunk) (buf : string)
    (d : Utf8.decoder) :
  Utf8.needed d = 0 -> ascii_only a = true -> ascii_only b = true ->
  reads_emissions (ChunkBytes a :: ChunkBytes b :: rest) buf d
  = reads_emissions (ChunkBytes (a ++ b) :: rest) buf d.
Proof.
  intros Hd Ha Hb.
  cbn [reads_emissions read_emissions]. rewrite (decode_ascii_app d a b Hd Ha Hb).
  destruct (Utf8.decode d a) as [t1 d1]. cbv beta iota.
  destruct (pop (split sep_blank (buf ++ t1))) as [p1 l1] eqn:E1. cbv beta iota.
  destruct (Utf8.decode d1 b) as [t2 d2]. cbv beta iota.
  rewrite <- string_app_assoc, (split_blank_app (buf ++ t1) t2).
  unfold remainder. rewrite E1. cbn [fst snd].
  destruct (pop (split sep_blank
                   (match l1 with Some b0 => b0 | None => EmptyString end ++ t2)))
    as [p2 l2]. cbv beta iota. cbn [fst snd].
  destruct (reads_emissions rest
              match l2 with Some b0 => b0 | None => EmptyString end d2)
    as [[more final] err].
  rewrite flat_map_app, app_assoc. reflexivity.
Qed.

Lemma reads_emissions_joined (cs : list string) (rest : list chunk) (buf : string)
    (d : Utf8.decoder) :
  Utf8.needed d = 0 ->
  Forall (fun c => ascii_only c = true) cs ->
  cs <> [] ->
  reads_emissions (map ChunkBytes cs ++ rest) buf d
  = reads_emissions (ChunkBytes (String.concat EmptyString cs) :: rest) buf d.
Proof.
  intros Hd Hcs. revert buf d Hd.
  induction Hcs as [|a more Ha Hmore IH]; intros buf d Hd Hne; [congruence|].
  destruct more as [|b more]; [reflexivity|].
  change (map ChunkBytes (a :: b :: more) ++ rest)%list
    with (ChunkBytes a :: (map ChunkBytes (b :: more) ++ rest))%list.
  change (String.concat EmptyString (a :: b :: more))
    with (a ++ String.concat EmptyString (b :: more)).
  rewrite <- (reads_emissions_merge a _ rest buf d Hd Ha (concat_ascii _ Hmore)).
  cbn [reads_emissions read_emissions].
  destruct (decode_ascii a d Hd Ha) as [d' [-> Hd']]. cbv beta iota.
  destruct (pop (split sep_blank (buf ++ a))) as [parts last]. cbv beta iota.
  rewrite (IH _ d' Hd') by discriminate. reflexivity.
Qed.

(** Reads whose bytes are all below 128 may be taken as one read. *)
Lemma emissions_joined (cs : list string) :
  cs <> [] ->
  ascii_only (String.concat EmptyString cs) = true ->
  emissions {| chunks := map ChunkBytes cs; failure := None |}
  = emissions {| chunks := [ChunkBytes (String.concat EmptyString cs)];
                 failure := None |}.
Proof.
  intros Hne Ha. unfold emissions. cbn [chunks failure].
  pose proof (reads_emissions_joined cs [] EmptyString Utf8.fresh eq_refl
                (concat_ascii_parts cs Ha) Hne) as H.
  rewrite app_nil_r in H. now rewrite H.
Qed.






(** The clock enters a frame through the [created] field only. *)
Lemma chunk_frame_created (clock1 clock2 : nat -> Z) (id : string)
    (model : value) (content finishReason : option string) (n m : nat) :
  created_at clock1 n = created_at clock2 m ->
  chunk_frame clock1 id model content finishReason n
  = chunk_frame clock2 id model content finishReason m.
Proof.
  intros H. unfold chunk_frame, createChunkPayload.
  change (floor (div_by (Date_now clock1 n) (inject_Z 1000)))
    with (created_at clock1 n).
  change (floor (div_by (Date_now clock2 m) (inject_Z 1000)))
    with (created_at clock2 m).
  now rewrite H.
Qed.

Lemma render_created (clock1 clock2 : nat -> Z) (id : string) (model : value)
    (es : list emission) (n : nat) :
  (forall k, created_at clock1 k = created_at clock2 k) ->
  render clock1 id model n es = render clock2 id model n es.
Proof.
  intros H. revert n. induction es as [|e rest IH]; intros n; simpl.
  - reflexivity.
  - destruct e; rewrite ?IH; f_equal; now apply chunk_frame_created.
Qed.

Lemma render_length (clock : nat -> Z) (id : string) (model : value)
    (es : list emission) (n : nat) :
  length (render clock id model n es) = length es.
Proof.
  revert n. induction es as [|e rest IH]; intros n; simpl.
  - reflexivity.
  - destruct e; simpl; now rewrite IH.
Qed.

Lemma render_app (clock : nat -> Z) (id : string) (model : value)
    (es es' : list emission) (n : nat) :
  render clock id model n (es ++ es')
  = (render clock id model n es ++ render clock id model (n + stamps es) es')%list.
Proof.
  revert n. induction es as [|e rest IH]; intros n.
  - cbn [app render stamps]. now rewrite Nat.add_0_r.
  - destruct e; cbn [app render stamps]; rewrite IH;
      rewrite <- ?Nat.add_succ_comm; reflexivity.
Qed.


(** The sentinel is ASCII: encoding leaves it as it is. *)
Lemma encode_DONE_FRAME : Utf8.encode DONE_FRAME = DONE_FRAME.
Proof. reflexivity. Qed.

(** C9. Two passes of the normalizer over the same backend stream, with
    the same identifier and model, under two clocks: both outputs are the
    rendering of one and the same list of emissions (content texts in
    order, stop chunk, sentinel), which is computed from the stream alone;
    they end the same way and have the same number of frames; and when the
    two clocks give the same [created] stamps the two outputs are equal
    byte for byte.  So the outputs differ in the [created] fields at
    most. *)
Theorem C9_normalizer_deterministic_up_to_created :
  forall (clock1 clock2 : nat -> Z) (id : string) (model : value)
         (s : stream) (tick0 : nat),
    let out1 := toOpenAiSseFromAiStream clock1 id model s tick0 in
    let out2 := toOpenAiSseFromAiStream clock2 id model s tick0 in
    frames out1 = render clock1 id model tick0 (fst (emissions s))
    /\ frames out2 = render clock2 id model tick0 (fst (emissions s))
    /\ ending out1 = ending out2
    /\ length (frames out1) = length (frames out2)
    /\ ((forall k, created_at clock1 k = created_at clock2 k) -> out1 = out2).
Proof.
  intros clock1 clock2 id model s tick0 out1 out2. subst out1 out2.
  rewrite !normalizer_renders_emissions. cbn [frames ending].
  repeat split.
  - now rewrite !render_length.
  - intros H. now rewrite (render_created clock1 clock2) by exact H.
Qed.

Lemma C9_witness :
  (forall k, created_at (fun _ => 1000%Z) k = created_at (fun _ => 1999%Z) k)
  /\ toOpenAiSseFromAiStream (fun _ => 1000%Z) "id" (VStr "m") sample_stream 0
     = toOpenAiSseFromAiStream (fun _ => 1999%Z) "id" (VStr "m") sample_stream 0.
Proof.
  assert (H : forall k, created_at (fun _ => 1000%Z) k
                        = created_at (fun _ => 1999%Z) k)
    by (intros k; reflexivity).
  split; [exact H|].
  exact (proj2 (proj2 (proj2 (proj2
           (C9_normalizer_deterministic_up_to_created
              (fun _ => 1000%Z) (fun _ => 1999%Z) "id" (VStr "m")
              sample_stream 0)))) H).
Defined.







Lemma reads_emissions_decodable (cs : list chunk) (buf : string) (d : Utf8.decoder) :
  forallb decodable cs = true ->
  snd (reads_emissions cs buf d) = None.
Proof.
  revert buf d. induction cs as [|c rest IH]; intros buf d H; simpl in *.
  - reflexivity.
  - apply andb_true_iff in H. destruct H as [Hc Hrest].
    destruct c as [v|bytes|]; simpl; try discriminate.
    + specialize (IH buf d Hrest).
      destruct (reads_emissions rest buf d) as [[more final] err]. exact IH.
    + destruct (Utf8.decode d bytes) as [text d'].
      destruct (pop (split sep_blank (buf ++ text))) as [parts last].
      match goal with
      | |- context [reads_emissions rest ?b d'] =>
          specialize (IH b d' Hrest); destruct (reads_emissions rest b d') as [[more final] err]
      end.
      exact IH.
Qed.




(** *** The handler *)

Lemma invalid_message_content (message : value) :
  invalid_message message
  = match get message "content" with
    | VStr content =>
        (is_empty (trim content) || negb (truthy (get message "role")))%bool
    | _ => true
    end.
Proof. unfold invalid_message. now destruct message. Qed.

Lemma is_empty_true (s : string) : is_empty s = true <-> s = EmptyString.
Proof. destruct s; simpl; split; congruence. Qed.

Lemma spec_invalid_rejected (message : value) :
  spec_invalid message -> invalid_message message = true.
Proof.
  rewrite invalid_message_content.
  intros [H | [[s [Hs Hblank]] | H]].
  - destruct (get message "content"); try reflexivity. now destruct (H s).
  - rewrite Hs, Hblank. reflexivity.
  - rewrite H. destruct (get message "content"); try reflexivity.
    apply orb_true_r.
Qed.

Lemma acceptable_accepted (message : value) :
  acceptable message -> invalid_message message = false.
Proof.
  rewrite invalid_message_content. intros [s [Hs [Htext Hrole]]].
  rewrite Hs, Hrole. destruct (is_empty (trim s)) eqn:E.
  - apply is_empty_true in E. contradiction.
  - reflexivity.
Qed.

(** The handler once the body has parsed to a value with a [messages]
    array. *)
Lemma chatCompletions_parsed (e : env) (request : string) (parsed : value)
    (items : list value) :
  JSON.parse request = Some parsed ->
  get parsed "messages" = VArr items ->
  chatCompletions e request
  = match items with
    | [] =>
        {| calls := [];
           result :=
             Return (error_response
                       (createOpenAIError
                          "`messages` must be a non-empty array." None)) |}
    | _ =>
        if existsb invalid_message items then
          {| calls := [];
             result :=
               Return (error_response
                         (createOpenAIError
                            "Each message must include string `role` and non-empty string `content`."
                            None)) |}
        else if truthy (get parsed "stream")
        then respond_streaming e (request_id e) (requested_model parsed) items
        else respond_once e (request_id e) (requested_model parsed) items
    end.
Proof.
  intros Hparse Hmessages.
  destruct (get_array_is_object _ _ _ Hmessages) as [fields ->].
  unfold chatCompletions. rewrite Hparse.
  change (get_or_throw (VObj fields) "model")
    with (Return (get (VObj fields) "model")).
  cbv iota. rewrite Hmessages. reflexivity.
Qed.

(** C6. A request whose body parses and whose [messages] array is empty,
    or holds a message whose content is not a string, or is blank once
    trimmed (three spaces, say), or whose role is missing, is answered
    with status 400 and an error object of type [invalid_request_error],
    whatever the other fields of the body are; and the backend has not
    been called. *)
Theorem C6_invalid_messages_rejected_before_backend :
  forall (e : env) (request : string) (parsed : value) (items : list value),
    JSON.parse request = Some parsed ->
    get parsed "messages" = VArr items ->
    items = [] \/ Exists spec_invalid items ->
    calls (chatCompletions e request) = []
    /\ exists message,
         result (chatCompletions e request)
         = Return
             (JsonResponse 400
                (VObj
                   [ ("error",
                      VObj
                        [ ("message", VStr message);
                          ("type", VStr "invalid_request_error");
                          ("param", VNull);
                          ("code", VNull) ]) ])).
Proof.
  intros e request parsed items Hparse Hmessages Hbad.
  rewrite (chatCompletions_parsed e request parsed items Hparse Hmessages).
  destruct items as [|m rest].
  - split; [reflexivity | eexists; reflexivity].
  - destruct Hbad as [Hnil | Hex]; [discriminate|].
    assert (Hsome : existsb invalid_message (m :: rest) = true).
    { apply existsb_exists. apply Exists_exists in Hex.
      destruct Hex as [x [Hin Hx]]. exists x. split; [exact Hin|].
      now apply spec_invalid_rejected. }
    rewrite Hsome. split; [reflexivity | eexists; reflexivity].
Qed.

Lemma C6_witness :
  calls (chatCompletions (constant_backend (VObj [("response", VStr "hi")]))
           (dq "{'model':'m','stream':true,'messages':[{'role':'user','content':'   '}]}"))
  = []
  /\ calls (chatCompletions (constant_backend (VObj [("response", VStr "hi")]))
              (dq "{'stream':true,'messages':[]}"))
     = [].
Proof.
  split.
  - refine (proj1 (C6_invalid_messages_rejected_before_backend
                     (constant_backend (VObj [("response", VStr "hi")]))
                     (dq "{'model':'m','stream':true,'messages':[{'role':'user','content':'   '}]}")
                     (VObj [("model", VStr "m"); ("stream", VBool true);
                            ("messages",
                             VArr [VObj [("role", VStr "user");
                                         ("content", VStr "   ")]])])
                     [VObj [("role", VStr "user"); ("content", VStr "   ")]]
                     _ _ _)).
    + reflexivity.
    + reflexivity.
    + right. constructor. right. left. exists "   ". split; reflexivity.
  - refine (proj1 (C6_invalid_messages_rejected_before_backend
                     (constant_backend (VObj [("response", VStr "hi")]))
                     (dq "{'stream':true,'messages':[]}")
                     (VObj [("stream", VBool true); ("messages", VArr [])])
                     [] _ _ _)).
    + reflexivity.
    + reflexivity.
    + left. reflexivity.
Defined.

(** C10. Validation looks at the role only for being there: when every
    message of a non-empty [messages] array has a content with text in it
    and a role that is not falsy, whatever that role is, the backend is
    called, once, with the model of the request (or the default one) and
    the messages as they came.  For a message whose content has text, the
    validation fails exactly when the role is falsy.  A message of role
    [robot] goes through to the backend. *)
Theorem C10_role_is_not_checked_against_the_known_roles :
  (forall (e : env) (request : string) (parsed : value) (items : list value),
      JSON.parse request = Some parsed ->
      get parsed "messages" = VArr items ->
      items <> [] ->
      Forall acceptable items ->
      calls (chatCompletions e request)
      = [ (requested_model parsed,
           VObj (("messages", VArr items)
                 :: (if truthy (get parsed "stream")
                     then [("stream", VBool true)]
                     else []))) ])
  /\ (forall (message : value) (s : string),
        get message "content" = VStr s ->
        trim s <> EmptyString ->
        invalid_message message = negb (truthy (get message "role")))
  /\ (let e := constant_backend (VObj [("response", VStr "hi")]) in
      let request := dq "{'messages':[{'role':'robot','content':'hello'}]}" in
      calls (chatCompletions e request)
      = [ (VStr DEFAULT_MODEL,
           VObj [("messages",
                  VArr [VObj [("role", VStr "robot");
                              ("content", VStr "hello")]])]) ]
      /\ exists payload,
           result (chatCompletions e request) = Return (JsonResponse 200 payload)).
Proof.
  split; [|split].
  - intros e request parsed items Hparse Hmessages Hne Hall.
    rewrite (chatCompletions_parsed e request parsed items Hparse Hmessages).
    destruct items as [|m rest]; [congruence|].
    assert (Hnone : existsb invalid_message (m :: rest) = false).
    { apply not_true_is_false. intros Hex. apply existsb_exists in Hex.
      destruct Hex as [x [Hin Hx]].
      rewrite Forall_forall in Hall.
      rewrite (acceptable_accepted x (Hall x Hin)) in Hx. discriminate. }
    rewrite Hnone. destruct (truthy (get parsed "stream")); reflexivity.
  - intros message s Hs Htext. rewrite invalid_message_content, Hs.
    destruct (is_empty (trim s)) eqn:E; [|reflexivity].
    apply is_empty_true in E. contradiction.
  - split; [reflexivity | eexists; reflexivity].
Qed.

Lemma C10_witness :
  calls (chatCompletions (constant_backend (VObj [("response", VStr "hi")]))
           (dq "{'messages':[{'role':'robot','content':'hello'}],'stream':1}"))
  = [ (VStr DEFAULT_MODEL,
       VObj [("messages",
              VArr [VObj [("role", VStr "robot"); ("content", VStr "hello")]]);
             ("stream", VBool true)]) ].
Proof.
  refine (proj1 C10_role_is_not_checked_against_the_known_roles
            (constant_backend (VObj [("response", VStr "hi")]))
            (dq "{'messages':[{'role':'robot','content':'hello'}],'stream':1}")
            (VObj [("messages",
                    VArr [VObj [("role", VStr "robot"); ("content", VStr "hello")]]);
                   ("stream", VNum (of_Z 1))])
            [VObj [("role", VStr "robot"); ("content", VStr "hello")]]
            _ _ _ _).
  - reflexivity.
  - reflexivity.
  - discriminate.
  - constructor; [|constructor].
    exists "hello". split; [reflexivity|]. split; [vm_compute; discriminate | reflexivity].
Defined.

(** C3. The fallback of the streaming branch, taken when the backend
    answers with a value that is no stream and holds none: the response
    is an event stream of three strings, the content chunk with the
    extracted text, the stop chunk, and [FALLBACK_SENTINEL]; that last
    string is not the sentinel [DONE_FRAME] of the normalizer and holds no
    line feed at all, so no blank line ends it. *)
Theorem C3_fallback_sentinel_lacks_the_blank_line :
  forall (e : env) (request : string) (parsed : value) (items : list value)
         (v : value) (text : string),
    JSON.parse request = Some parsed ->
    get parsed "messages" = VArr items ->
    items <> [] ->
    existsb invalid_message items = false ->
    truthy (get parsed "stream") = true ->
    AI_run e (requested_model parsed)
      (VObj [("messages", VArr items); ("stream", VBool true)]) = Return v ->
    is_stream v = false ->
    is_stream (get v "response") = false ->
    extractTextFromAiResult v = Return text ->
    result (chatCompletions e request)
    = Return
        (EventStream sse_headers
           {| frames :=
                [ chunk_frame (clock e) (request_id e) (requested_model parsed)
                    (Some text) None 1;
                  chunk_frame (clock e) (request_id e) (requested_model parsed)
                    None (Some "stop") 2;
                  FALLBACK_SENTINEL ];
              ending := Closed |})
    /\ FALLBACK_SENTINEL <> DONE_FRAME
    /\ String.index 0 nl FALLBACK_SENTINEL = None
    /\ String.index 0 nl DONE_FRAME = Some 12.
Proof.
  intros e request parsed items v text Hparse Hmessages Hne Hvalid Hstream
         Hrun Hv Hresponse Htext.
  split; [|split; [discriminate | split; reflexivity]].
  rewrite (chatCompletions_parsed e request parsed items Hparse Hmessages).
  destruct items as [|m rest]; [congruence|].
  rewrite Hvalid, Hstream. unfold respond_streaming. cbn [result].
  rewrite Hrun. cbn [bind].
  assert (Hnone :
    match v with
    | VStream rs => Some rs
    | _ => if is_object v
           then match get v "response" with
                | VStream rs => Some rs
                | _ => None
                end
           else None
    end = None).
  { destruct v; try discriminate; try reflexivity;
      cbn [is_object]; destruct (get _ "response"); try reflexivity;
      discriminate. }
  rewrite Hnone, Htext. reflexivity.
Qed.

Lemma C3_witness :
  result (chatCompletions (constant_backend (VObj [("response", VStr "hi")]))
            (dq "{'stream':true,'messages':[{'role':'user','content':'hello'}]}"))
  = Return
      (EventStream sse_headers
         {| frames :=
              [ dq "data: {'id':'chatcmpl-1700000000123-k3j9x2ab','object':'chat.completion.chunk','created':1700000000,'model':'@cf/meta/llama-3.1-8b-instruct','choices':[{'index':0,'delta':{'content':'hi'},'finish_reason':null}]}" ++ nl ++ nl;
                dq "data: {'id':'chatcmpl-1700000000123-k3j9x2ab','object':'chat.completion.chunk','created':1700000000,'model':'@cf/meta/llama-3.1-8b-instruct','choices':[{'index':0,'delta':{},'finish_reason':'stop'}]}" ++ nl ++ nl;
                "data: [DONE]\n\n" ];
            ending := Closed |}).
Proof.
  refine (proj1 (C3_fallback_sentinel_lacks_the_blank_line
                   (constant_backend (VObj [("response", VStr "hi")]))
                   (dq "{'stream':true,'messages':[{'role':'user','content':'hello'}]}")
                   (VObj [("stream", VBool true);
                          ("messages",
                           VArr [VObj [("role", VStr "user");
                                       ("content", VStr "hello")]])])
                   [VObj [("role", VStr "user"); ("content", VStr "hello")]]
                   (VObj [("response", VStr "hi")]) "hi"
                   _ _ _ _ _ _ _ _ _)).
  - reflexivity.
  - reflexivity.
  - discriminate.
  - reflexivity.
  - reflexivity.
  - reflexivity.
  - reflexivity.
  - reflexivity.
  - reflexivity.
Defined.

(** *** Text and usage extraction *)

(** C2 as first stated fails: the function reads a property of its
    argument before anything else, which throws on [null] (and on
    [undefined]); the handler calls it inside its [try] block. *)
Lemma C2_null_result_throws :
  extractTextFromAiResult VNull
  = Throw (ErrorObject "TypeError"
             "Cannot read properties of null (reading 'response')")
  /\ ~ (forall result, exists s, extractTextFromAiResult result = Return s).
Proof.
  split; [reflexivity|].
  intros H. destruct (H VNull) as [s Hs]. discriminate Hs.
Qed.

(** C2. On every result other than [null] and [undefined] the text
    extraction returns a string and does not throw.  The attempts are made
    in this order: the [response] of the result when it is a string; the
    [response], else the [output_text], of its [result] container; the
    joined and trimmed texts of its [output] array when something is left;
    and at last the JSON serialization of the result itself.  On the four
    sample results it returns [hi], [x], [ab], and the serialization of
    the empty object. *)
Theorem C2_text_extraction_total_and_ordered :
  (forall result, is_nullish result = false ->
                  exists s, extractTextFromAiResult result = Return s)
  /\ (forall result s,
        get result "response" = VStr s ->
        extractTextFromAiResult result = Return s)
  /\ (forall result s,
        is_nullish result = false ->
        (forall t, get result "response" <> VStr t) ->
        text_of_container (get result "result") = Some s ->
        extractTextFromAiResult result = Return s)
  /\ (forall container s,
        is_object container = true ->
        get container "response" = VStr s ->
        text_of_container container = Some s)
  /\ (forall container s,
        is_object container = true ->
        (forall t, get container "response" <> VStr t) ->
        get container "output_text" = VStr s ->
        text_of_container container = Some s)
  /\ (forall result s,
        is_nullish result = false ->
        (forall t, get result "response" <> VStr t) ->
        text_of_container (get result "result") = None ->
        text_of_output (get result "output") = Some s ->
        extractTextFromAiResult result = Return s)
  /\ (forall result,
        is_nullish result = false ->
        (forall t, get result "response" <> VStr t) ->
        text_of_container (get result "result") = None ->
        text_of_output (get result "output") = None ->
        exists s, JSON.stringify result = Some s
                  /\ extractTextFromAiResult result = Return s)
  /\ extractTextFromAiResult (VObj [("response", VStr "hi")]) = Return "hi"
  /\ extractTextFromAiResult
       (VObj [("result", VObj [("output_text", VStr "x")])]) = Return "x"
  /\ extractTextFromAiResult
       (VObj [("output", VArr [VObj [("text", VStr "a")];
                               VObj [("text", VStr "b")]])]) = Return "ab"
  /\ extractTextFromAiResult (VObj []) = Return "{}"
  /\ JSON.stringify (VObj []) = Some "{}".
Proof.
  assert (Hlater : forall result,
    is_nullish result = false ->
    (forall t, get result "response" <> VStr t) ->
    extractTextFromAiResult result
    = match text_of_container (get result "result") with
      | Some s => Return s
      | None =>
          match text_of_output (get result "output") with
          | Some text => Return text
          | None => Return (orDefault (JSON.stringify result) EmptyString)
          end
      end).
  { intros result Hdef Hno. unfold extractTextFromAiResult.
    rewrite (get_or_throw_defined _ _ Hdef). cbn [bind].
    destruct (get result "response") eqn:E; try reflexivity.
    now destruct (Hno s). }
  repeat split.
  - intros result Hdef. unfold extractTextFromAiResult.
    rewrite (get_or_throw_defined _ _ Hdef). cbn [bind].
    destruct (get result "response"); try (now eexists);
      destruct (text_of_container _); try (now eexists);
      destruct (text_of_output _); now eexists.
  - intros result s Hs. unfold extractTextFromAiResult.
    assert (Hdef : is_nullish result = false)
      by (destruct result; try reflexivity; discriminate).
    rewrite (get_or_throw_defined _ _ Hdef). cbn [bind]. now rewrite Hs.
  - intros result s Hdef Hno Hc. now rewrite (Hlater result Hdef Hno), Hc.
  - intros container s Hobj Hs. unfold text_of_container. now rewrite Hobj, Hs.
  - intros container s Hobj Hno Hs. unfold text_of_container. rewrite Hobj, Hs.
    destruct (get container "response") eqn:E; try reflexivity.
    now destruct (Hno s0).
  - intros result s Hdef Hno Hc Ho. now rewrite (Hlater result Hdef Hno), Hc, Ho.
  - intros result Hdef Hno Hc Ho.
    destruct (stringify_defined result) as [s Hs].
    { destruct result; try discriminate. }
    exists s. split; [exact Hs|].
    now rewrite (Hlater result Hdef Hno), Hc, Ho, Hs.
Qed.

Lemma C2_witness :
  exists s,
    extractTextFromAiResult (VArr [VStr "a"; VNum (of_Z 2); VNull]) = Return s.
Proof.
  apply (proj1 C2_text_extraction_total_and_ordered
           (VArr [VStr "a"; VNum (of_Z 2); VNull])).
  reflexivity.
Defined.

(** A place reports no usage exactly when none of the ten fields holds a
    number. *)
Lemma getUsageFromObject_none (source : value) :
  getUsageFromObject source = None
  <-> Forall (fun key => toNumber (get source key) = None) usage_keys.
Proof.
  unfold getUsageFromObject, reported_prompt, reported_completion,
    reported_total, usage_keys.
  split.
  - intros H.
    destruct (toNumber (get source "prompt_tokens")) eqn:?; [discriminate|].
    destruct (toNumber (get source "input_tokens")) eqn:?; [discriminate|].
    destruct (toNumber (get source "promptTokens")) eqn:?; [discriminate|].
    destruct (toNumber (get source "inputTokens")) eqn:?; [discriminate|].
    destruct (toNumber (get source "completion_tokens")) eqn:?; [discriminate|].
    destruct (toNumber (get source "output_tokens")) eqn:?; [discriminate|].
    destruct (toNumber (get source "completionTokens")) eqn:?; [discriminate|].
    destruct (toNumber (get source "outputTokens")) eqn:?; [discriminate|].
    destruct (toNumber (get source "total_tokens")) eqn:?; [discriminate|].
    destruct (toNumber (get source "totalTokens")) eqn:?; [discriminate|].
    repeat constructor; assumption.
  - intros H.
    repeat match goal with
           | H : Forall _ (_ :: _) |- _ => inversion H; subst; clear H
           end.
    repeat match goal with
           | H : toNumber _ = None |- _ => rewrite H; clear H
           end.
    reflexivity.
Qed.






(** The search of [extractUsageFromAiResult] is [first_reporting] over
    [usage_locations]. *)
Lemma extractUsage_first_reporting (result : value) :
  is_nullish result = false ->
  extractUsageFromAiResult result
  = Return (first_reporting (usage_locations result)).
Proof.
  intros Hdef. unfold extractUsageFromAiResult.
  rewrite (get_or_throw_defined _ _ Hdef). cbn [bind].
  unfold usage_locations. cbn [first_reporting].
  assert (H1 : usage_of_object result = getUsageFromObject result).
  { unfold usage_of_object. destruct result; try reflexivity; discriminate. }
  rewrite H1. clear H1. destruct (getUsageFromObject result); [reflexivity|].
  destruct (usage_of_object (get result "usage")); [reflexivity|].
  change (usage_of_object (get result "result"))
    with (if is_object (get result "result")
          then getUsageFromObject (get result "result") else None).
  destruct (is_object (get result "result")) eqn:E.
  - destruct (getUsageFromObject (get result "result")); [reflexivity|].
    destruct (usage_of_object (get (get result "result") "usage")); reflexivity.
  - assert (H2 : get (get result "result") "usage" = VUndefined)
      by (destruct (get result "result"); try reflexivity; discriminate).
    rewrite H2. reflexivity.
Qed.

(** C4. On every result other than [null] and [undefined], usage
    extraction returns the usage of the first of four places that reports
    any: the result itself, its [usage], its [result] container, the
    [usage] of that container; and all zeros when none does, never an
    error.  A place reports usage exactly when one of its ten token fields
    holds a number, and the triple it supplies is computed from that place
    alone ([usage_of_object] takes nothing else).  On the three sample
    results the usage is 3, 5, 8; then 0, 0, 0; then a prompt count of
    10. *)
Theorem C4_usage_is_taken_from_the_first_reporting_place :
  (forall result,
      is_nullish result = false ->
      extractUsageFromAiResult result
      = Return (first_reporting (usage_locations result)))
  /\ (forall place rest u,
        usage_of_object place = Some u ->
        first_reporting (place :: rest) = u)
  /\ (forall place rest,
        usage_of_object place = None ->
        first_reporting (place :: rest) = first_reporting rest)
  /\ (forall place,
        is_object place = true ->
        (usage_of_object place = None
         <-> Forall (fun key => toNumber (get place key) = None) usage_keys))
  /\ (forall result,
        is_nullish result = false ->
        Forall (fun place => usage_of_object place = None) (usage_locations result) ->
        extractUsageFromAiResult result = Return no_usage)
  /\ extractUsageFromAiResult
       (VObj [("prompt_tokens", VNum (of_Z 3));
              ("completion_tokens", VNum (of_Z 5))])
     = Return {| prompt_tokens := of_Z 3; completion_tokens := of_Z 5;
                 total_tokens := of_Z 8 |}
  /\ extractUsageFromAiResult (VObj [])
     = Return {| prompt_tokens := of_Z 0; completion_tokens := of_Z 0;
                 total_tokens := of_Z 0 |}
  /\ extractUsageFromAiResult
       (VObj [("usage", VObj [("input_tokens", VStr "10")])])
     = Return {| prompt_tokens := of_Z 10; completion_tokens := of_Z 0;
                 total_tokens := of_Z 0 |}.
Proof.
  split; [exact extractUsage_first_reporting|].
  split; [intros place rest u H; cbn [first_reporting]; now rewrite H|].
  split; [intros place rest H; cbn [first_reporting]; now rewrite H|].
  split.
  { intros place Hobj. unfold usage_of_object. rewrite Hobj.
    apply getUsageFromObject_none. }
  split; [|repeat split; reflexivity].
  intros result Hdef Hall. rewrite (extractUsage_first_reporting result Hdef).
  f_equal. induction Hall as [|place rest Hplace _ IH]; cbn [first_reporting].
  - reflexivity.
  - now rewrite Hplace.
Qed.

Lemma C4_witness :
  extractUsageFromAiResult
    (VObj [("result", VObj [("usage", VObj [("outputTokens", VNum (of_Z 7))])])])
  = Return {| prompt_tokens := of_Z 0; completion_tokens := of_Z 7;
              total_tokens := of_Z 0 |}.
Proof.
  apply (proj1 C4_usage_is_taken_from_the_first_reporting_place
           (VObj [("result",
                   VObj [("usage", VObj [("outputTokens", VNum (of_Z 7))])])])).
  reflexivity.
Defined.




(** ** Further properties *)

(** *** The handler as a whole *)

Lemma respond_once_calls (e : env) (requestId : string) (model : value)
    (items : list value) :
  calls (respond_once e requestId model items)
  = [(model, VObj [("messages", VArr items)])].
Proof. reflexivity. Qed.

Lemma respond_streaming_calls (e : env) (requestId : string) (model : value)
    (items : list value) :
  calls (respond_streaming e requestId model items)
  = [(model, VObj [("messages", VArr items); ("stream", VBool true)])].
Proof. reflexivity. Qed.

(** The status of the non-streaming answer is 200 or 500. *)
Lemma respond_once_result (e : env) (requestId : string) (model : value)
    (items : list value) :
  exists payload,
    result (respond_once e requestId model items) = Return (JsonResponse 200 payload)
    \/ result (respond_once e requestId model items) = Return (JsonResponse 500 payload).
Proof.
  unfold respond_once. cbn [result].
  destruct (AI_run e model _) as [answer|err]; cbn [bind catching].
  - destruct (extractTextFromAiResult answer) as [content|err]; cbn [bind catching].
    + destruct (extractUsageFromAiResult answer) as [u|err]; cbn [bind catching].
      * eexists. left. reflexivity.
      * eexists. right. reflexivity.
    + eexists. right. reflexivity.
  - eexists. right. reflexivity.
Qed.

(** The streaming answer is an event stream with the SSE headers, or has
    status 500. *)
Lemma respond_streaming_result (e : env) (requestId : string) (model : value)
    (items : list value) :
  (exists events,
      result (respond_streaming e requestId model items)
      = Return (EventStream sse_headers events))
  \/ (exists payload,
         result (respond_streaming e requestId model items)
         = Return (JsonResponse 500 payload)).
Proof.
  unfold respond_streaming. cbn [result].
  destruct (AI_run e model _) as [v|err]; cbn [bind catching].
  - match goal with
    | |- context [match ?s with Some _ => _ | None => _ end] => destruct s
    end.
    + left. eexists. reflexivity.
    + destruct (extractTextFromAiResult v) as [text|err]; cbn [bind catching].
      * left. eexists. reflexivity.
      * right. eexists. reflexivity.
  - right. eexists. reflexivity.
Qed.

(** The cases in which the handler answers without calling the backend. *)
Ltac static_answer :=
  cbn; repeat split; try lia; intros; try discriminate;
  match goal with
  | H : Return _ = Return _ |- _ => inversion H; subst
  end;
  left; split; reflexivity.

(** X1. Whatever the request and the backend, the handler calls the
    backend at most once.  A JSON answer has status 400, 200 or 500; with
    400 the backend has not been called, with 200 or 500 it has been
    called exactly once, as it has when the answer is an event stream,
    which then carries the SSE headers.  An exception leaves the handler
    only when the body is the JSON value [null], before any call. *)
Theorem X1_handler_outcomes :
  forall (e : env) (request : string),
    length (calls (chatCompletions e request)) <= 1
    /\ (forall code payload,
           result (chatCompletions e request) = Return (JsonResponse code payload) ->
           (code = 400%Z /\ calls (chatCompletions e request) = [])
           \/ ((code = 200%Z \/ code = 500%Z)
               /\ length (calls (chatCompletions e request)) = 1))
    /\ (forall headers events,
           result (chatCompletions e request) = Return (EventStream headers events) ->
           headers = sse_headers
           /\ length (calls (chatCompletions e request)) = 1)
    /\ (forall err,
           result (chatCompletions e request) = Throw err ->
           exists parsed,
             JSON.parse request = Some parsed
             /\ is_nullish parsed = true
             /\ calls (chatCompletions e request) = []).
Proof.
  intros e request. unfold chatCompletions.
  destruct (JSON.parse request) as [parsed|].
  2:{ static_answer. }
  unfold get_or_throw. destruct (is_nullish parsed) eqn:Hnull.
  { cbn. repeat split; try lia; intros; try discriminate.
    exists parsed. auto. }
  set (model := coalesce (get parsed "model") (VStr DEFAULT_MODEL)).
  set (requestId := ("chatcmpl-" ++ _)%string).
  destruct (match get parsed "messages" with VArr items => items | _ => [] end)
    as [|m rest].
  { static_answer. }
  destruct (existsb invalid_message (m :: rest)).
  { static_answer. }
  destruct (truthy (get parsed "stream")).
  - rewrite respond_streaming_calls.
    destruct (respond_streaming_result e requestId model (m :: rest))
      as [[events H] | [payload H]]; rewrite H; cbn [length];
      repeat split; try lia; intros; try discriminate; try congruence.
    + inversion H0; subst. right. split; [right|]; reflexivity.
  - rewrite respond_once_calls.
    destruct (respond_once_result e requestId model (m :: rest))
      as [payload [H | H]]; rewrite H; cbn [length];
      repeat split; try lia; intros; try discriminate.
    + inversion H0; subst. right. split; [left|]; reflexivity.
    + inversion H0; subst. right. split; [right|]; reflexivity.
Qed.

Lemma X1_witness :
  exists parsed,
    JSON.parse "null" = Some parsed
    /\ is_nullish parsed = true
    /\ calls (chatCompletions (constant_backend (VStr "hi")) "null") = [].
Proof.
  apply (proj2 (proj2 (proj2 (X1_handler_outcomes
                                (constant_backend (VStr "hi")) "null")))
           (ErrorObject "TypeError"
              "Cannot read properties of null (reading 'model')")).
  reflexivity.
Defined.

Lemma extractText_defined (answer : value) :
  is_nullish answer = false ->
  exists content, extractTextFromAiResult answer = Return content.
Proof.
  intros H. unfold extractTextFromAiResult.
  rewrite (get_or_throw_defined _ _ H). cbn [bind].
  destruct (get answer "response"); try (now eexists);
    destruct (text_of_container _); try (now eexists);
    destruct (text_of_output _); now eexists.
Qed.

Lemma extractText_nullish (answer : value) :
  is_nullish answer = true ->
  exists err, extractTextFromAiResult answer = Throw err.
Proof.
  intros H. unfold extractTextFromAiResult, get_or_throw. rewrite H.
  now eexists.
Qed.

Lemma accepted_dispatch (e : env) (request : string) (parsed : value)
    (items : list value) :
  accepted_request request parsed items ->
  chatCompletions e request
  = if truthy (get parsed "stream")
    then respond_streaming e (request_id e) (requested_model parsed) items
    else respond_once e (request_id e) (requested_model parsed) items.
Proof.
  intros [Hparse [Hmessages [Hne Hvalid]]].
  rewrite (chatCompletions_parsed e request parsed items Hparse Hmessages).
  destruct items as [|m rest]; [congruence|]. now rewrite Hvalid.
Qed.

(** X2. For a request that passes validation and does not ask for a
    stream, when the backend answers with a value other than [null] and
    [undefined]: the backend has been called once, with the model of the
    request (or the default one) and the messages alone; the answer has
    status 200 and is the [chat.completion] object whose content is what
    [extractTextFromAiResult] returns on the backend's answer, whose usage
    is what [extractUsageFromAiResult] returns on it, whose identifier is
    the request identifier and whose [created] is the second reading of
    the clock, in seconds. *)
Theorem X2_non_streaming_answer :
  forall (e : env) (request : string) (parsed : value) (items : list value)
         (answer : value),
    accepted_request request parsed items ->
    truthy (get parsed "stream") = false ->
    AI_run e (requested_model parsed) (VObj [("messages", VArr items)])
    = Return answer ->
    is_nullish answer = false ->
    exists content u,
      extractTextFromAiResult answer = Return content
      /\ extractUsageFromAiResult answer = Return u
      /\ chatCompletions e request
         = {| result :=
                Return
                  (JsonResponse 200
                     (chat_completion (request_id e) (requested_model parsed)
                        (created_at (clock e) 1) content u));
              calls :=
                [(requested_model parsed, VObj [("messages", VArr items)])] |}.
Proof.
  intros e request parsed items answer Hok Hstream Hrun Hdef.
  destruct (extractText_defined answer Hdef) as [content Hc].
  exists content, (first_reporting (usage_locations answer)).
  split; [exact Hc|]. split; [now apply extractUsage_first_reporting|].
  rewrite (accepted_dispatch e request parsed items Hok), Hstream.
  unfold respond_once. rewrite Hrun. cbn [bind]. rewrite Hc. cbn [bind].
  rewrite (extractUsage_first_reporting answer Hdef). reflexivity.
Qed.

Lemma X2_witness :
  chatCompletions (constant_backend
                     (VObj [("result", VObj [("response", VStr "hi")]);
                            ("usage", VObj [("prompt_tokens", VNum (of_Z 4));
                                            ("completion_tokens", VNum (of_Z 1))])]))
    (dq "{'model':'m','messages':[{'role':'user','content':'hello'}]}")
  = {| result :=
         Return
           (JsonResponse 200
              (chat_completion "chatcmpl-1700000000123-k3j9x2ab" (VStr "m")
                 (of_Z 1700000000) "hi"
                 {| prompt_tokens := of_Z 4; completion_tokens := of_Z 1;
                    total_tokens := of_Z 5 |}));
       calls :=
         [(VStr "m",
           VObj [("messages",
                  VArr [VObj [("role", VStr "user"); ("content", VStr "hello")]])])] |}.
Proof.
  destruct (X2_non_streaming_answer
              (constant_backend
                 (VObj [("result", VObj [("response", VStr "hi")]);
                        ("usage", VObj [("prompt_tokens", VNum (of_Z 4));
                                        ("completion_tokens", VNum (of_Z 1))])]))
              (dq "{'model':'m','messages':[{'role':'user','content':'hello'}]}")
              (VObj [("model", VStr "m");
                     ("messages",
                      VArr [VObj [("role", VStr "user"); ("content", VStr "hello")]])])
              [VObj [("role", VStr "user"); ("content", VStr "hello")]]
              (VObj [("result", VObj [("response", VStr "hi")]);
                     ("usage", VObj [("prompt_tokens", VNum (of_Z 4));
                                     ("completion_tokens", VNum (of_Z 1))])]))
    as [content [u [Hc [Hu H]]]].
  - repeat split; try reflexivity. discriminate.
  - reflexivity.
  - reflexivity.
  - reflexivity.
  - injection Hc as <-. injection Hu as <-. exact H.
Defined.

(** X3. For a request that passes validation, in either mode: when the
    call to the backend throws, the answer is the 500 [server_error]
    object carrying the message of the error, or the fixed message when
    what was thrown is not an [Error]; and when the backend answers
    [null] or [undefined], the extraction throws inside the [try] and the
    answer is such a 500 too, not an event stream.  The backend has been
    called once. *)
Theorem X3_backend_failure_is_a_500 :
  forall (e : env) (request : string) (parsed : value) (items : list value),
    accepted_request request parsed items ->
    let inputs :=
      VObj (("messages", VArr items)
            :: (if truthy (get parsed "stream")
                then [("stream", VBool true)] else [])) in
    calls (chatCompletions e request) = [(requested_model parsed, inputs)]
    /\ (forall err,
           AI_run e (requested_model parsed) inputs = Throw err ->
           result (chatCompletions e request) = Return (server_error err)
           /\ server_error err
              = JsonResponse 500
                  (VObj [("error",
                          VObj [("message", VStr (error_message err));
                                ("type", VStr "server_error");
                                ("param", VNull); ("code", VNull)])]))
    /\ (forall answer,
           AI_run e (requested_model parsed) inputs = Return answer ->
           is_nullish answer = true ->
           exists err,
             result (chatCompletions e request) = Return (server_error err)).
Proof.
  intros e request parsed items Hok inputs. subst inputs.
  rewrite (accepted_dispatch e request parsed items Hok).
  destruct (truthy (get parsed "stream")).
  - split; [reflexivity|]. split.
    + intros err Hrun. unfold respond_streaming. cbn [result]. rewrite Hrun.
      split; [reflexivity | now destruct err].
    + intros answer Hrun Hnull. unfold respond_streaming. cbn [result].
      rewrite Hrun. cbn [bind].
      destruct (extractText_nullish answer Hnull) as [err Herr].
      exists err. destruct answer; try discriminate; now rewrite Herr.
  - split; [reflexivity|]. split.
    + intros err Hrun. unfold respond_once. cbn [result]. rewrite Hrun.
      split; [reflexivity | now destruct err].
    + intros answer Hrun Hnull. unfold respond_once. cbn [result].
      rewrite Hrun. cbn [bind].
      destruct (extractText_nullish answer Hnull) as [err Herr].
      exists err. now rewrite Herr.
Qed.

Lemma X3_witness :
  result (chatCompletions (failing_backend (ErrorObject "Error" "quota exceeded"))
            (dq "{'stream':true,'messages':[{'role':'user','content':'hello'}]}"))
  = Return
      (JsonResponse 500
         (VObj [("error",
                 VObj [("message", VStr "quota exceeded");
                       ("type", VStr "server_error");
                       ("param", VNull); ("code", VNull)])])).
Proof.
  refine (proj1 (proj1 (proj2 (X3_backend_failure_is_a_500
            (failing_backend (ErrorObject "Error" "quota exceeded"))
            (dq "{'stream':true,'messages':[{'role':'user','content':'hello'}]}")
            (VObj [("stream", VBool true);
                   ("messages",
                    VArr [VObj [("role", VStr "user"); ("content", VStr "hello")]])])
            [VObj [("role", VStr "user"); ("content", VStr "hello")]]
            _)) (ErrorObject "Error" "quota exceeded") _)).
  - repeat split; try reflexivity. discriminate.
  - reflexivity.
Defined.

(** X4. For a request that passes validation and asks for a stream, when
    the backend answers with a stream, or with a value that is not a
    stream and whose [response] is one: the answer is an event stream with
    the SSE headers whose events are the normalization of that stream
    under the request identifier and the model of the request, the first
    chunk being stamped with the second reading of the clock. *)
Theorem X4_streaming_answer_is_the_normalized_stream :
  forall (e : env) (request : string) (parsed : value) (items : list value)
         (v : value) (rs : stream),
    accepted_request request parsed items ->
    truthy (get parsed "stream") = true ->
    AI_run e (requested_model parsed)
      (VObj [("messages", VArr items); ("stream", VBool true)]) = Return v ->
    v = VStream rs \/ (is_stream v = false /\ get v "response" = VStream rs) ->
    result (chatCompletions e request)
    = Return
        (EventStream sse_headers
           (toOpenAiSseFromAiStream (clock e) (request_id e)
              (requested_model parsed) rs 1)).
Proof.
  intros e request parsed items v rs Hok Hstream Hrun Hv.
  rewrite (accepted_dispatch e request parsed items Hok), Hstream.
  unfold respond_streaming. cbn [result]. rewrite Hrun. cbn [bind].
  destruct Hv as [-> | [Hns Hresp]].
  - reflexivity.
  - destruct v; try discriminate; cbn [get] in Hresp; try discriminate.
    cbn [is_object get]. rewrite Hresp. reflexivity.
Qed.

Lemma X4_witness :
  result (chatCompletions
            (constant_backend (VObj [("response", VStream sample_stream)]))
            (dq "{'stream':true,'messages':[{'role':'user','content':'hello'}]}"))
  = Return
      (EventStream sse_headers
         (toOpenAiSseFromAiStream (fun n => (1700000000123 + Z.of_nat n)%Z)
            "chatcmpl-1700000000123-k3j9x2ab" (VStr DEFAULT_MODEL)
            sample_stream 1)).
Proof.
  refine (X4_streaming_answer_is_the_normalized_stream
            (constant_backend (VObj [("response", VStream sample_stream)]))
            (dq "{'stream':true,'messages':[{'role':'user','content':'hello'}]}")
            (VObj [("stream", VBool true);
                   ("messages",
                    VArr [VObj [("role", VStr "user"); ("content", VStr "hello")]])])
            [VObj [("role", VStr "user"); ("content", VStr "hello")]]
            (VObj [("response", VStream sample_stream)]) sample_stream
            _ _ _ _).
  - repeat split; try reflexivity. discriminate.
  - reflexivity.
  - reflexivity.
  - right. split; reflexivity.
Defined.

(** X5. A body that is not JSON is answered with status 400 and the
    message [Invalid JSON body.]; a body that parses to a value other than
    [null] in which [messages] is missing, or is anything but an array (a
    string, an object, [null]), is answered like an empty array, with
    status 400 and the message that [messages] must be a non-empty array.
    In both cases the backend is not called. *)
Theorem X5_malformed_body :
  (forall (e : env) (request : string),
      JSON.parse request = None ->
      chatCompletions e request
      = {| result :=
             Return (error_response (createOpenAIError "Invalid JSON body." None));
           calls := [] |})
  /\ (forall (e : env) (request : string) (parsed : value),
        JSON.parse request = Some parsed ->
        is_nullish parsed = false ->
        (forall items, get parsed "messages" <> VArr items) ->
        chatCompletions e request
        = {| result :=
               Return (error_response
                         (createOpenAIError
                            "`messages` must be a non-empty array." None));
             calls := [] |})
  /\ error_response (createOpenAIError "Invalid JSON body." None)
     = JsonResponse 400
         (VObj [("error",
                 VObj [("message", VStr "Invalid JSON body.");
                       ("type", VStr "invalid_request_error");
                       ("param", VNull); ("code", VNull)])]).
Proof.
  split; [|split; [|reflexivity]].
  - intros e request H. unfold chatCompletions. now rewrite H.
  - intros e request parsed Hparse Hdef Hno. unfold chatCompletions.
    rewrite Hparse, (get_or_throw_defined _ _ Hdef).
    destruct (get parsed "messages") eqn:E; try reflexivity.
    now destruct (Hno items).
Qed.

Lemma X5_witness :
  chatCompletions (constant_backend VNull) (dq "{'messages':'hello'}")
  = {| result :=
         Return (error_response
                   (createOpenAIError
                      "`messages` must be a non-empty array." None));
       calls := [] |}
  /\ chatCompletions (constant_backend VNull) (dq "{'messages':")
     = {| result :=
            Return (error_response (createOpenAIError "Invalid JSON body." None));
          calls := [] |}.
Proof.
  split.
  - apply (proj1 (proj2 X5_malformed_body) (constant_backend VNull)
             (dq "{'messages':'hello'}") (VObj [("messages", VStr "hello")])).
    + reflexivity.
    + reflexivity.
    + intros items. discriminate.
  - apply (proj1 X5_malformed_body (constant_backend VNull) (dq "{'messages':")).
    reflexivity.
Defined.

(** *** More on the normalizer *)

Lemma reads_emissions_strings (vs : list string) (buf : string) (d : Utf8.decoder) :
  reads_emissions (map ChunkString vs) buf d
  = (map Content (filter (fun v => negb (is_empty v)) vs), buf, None).
Proof.
  induction vs as [|v rest IH]; cbn [map reads_emissions read_emissions filter].
  - reflexivity.
  - rewrite IH. unfold content_of. destruct (is_empty v); reflexivity.
Qed.

(** X6. A backend stream whose reads are all strings is not parsed at
    all: each read that is not the empty string gives exactly one content
    chunk carrying that string as it is (whether or not it looks like an
    SSE event or holds blank lines), in the order of the reads, and the
    stop chunk and the sentinel follow. *)
Theorem X6_string_reads_are_forwarded_verbatim :
  forall (clock : nat -> Z) (id : string) (model : value) (vs : list string)
         (tick0 : nat),
    toOpenAiSseFromAiStream clock id model
      {| chunks := map ChunkString vs; failure := None |} tick0
    = {| frames :=
           render clock id model tick0
             (map Content (filter (fun v => negb (is_empty v)) vs)
              ++ [Stop; Sentinel])%list;
         ending := Closed |}.
Proof.
  intros clock id model vs tick0.
  rewrite normalizer_renders_emissions. unfold emissions. cbn [chunks failure].
  rewrite reads_emissions_strings. reflexivity.
Qed.

Lemma reads_emissions_cut (pre post : list chunk) (buf : string) (d : Utf8.decoder) :
  forallb decodable pre = true ->
  reads_emissions (pre ++ ChunkOther :: post) buf d
  = (fst (fst (reads_emissions pre buf d)),
     snd (fst (reads_emissions pre buf d)),
     Some decode_error).
Proof.
  revert buf d. induction pre as [|c rest IH]; intros buf d H.
  - reflexivity.
  - cbn [forallb] in H. apply andb_true_iff in H. destruct H as [Hc Hrest].
    cbn [app reads_emissions].
    destruct (read_emissions buf d c) as [[[buf' d'] es]|err] eqn:E.
    + rewrite (IH buf' d' Hrest).
      destruct (reads_emissions rest buf' d') as [[more final] err']. reflexivity.
    + destruct c; try discriminate.
      cbn [read_emissions] in E. destruct (Utf8.decode d bytes) as [text d0].
      destruct (pop _); discriminate.
Qed.

Lemma reads_emissions_no_error (cs : list chunk) (buf : string)
    (d : Utf8.decoder) :
  snd (reads_emissions cs buf d) = None -> forallb decodable cs = true.
Proof.
  revert buf d. induction cs as [|c rest IH]; intros buf d; cbn [reads_emissions].
  - reflexivity.
  - destruct c as [v|bytes|]; cbn [read_emissions forallb decodable andb].
    + specialize (IH buf d).
      destruct (reads_emissions rest buf d) as [[more final] err']. exact IH.
    + destruct (Utf8.decode d bytes) as [text d'].
      destruct (pop (split sep_blank (buf ++ text))) as [parts last].
      match goal with
      | |- context [reads_emissions rest ?b d'] =>
          specialize (IH b d');
          destruct (reads_emissions rest b d') as [[more final] err']
      end.
      exact IH.
    + discriminate.
Qed.

(** X7. The output of the normalizer is closed exactly when no read of
    the backend stream fails and every chunk is a string or bytes.  A
    chunk that is neither puts the output in error with the [TypeError] of
    the decoder, and nothing that comes after it in the backend stream is
    looked at: the frames are those of the chunks before it, whatever
    follows and however the backend stream would have ended. *)
Theorem X7_closed_exactly_when_every_read_decodes :
  (forall (clock : nat -> Z) (id : string) (model : value) (s : stream)
          (tick0 : nat),
      ending (toOpenAiSseFromAiStream clock id model s tick0) = Closed
      <-> failure s = None /\ forallb decodable (chunks s) = true)
  /\ (forall (clock : nat -> Z) (id : string) (model : value)
            (pre post : list chunk) (fail : option exn) (tick0 : nat),
        forallb decodable pre = true ->
        toOpenAiSseFromAiStream clock id model
          {| chunks := pre ++ ChunkOther :: post; failure := fail |} tick0
        = {| frames :=
               frames (toOpenAiSseFromAiStream clock id model
                         {| chunks := pre; failure := Some decode_error |} tick0);
             ending := Errored decode_error |}).
Proof.
  split.
  - intros clock id model s tick0. rewrite normalizer_renders_emissions.
    cbn [ending]. unfold emissions.
    pose proof (reads_emissions_decodable (chunks s) EmptyString Utf8.fresh) as Hd.
    pose proof (reads_emissions_no_error (chunks s) EmptyString Utf8.fresh) as Hn.
    destruct (reads_emissions (chunks s) EmptyString Utf8.fresh) as [[es buf] err].
    cbn [snd] in Hd, Hn. split.
    + intros H. destruct err as [e|]; [discriminate|].
      destruct (failure s); [discriminate|]. split; [reflexivity|].
      now apply Hn.
    + intros [Hf Hall]. rewrite (Hd Hall) in *. now rewrite Hf.
  - intros clock id model pre post fail tick0 Hpre.
    rewrite !normalizer_renders_emissions. unfold emissions. cbn [chunks failure].
    rewrite (reads_emissions_cut pre post EmptyString Utf8.fresh Hpre).
    pose proof (reads_emissions_decodable pre EmptyString Utf8.fresh Hpre) as Hd.
    destruct (reads_emissions pre EmptyString Utf8.fresh) as [[es buf] err].
    cbn [snd] in Hd. subst err. reflexivity.
Qed.

Lemma X7_witness :
  toOpenAiSseFromAiStream (fun _ => 0%Z) "id" VNull
    {| chunks := [ChunkBytes (tok_event false)]
                 ++ ChunkOther :: [ChunkString "never read"];
       failure := None |} 0
  = {| frames := [chunk_frame (fun _ => 0%Z) "id" VNull (Some "tok") None 0];
       ending := Errored decode_error |}.
Proof.
  apply (proj2 X7_closed_exactly_when_every_read_decodes (fun _ => 0%Z) "id" VNull
           [ChunkBytes (tok_event false)] [ChunkString "never read"] None 0).
  reflexivity.
Defined.

Lemma remainder_no_match_bounded (n : nat) (x : string) :
  String.length x <= n ->
  first_match sep_blank (remainder sep_blank x) = None.
Proof.
  revert x. induction n as [|n IH]; intros x Hlen.
  - destruct x; [reflexivity | simpl in Hlen; lia].
  - destruct (first_match sep_blank x) as [q|] eqn:F.
    + destruct (split_first_match sep_blank sep_blank_positive x q F)
        as [k [Hk [Hq Hx]]].
      destruct (sep_blank_stable _ _ EmptyString Hk) as [_ Hle].
      rewrite drop_length in Hle.
      unfold remainder, split. rewrite Hx.
      rewrite pop_cons by apply split_from_nonempty. cbn [snd].
      apply (IH (drop (q + S k) x)). rewrite drop_length. lia.
    + unfold remainder, split. rewrite (split_no_match sep_blank x EmptyString F).
      exact F.
Qed.

Lemma remainder_no_match (x : string) :
  first_match sep_blank (remainder sep_blank x) = None.
Proof. apply (remainder_no_match_bounded (String.length x)). lia. Qed.

Lemma reads_emissions_buffer (cs : list chunk) (buf : string) (d : Utf8.decoder) :
  first_match sep_blank buf = None ->
  first_match sep_blank (snd (fst (reads_emissions cs buf d))) = None.
Proof.
  revert buf d. induction cs as [|c rest IH]; intros buf d H; cbn [reads_emissions].
  - exact H.
  - destruct c as [v|bytes|]; cbn [read_emissions].
    + specialize (IH buf d H).
      destruct (reads_emissions rest buf d) as [[more final] err]. exact IH.
    + destruct (Utf8.decode d bytes) as [text d'].
      pose proof (remainder_no_match (buf ++ text)) as Hr. unfold remainder in Hr.
      destruct (pop (split sep_blank (buf ++ text))) as [parts last].
      cbn [snd] in Hr. specialize (IH _ d' Hr).
      destruct (reads_emissions rest _ d') as [[more final] err]. exact IH.
    + exact H.
Qed.

(** X8. Whatever has been read, the buffer of the normalizer holds no
    blank line: every event that a read completes is handled in that
    read, and what stays behind is at most the beginning of one event. *)
Theorem X8_buffer_never_holds_a_complete_event :
  forall (clock : nat -> Z) (id : string) (model : value) (cs : list chunk)
         (tick0 : nat),
    first_match sep_blank
      (buffer (fst (read_all clock id model cs
                      {| buffer := EmptyString; decoder := Utf8.fresh;
                         ctl := {| queue := []; ticks := tick0 |} |})))
    = None.
Proof.
  intros clock id model cs tick0.
  pose proof (read_all_spec clock id model cs
                {| buffer := EmptyString; decoder := Utf8.fresh;
                   ctl := {| queue := []; ticks := tick0 |} |}) as H.
  cbn [buffer decoder ctl] in H.
  pose proof (reads_emissions_buffer cs EmptyString Utf8.fresh eq_refl) as Hb.
  destruct (reads_emissions cs EmptyString Utf8.fresh) as [[es buf] err].
  destruct H as [_ [-> _]]. exact Hb.
Qed.

(** *** The searches for text *)

(** Induction over values, through the elements of arrays and the values
    of fields. *)
Lemma value_induction (P : value -> Prop) :
  P VUndefined -> P VNull ->
  (forall b, P (VBool b)) -> (forall n, P (VNum n)) -> (forall s, P (VStr s)) ->
  (forall items, Forall P items -> P (VArr items)) ->
  (forall fields, Forall (fun kv => P (snd kv)) fields -> P (VObj fields)) ->
  (forall rs, P (VStream rs)) ->
  forall v, P v.
Proof.
  intros Hu Hn Hb Hnum Hs Harr Hobj Hstream.
  fix IH 1. intros [ | | b | n | s | items | fields | rs].
  - exact Hu.
  - exact Hn.
  - apply Hb.
  - apply Hnum.
  - apply Hs.
  - apply Harr.
    exact ((fix each (l : list value) : Forall P l :=
              match l with
              | [] => Forall_nil P
              | x :: rest => Forall_cons x (IH x) (each rest)
              end) items).
  - apply Hobj.
    exact ((fix each (l : list (string * value))
              : Forall (fun kv => P (snd kv)) l :=
              match l with
              | [] => Forall_nil _
              | kv :: rest => Forall_cons kv (IH (snd kv)) (each rest)
              end) fields).
  - apply Hstream.
Qed.

Lemma lookup_property (P : value -> Prop) (k : string)
    (fields : list (string * value)) :
  P VUndefined -> Forall (fun kv => P (snd kv)) fields -> P (lookup k fields).
Proof.
  intros Hu H. induction H as [|[k' x] rest Hx _ IH]; cbn [lookup].
  - exact Hu.
  - destruct (String.eqb k k'); [exact Hx | exact IH].
Qed.

Lemma Forall_flat_map_intro {A B : Type} (P : B -> Prop) (f : A -> list B)
    (xs : list A) :
  Forall (fun x => Forall P (f x)) xs -> Forall P (flat_map f xs).
Proof.
  induction 1 as [|x rest Hx _ IH]; cbn [flat_map].
  - constructor.
  - apply Forall_app. split; assumption.
Qed.

Lemma nonempty_string_nonempty (v : value) :
  Forall (fun s => s <> EmptyString) (nonempty_string v).
Proof.
  destruct v; try constructor. cbn [nonempty_string].
  destruct s; repeat constructor. discriminate.
Qed.

Lemma delta_content_nonempty (delta : value) :
  Forall (fun s => s <> EmptyString) (delta_content delta).
Proof.
  unfold delta_content. destruct (is_object delta); [|constructor].
  apply nonempty_string_nonempty.
Qed.

Lemma extractDeltaText_nonempty (v : value) :
  Forall (fun s => s <> EmptyString) (extractDeltaText v).
Proof.
  unfold extractDeltaText. destruct (is_object v); cbn [negb]; [|constructor].
  repeat (apply Forall_app; split);
    try apply nonempty_string_nonempty; try apply delta_content_nonempty.
  destruct (get v "choices"); try constructor.
  apply Forall_flat_map_intro. apply Forall_forall. intros choice _.
  destruct (is_object choice); cbn [negb]; [|constructor].
  apply Forall_app. split;
    [apply delta_content_nonempty | apply nonempty_string_nonempty].
Qed.

(** X9. The fragments [extractDeltaText] returns are never the empty
    string, whatever the value; there are at most four of them besides
    two for each element of [choices]; and a value that is not an object
    (a string, a number, [null]) gives none. *)
Theorem X9_delta_fragments_are_never_empty :
  forall v,
    Forall (fun s => s <> EmptyString) (extractDeltaText v)
    /\ length (extractDeltaText v)
       <= 4 + 2 * match get v "choices" with
                  | VArr choices => length choices
                  | _ => 0
                  end
    /\ (is_object v = false -> extractDeltaText v = []).
Proof.
  intros v. split; [apply extractDeltaText_nonempty|].
  unfold extractDeltaText.
  destruct (is_object v); cbn [negb].
  2:{ split; [cbn; lia | reflexivity]. }
  assert (Hone : forall x, length (nonempty_string x) <= 1).
  { intros x. destruct x; cbn; try lia. destruct (is_empty s); cbn; lia. }
  assert (Hd : forall x, length (delta_content x) <= 1).
  { intros x. unfold delta_content. destruct (is_object x); [apply Hone | cbn; lia]. }
  split; [|discriminate].
  - rewrite !length_app.
    pose proof (Hone (get v "response")). pose proof (Hone (get v "output_text")).
    pose proof (Hone (get v "text")). pose proof (Hd (get v "delta")).
    assert (Hc : length
                   match get v "choices" with
                   | VArr choices =>
                       flat_map
                         (fun choice =>
                            if negb (is_object choice) then []
                            else (delta_content (get choice "delta")
                                  ++ nonempty_string (get choice "text"))%list)
                         choices
                   | _ => []
                   end
                 <= 2 * match get v "choices" with
                        | VArr choices => length choices
                        | _ => 0
                        end).
    { destruct (get v "choices"); cbn [length]; try lia.
      induction items as [|choice rest IH]; cbn [flat_map length]; [lia|].
      rewrite length_app.
      assert (length (if negb (is_object choice) then []
                      else (delta_content (get choice "delta")
                            ++ nonempty_string (get choice "text"))%list) <= 2).
      { destruct (is_object choice); cbn [negb length]; [|lia].
        rewrite length_app.
        pose proof (Hd (get choice "delta")).
        pose proof (Hone (get choice "text")). lia. }
      lia. }
    lia.
Qed.

Lemma X9_witness : extractDeltaText (VStr "response") = [].
Proof.
  apply (proj2 (proj2 (X9_delta_fragments_are_never_empty (VStr "response")))).
  reflexivity.
Defined.

Lemma extractTextCandidates_nonempty (v : value) :
  Forall (fun s => s <> EmptyString) (extractTextCandidates v).
Proof.
  induction v using value_induction; try (cbn; constructor).
  - cbn [extractTextCandidates]. destruct s; repeat constructor. discriminate.
  - cbn [extractTextCandidates]. now apply Forall_flat_map_intro.
  - rewrite extractTextCandidates_object.
    apply Forall_flat_map_intro. apply Forall_forall. intros key _.
    apply (lookup_property
             (fun x => Forall (fun s => s <> EmptyString) (extractTextCandidates x)));
      [constructor | assumption].
Qed.

Lemma extractTextCandidates_strings (texts : list string) :
  Forall (fun s => s <> EmptyString) texts ->
  extractTextCandidates (VArr (map VStr texts)) = texts.
Proof.
  induction 1 as [|s rest Hs _ IH]; [reflexivity|].
  cbn [map extractTextCandidates flat_map] in *.
  rewrite IH. destruct s; [congruence | reflexivity].
Qed.

(** X10. The texts [extractTextCandidates] finds are never the empty
    string; an array of non-empty strings gives back those strings, and
    searching the array of what a search found finds the same again; an
    object gives what its fields [response], [text], [content], [delta]
    and [output_text] give, in that order, and nothing when it has none
    of them. *)
Theorem X10_text_candidates :
  (forall v, Forall (fun s => s <> EmptyString) (extractTextCandidates v))
  /\ (forall texts,
        Forall (fun s => s <> EmptyString) texts ->
        extractTextCandidates (VArr (map VStr texts)) = texts)
  /\ (forall v,
        extractTextCandidates (VArr (map VStr (extractTextCandidates v)))
        = extractTextCandidates v)
  /\ (forall fields,
        extractTextCandidates (VObj fields)
        = (extractTextCandidates (lookup "response" fields)
           ++ extractTextCandidates (lookup "text" fields)
           ++ extractTextCandidates (lookup "content" fields)
           ++ extractTextCandidates (lookup "delta" fields)
           ++ extractTextCandidates (lookup "output_text" fields))%list)
  /\ (forall fields,
        Forall (fun key => lookup key fields = VUndefined) candidate_keys ->
        extractTextCandidates (VObj fields) = []).
Proof.
  split; [exact extractTextCandidates_nonempty|].
  split; [exact extractTextCandidates_strings|].
  split.
  { intros v. apply extractTextCandidates_strings, extractTextCandidates_nonempty. }
  split.
  { intros fields. rewrite extractTextCandidates_object.
    unfold candidate_keys. cbn [flat_map]. now rewrite app_nil_r. }
  intros fields H. rewrite extractTextCandidates_object.
  induction H as [|key rest Hkey _ IH]; cbn [flat_map]; [reflexivity|].
  now rewrite Hkey, IH.
Qed.

Lemma X10_witness :
  extractTextCandidates (VArr (map VStr ["a"; "b c"])) = ["a"; "b c"]
  /\ extractTextCandidates (VObj [("id", VStr "x"); ("n", VNum (of_Z 3))]) = [].
Proof.
  split.
  - apply (proj1 (proj2 X10_text_candidates) ["a"; "b c"]).
    repeat constructor; discriminate.
  - apply (proj2 (proj2 (proj2 (proj2 X10_text_candidates)))
             [("id", VStr "x"); ("n", VNum (of_Z 3))]).
    repeat constructor.
Defined.

(** *** Trimming *)

Lemma rev_append_app (s acc : string) : rev_append s acc = rev s ++ acc.
Proof.
  unfold rev. revert acc. induction s as [|c r IH]; intros acc; cbn [rev_append].
  - reflexivity.
  - rewrite (IH (String c acc)), (IH (String c EmptyString)).
    now rewrite string_app_assoc.
Qed.

Lemma rev_app (a b : string) : rev (a ++ b) = rev b ++ rev a.
Proof.
  induction a as [|c r IH].
  - cbn [append]. now rewrite append_empty_r.
  - change (String c r ++ b) with (String c (r ++ b)).
    unfold rev at 1 3. cbn [rev_append]. rewrite !rev_append_app, IH.
    now rewrite string_app_assoc.
Qed.

Lemma rev_involutive (s : string) : rev (rev s) = s.
Proof.
  induction s as [|c r IH]; [reflexivity|].
  unfold rev at 2. cbn [rev_append]. rewrite rev_append_app, rev_app, IH.
  reflexivity.
Qed.

(** One step of [trimStart]: either the text does not start with white
    space and is left as it is, or a white-space character is dropped and
    the scan goes on. *)
Lemma trimStart_step (s : string) :
  (starts_ws s = false /\ trimStart s = s)
  \/ (exists k r, s = k ++ r /\ k <> EmptyString /\ trimStart s = trimStart r).
Proof.
  destruct s as [|c1 r1]; [left; split; reflexivity|].
  cbn [trimStart starts_ws]. destruct (ws1 c1).
  { right. exists (String c1 EmptyString), r1. repeat split. discriminate. }
  destruct r1 as [|c2 r2]; [left; split; reflexivity|].
  destruct (ws2 c1 c2).
  { right. exists (String c1 (String c2 EmptyString)), r2. repeat split. discriminate. }
  destruct r2 as [|c3 r3]; [left; split; reflexivity|].
  destruct (ws3 c1 c2 c3).
  { right. exists (String c1 (String c2 (String c3 EmptyString))), r3.
    repeat split. discriminate. }
  left. split; reflexivity.
Qed.

Lemma trimStart_rev_step (s : string) :
  (starts_ws_rev s = false /\ trimStart_rev s = s)
  \/ (exists k r, s = k ++ r /\ k <> EmptyString /\ trimStart_rev s = trimStart_rev r).
Proof.
  destruct s as [|c1 r1]; [left; split; reflexivity|].
  cbn [trimStart_rev starts_ws_rev]. destruct (ws1 c1).
  { right. exists (String c1 EmptyString), r1. repeat split. discriminate. }
  destruct r1 as [|c2 r2]; [left; split; reflexivity|].
  destruct (ws2 c2 c1).
  { right. exists (String c1 (String c2 EmptyString)), r2. repeat split. discriminate. }
  destruct r2 as [|c3 r3]; [left; split; reflexivity|].
  destruct (ws3 c3 c2 c1).
  { right. exists (String c1 (String c2 (String c3 EmptyString))), r3.
    repeat split. discriminate. }
  left. split; reflexivity.
Qed.

Lemma shorter_tail (k r : string) :
  k <> EmptyString -> String.length r < String.length (k ++ r).
Proof.
  destruct k as [|c k']; [congruence|]. intros _.
  cbn [append String.length]. clear c.
  induction k' as [|c k'' IH]; cbn [append String.length]; lia.
Qed.

Lemma trimStart_result_bounded (n : nat) (s : string) :
  String.length s <= n ->
  starts_ws (trimStart s) = false
  /\ exists pre, s = pre ++ trimStart s.
Proof.
  revert s. induction n as [|n IH]; intros s Hlen;
    destruct (trimStart_step s) as [[Hs Heq] | [k [r [-> [Hk Heq]]]]].
  - rewrite Heq. split; [exact Hs | now exists EmptyString].
  - pose proof (shorter_tail k r Hk). lia.
  - rewrite Heq. split; [exact Hs | now exists EmptyString].
  - pose proof (shorter_tail k r Hk) as Hlt.
    destruct (IH r ltac:(lia)) as [Hws [pre Hpre]].
    rewrite Heq. split; [exact Hws|].
    exists (k ++ pre). rewrite string_app_assoc. now rewrite <- Hpre.
Qed.

Lemma trimStart_rev_result_bounded (n : nat) (s : string) :
  String.length s <= n ->
  starts_ws_rev (trimStart_rev s) = false
  /\ exists pre, s = pre ++ trimStart_rev s.
Proof.
  revert s. induction n as [|n IH]; intros s Hlen;
    destruct (trimStart_rev_step s) as [[Hs Heq] | [k [r [-> [Hk Heq]]]]].
  - rewrite Heq. split; [exact Hs | now exists EmptyString].
  - pose proof (shorter_tail k r Hk). lia.
  - rewrite Heq. split; [exact Hs | now exists EmptyString].
  - pose proof (shorter_tail k r Hk) as Hlt.
    destruct (IH r ltac:(lia)) as [Hws [pre Hpre]].
    rewrite Heq. split; [exact Hws|].
    exists (k ++ pre). rewrite string_app_assoc. now rewrite <- Hpre.
Qed.

Lemma trimStart_fixed (s : string) : starts_ws s = false -> trimStart s = s.
Proof.
  intros H. destruct s as [|c1 r1]; [reflexivity|].
  cbn [trimStart starts_ws] in *.
  destruct (ws1 c1); [discriminate|].
  destruct r1 as [|c2 r2]; [reflexivity|].
  destruct (ws2 c1 c2); [discriminate|].
  destruct r2 as [|c3 r3]; [reflexivity|].
  destruct (ws3 c1 c2 c3); [discriminate | reflexivity].
Qed.

Lemma trimStart_rev_fixed (s : string) :
  starts_ws_rev s = false -> trimStart_rev s = s.
Proof.
  intros H. destruct s as [|c1 r1]; [reflexivity|].
  cbn [trimStart_rev starts_ws_rev] in *.
  destruct (ws1 c1); [discriminate|].
  destruct r1 as [|c2 r2]; [reflexivity|].
  destruct (ws2 c2 c1); [discriminate|].
  destruct r2 as [|c3 r3]; [reflexivity|].
  destruct (ws3 c3 c2 c1); [discriminate | reflexivity].
Qed.

(** A text that does not start with white space has no prefix that
    does. *)
Lemma starts_ws_prefix (u w : string) :
  starts_ws (u ++ w) = false -> starts_ws u = false.
Proof.
  destruct u as [|c1 [|c2 [|c3 r3]]]; cbn [append starts_ws]; intros H;
    try reflexivity.
  - apply orb_false_iff in H. destruct H as [H _]. now rewrite H.
  - apply orb_false_iff in H. destruct H as [H1 H].
    rewrite H1. cbn [orb].
    destruct w; [exact H|]. apply orb_false_iff in H. destruct H as [H2 _].
    now rewrite H2.
  - exact H.
Qed.

Lemma trimEnd_fixed (s : string) : trimEnd (trimEnd s) = trimEnd s.
Proof.
  unfold trimEnd. rewrite rev_involutive.
  destruct (trimStart_rev_result_bounded _ (rev s) (Nat.le_refl _)) as [H _].
  now rewrite (trimStart_rev_fixed _ H).
Qed.

Lemma trimEnd_prefix (s : string) : exists post, s = trimEnd s ++ post.
Proof.
  unfold trimEnd.
  destruct (trimStart_rev_result_bounded _ (rev s) (Nat.le_refl _)) as [_ [pre H]].
  exists (rev pre). rewrite <- rev_app, <- H. now rewrite rev_involutive.
Qed.

(** Trimming a trimmed text changes nothing. *)
Lemma trim_idempotent (s : string) : trim (trim s) = trim s.
Proof.
  unfold trim.
  destruct (trimStart_result_bounded _ s (Nat.le_refl _)) as [Hws _].
  destruct (trimEnd_prefix (trimStart s)) as [post Hpost].
  rewrite Hpost in Hws. apply starts_ws_prefix in Hws.
  rewrite (trimStart_fixed _ Hws). apply trimEnd_fixed.
Qed.

(** *** The bearer-token middleware *)

Lemma startsWith_split (p h : string) :
  startsWith p h = true -> h = p ++ drop (String.length p) h.
Proof.
  unfold startsWith. revert h.
  induction p as [|a p IH]; intros h H; [reflexivity|].
  destruct h as [|b h]; [discriminate|].
  cbn [String.prefix] in H. destruct (ascii_dec a b) as [->|]; [|discriminate].
  cbn [append String.length drop]. f_equal. now apply IH.
Qed.

Lemma startsWith_app (p r : string) :
  startsWith p (p ++ r) = true /\ drop (String.length p) (p ++ r) = r.
Proof.
  unfold startsWith. induction p as [|a p [IH1 IH2]];
    [split; [destruct r|]; reflexivity|].
  cbn [append String.prefix String.length drop].
  destruct (ascii_dec a a) as [_|N]; [|congruence]. now split.
Qed.

Lemma requestToken_spec (h : option string) (t : string) :
  t <> EmptyString ->
  (requestToken h = t
   <-> exists rest, h = Some ("Bearer " ++ rest) /\ trim rest = t).
Proof.
  intros Ht. split.
  - destruct h as [h|]; cbn [requestToken]; [|congruence].
    destruct (startsWith "Bearer " h) eqn:Hp; cbn [andb]; [|congruence].
    destruct (is_empty h); cbn [negb]; [congruence|].
    intros H. exists (drop 7 h). split; [|exact H].
    f_equal. exact (startsWith_split "Bearer " h Hp).
  - intros [rest [-> H]]. cbn [requestToken].
    destruct (startsWith_app "Bearer " rest) as [-> Hd].
    change (String.length "Bearer ") with 7 in Hd. rewrite Hd. exact H.
Qed.

Lemma authenticate_next (configured h : option string) :
  authenticate configured h = Next
  <-> exists t rest,
        configured = Some t /\ t <> EmptyString
        /\ h = Some ("Bearer " ++ rest) /\ trim rest = t.
Proof.
  split.
  - destruct configured as [t|]; cbn [authenticate]; [|discriminate].
    destruct (is_empty t) eqn:Ht; [discriminate|].
    assert (Hne : t <> EmptyString).
    { intros ->. discriminate. }
    destruct (is_empty (requestToken h)); cbn [orb]; [discriminate|].
    destruct (String.eqb (requestToken h) t) eqn:Heq; cbn [negb];
      [|discriminate].
    intros _. apply String.eqb_eq in Heq.
    apply (requestToken_spec h t Hne) in Heq. destruct Heq as [rest [Hh Hr]].
    now exists t, rest.
  - intros [t [rest [-> [Hne [Hh Hr]]]]]. cbn [authenticate].
    assert (Hreq : requestToken h = t).
    { apply (requestToken_spec h t Hne). now exists rest. }
    rewrite Hreq, String.eqb_refl.
    destruct t; [congruence | reflexivity].
Qed.

(** X11. The middleware hands a request on exactly when a non-empty token
    is configured and the [Authorization] header is [Bearer ] followed by
    a text that, once trimmed, is that token; every other request is
    answered by the middleware itself, with status 500 when no token is
    configured (or an empty one) and with status 401 otherwise. *)
Theorem X11_bearer_token_gate :
  forall (configured h : option string),
    (authenticate configured h = Next
     <-> exists t rest,
           configured = Some t /\ t <> EmptyString
           /\ h = Some ("Bearer " ++ rest) /\ trim rest = t)
    /\ (authenticate configured h = Deny missing_token_response
        <-> configured = None \/ configured = Some EmptyString)
    /\ (authenticate configured h = Next
        \/ authenticate configured h = Deny missing_token_response
        \/ authenticate configured h = Deny unauthorized_response).
Proof.
  intros configured h. split; [apply authenticate_next|]. split.
  - destruct configured as [t|]; cbn [authenticate].
    + destruct t as [|c t]; cbn [is_empty].
      * split; [now right | reflexivity].
      * split.
        -- destruct (_ || _)%bool; discriminate.
        -- intros [H | H]; discriminate.
    + split; [now left | reflexivity].
  - destruct configured as [t|]; cbn [authenticate]; [|now right; left].
    destruct (is_empty t); [now right; left|].
    destruct (_ || _)%bool; [now right; right | now left].
Qed.

Lemma X11_witness :
  authenticate (Some "s3cret") (Some "Bearer   s3cret ") = Next.
Proof.
  apply (proj2 (proj1 (X11_bearer_token_gate
                         (Some "s3cret") (Some "Bearer   s3cret ")))).
  exists "s3cret", "  s3cret ".
  split; [reflexivity|]. split; [discriminate|]. split; reflexivity.
Defined.

(** X12. A configured token that trimming would change (one with a space
    or a line break at either end) can be matched by no request: whatever
    the [Authorization] header, the answer is 401. *)
Theorem X12_untrimmed_token_admits_nobody :
  forall (t : string) (h : option string),
    trim t <> t ->
    authenticate (Some t) h = Deny unauthorized_response.
Proof.
  intros t h Ht.
  destruct (authenticate (Some t) h) eqn:E.
  - apply authenticate_next in E.
    destruct E as [t' [rest [Hc [_ [_ Hr]]]]]. injection Hc as <-.
    exfalso. apply Ht. rewrite <- Hr. apply trim_idempotent.
  - cbn [authenticate] in E. destruct t as [|c t].
    + exfalso. now apply Ht.
    + cbn [is_empty] in E. destruct (_ || _)%bool in E; [|discriminate].
      now injection E as <-.
Qed.

Lemma X12_witness :
  trim padded_token <> padded_token
  /\ authenticate (Some padded_token) (Some "Bearer  s3cret")
     = Deny unauthorized_response.
Proof.
  split.
  - vm_compute. discriminate.
  - apply (X12_untrimmed_token_admits_nobody padded_token
             (Some "Bearer  s3cret")).
    vm_compute. discriminate.
Defined.

(** X13. The chat handler behind the middleware reaches the backend only
    for a request that carries the configured token: when the backend has
    been called, the header is [Bearer ] followed by a text whose trimmed
    form is the configured, non-empty token.  A request the middleware
    answers itself leaves the backend alone, and one it hands on is
    answered as the handler alone would. *)
Theorem X13_backend_is_reached_only_with_the_token :
  forall (b : bindings) (h : option string) (request : string),
    (calls (guardedChatCompletions b h request) <> [] ->
     exists rest,
       h = Some ("Bearer " ++ rest)
       /\ AUTH_TOKEN b = Some (trim rest)
       /\ trim rest <> EmptyString)
    /\ (authenticate (AUTH_TOKEN b) h = Next ->
        guardedChatCompletions b h request = chatCompletions (AI b) request).
Proof.
  intros b h request. unfold guardedChatCompletions, guarded. split.
  - destruct (authenticate (AUTH_TOKEN b) h) eqn:E.
    + intros _. apply authenticate_next in E.
      destruct E as [t [rest [Hc [Hne [Hh Hr]]]]].
      exists rest. rewrite Hr. now repeat split.
    + intros H. now contradiction H.
  - now intros ->.
Qed.

Lemma X13_witness :
  exists rest,
    Some "Bearer s3cret  " = Some ("Bearer " ++ rest)
    /\ AUTH_TOKEN sample_bindings = Some (trim rest)
    /\ trim rest <> EmptyString.
Proof.
  apply (proj1 (X13_backend_is_reached_only_with_the_token
                  sample_bindings (Some "Bearer s3cret  ")
                  (dq "{'messages':[{'role':'user','content':'hello'}]}"))).
  vm_compute. discriminate.
Defined.

(** *** The earlier [POST /chat] handler *)

Lemma legacyChat_parsed (e : env) (request : string) (body : value) :
  JSON.parse request = Some body ->
  is_nullish body = false ->
  legacyChat e request
  = match legacy_messages body with
    | [] =>
        {| calls := [];
           result :=
             Return (legacy_error
                       "Provide `prompt` or non-empty `messages`." 400) |}
    | messages =>
        {| calls := [(requested_model body, VObj [("messages", VArr messages)])];
           result :=
             Return
               match AI_run e (requested_model body)
                       (VObj [("messages", VArr messages)]) with
               | Return answer =>
                   JsonResponse 200
                     (VObj [("model", requested_model body); ("result", answer)])
               | Throw err =>
                   legacy_error
                     match err with
                     | ErrorObject _ m => m
                     | OtherThrown => "Workers AI call failed."
                     end 500
               end |}
    end.
Proof.
  intros Hparse Hbody. unfold legacyChat, get_or_throw.
  rewrite Hparse, Hbody. reflexivity.
Qed.

Lemma legacy_messages_empty (body : value) :
  legacy_messages body = []
  <-> (forall m ms, get body "messages" <> VArr (m :: ms))
      /\ truthy (get body "system") = false
      /\ truthy (get body "prompt") = false.
Proof.
  unfold legacy_messages, optional_message. split.
  - intros H. destruct (get body "messages") as [| | | | |[|m ms]| |];
      try discriminate H;
      (destruct (truthy (get body "system")); [discriminate H|]);
      (destruct (truthy (get body "prompt")); [discriminate H|]);
      (split; [intros ? ?; discriminate | split; reflexivity]).
  - intros [Hm [-> ->]].
    destruct (get body "messages") as [| | | | |[|m ms]| |]; try reflexivity.
    now contradiction (Hm m ms).
Qed.

(** X14. The earlier [POST /chat] handler, for a body that parses to
    something other than [null]: it never calls the backend with an empty
    message list, and answers 400 without a call exactly when [messages]
    is not a non-empty array and neither [system] nor [prompt] is truthy;
    a non-empty [messages] array is sent on as it came, whatever [prompt]
    and [system] are, and without the checks of the chat-completions
    handler: a list that handler rejects is still sent to the backend
    here.  The answer is always a JSON response with status 200, 400 or
    500. *)
Theorem X14_legacy_chat_sends_messages_unchecked :
  forall (e : env) (request : string) (body : value),
    JSON.parse request = Some body ->
    is_nullish body = false ->
    (forall model inputs,
        In (model, inputs) (calls (legacyChat e request)) ->
        model = requested_model body
        /\ exists m ms,
             legacy_messages body = m :: ms
             /\ inputs = VObj [("messages", VArr (m :: ms))])
    /\ (calls (legacyChat e request) = []
        <-> (forall m ms, get body "messages" <> VArr (m :: ms))
            /\ truthy (get body "system") = false
            /\ truthy (get body "prompt") = false)
    /\ (forall m ms,
          get body "messages" = VArr (m :: ms) ->
          calls (legacyChat e request)
          = [(requested_model body, VObj [("messages", VArr (m :: ms))])]
          /\ (existsb invalid_message (m :: ms) = true ->
              calls (chatCompletions e request) = []))
    /\ exists code payload,
         result (legacyChat e request) = Return (JsonResponse code payload)
         /\ (code = 400%Z <-> calls (legacyChat e request) = [])
         /\ (code = 200%Z \/ code = 400%Z \/ code = 500%Z).
Proof.
  intros e request body Hparse Hbody.
  rewrite (legacyChat_parsed e request body Hparse Hbody).
  pose proof (legacy_messages_empty body) as Hempty.
  split; [|split; [|split]].
  - intros model inputs Hin.
    destruct (legacy_messages body) as [|m ms]; [contradiction Hin|].
    destruct Hin as [Heq | []]. injection Heq as <- <-.
    split; [reflexivity|]. now exists m, ms.
  - rewrite <- Hempty.
    destruct (legacy_messages body); split; intros H; try reflexivity;
      discriminate H.
  - intros m ms Hm. split.
    + unfold legacy_messages. rewrite Hm. reflexivity.
    + intros Hbad.
      rewrite (chatCompletions_parsed e request body (m :: ms) Hparse Hm).
      rewrite Hbad. reflexivity.
  - destruct (legacy_messages body) as [|m ms].
    + exists 400%Z. eexists. split; [reflexivity|].
      split; [tauto | now right; left].
    + cbn [result calls].
      destruct (AI_run e _ _) as [answer | err].
      * exists 200%Z. eexists. split; [reflexivity|].
        split; [split; intros H; discriminate H | now left].
      * exists 500%Z. eexists. split; [reflexivity|].
        split; [split; intros H; discriminate H | now right; right].
Qed.

Lemma X14_witness :
  calls (legacyChat (constant_backend (VObj [("response", VStr "hi")]))
           (dq "{'prompt':'hello','messages':[{'role':'user','content':'   '}]}"))
  = [ (VStr DEFAULT_MODEL,
       VObj [("messages",
              VArr [VObj [("role", VStr "user"); ("content", VStr "   ")]])]) ]
  /\ calls (chatCompletions (constant_backend (VObj [("response", VStr "hi")]))
              (dq "{'prompt':'hello','messages':[{'role':'user','content':'   '}]}"))
     = [].
Proof.
  pose proof (X14_legacy_chat_sends_messages_unchecked
                (constant_backend (VObj [("response", VStr "hi")]))
                (dq "{'prompt':'hello','messages':[{'role':'user','content':'   '}]}")
                (VObj [("prompt", VStr "hello");
                       ("messages",
                        VArr [VObj [("role", VStr "user");
                                    ("content", VStr "   ")]])])
                ltac:(reflexivity) ltac:(reflexivity)) as [_ [_ [H _]]].
  destruct (H (VObj [("role", VStr "user"); ("content", VStr "   ")]) []
              ltac:(reflexivity)) as [H1 H2].
  split; [exact H1 | apply H2; reflexivity].
Defined.

(** *** Text that no blank line ends *)

(** X15. Bytes that hold no blank line are never cut into events: when
    the reads are bytes below 128 and, put end to end, are a text without
    two line breaks in a row, that text is forwarded whole and as it is,
    as the content of one chunk, by the flush that follows the last read
    (and dropped when it is blank), whatever it holds; a last event that
    lacks its closing blank line is thus forwarded as raw text, [data:]
    and all, and is not parsed.  The stop chunk and the sentinel
    follow. *)
Theorem X15_text_without_blank_line_is_flushed_raw :
  forall (clock : nat -> Z) (id : string) (model : value)
         (reads : list string) (tick0 : nat),
    ascii_only (String.concat EmptyString reads) = true ->
    first_match sep_blank (String.concat EmptyString reads) = None ->
    toOpenAiSseFromAiStream clock id model
      {| chunks := map ChunkBytes reads; failure := None |} tick0
    = {| frames :=
           render clock id model tick0
             ((if is_empty (trim (String.concat EmptyString reads))
               then []
               else [Content (String.concat EmptyString reads)])
              ++ [Stop; Sentinel])%list;
         ending := Closed |}.
Proof.
  intros clock id model reads tick0 Hascii Hplain.
  rewrite normalizer_renders_emissions.
  assert (Hone : emissions {| chunks := [ChunkBytes (String.concat EmptyString reads)];
                              failure := None |}
                 = (((if is_empty (trim (String.concat EmptyString reads))
                      then []
                      else [Content (String.concat EmptyString reads)])
                     ++ [Stop; Sentinel])%list, Closed)).
  { unfold emissions. cbn [chunks failure reads_emissions read_emissions].
    destruct (decode_ascii _ Utf8.fresh eq_refl Hascii) as [d' [-> _]].
    cbv beta iota.
    change (EmptyString ++ String.concat EmptyString reads)
      with (String.concat EmptyString reads).
    unfold split. rewrite (split_no_match sep_blank _ EmptyString Hplain).
    cbn [rev_append pop flat_map app]. cbv beta iota.
    unfold flush_emissions.
    destruct (is_empty (trim (String.concat EmptyString reads))) eqn:Hblank;
      [reflexivity|].
    destruct (String.concat EmptyString reads) as [|c r];
      [discriminate Hblank | reflexivity]. }
  destruct reads as [|r rest].
  - reflexivity.
  - now rewrite (emissions_joined (r :: rest)), Hone
      by (discriminate || exact Hascii).
Qed.

Lemma X15_witness :
  toOpenAiSseFromAiStream (fun n => (1700000000123 + Z.of_nat n)%Z)
    "chatcmpl-1" (VStr "m")
    {| chunks := map ChunkBytes unterminated_reads; failure := None |} 0
  = {| frames :=
         render (fun n => (1700000000123 + Z.of_nat n)%Z) "chatcmpl-1" (VStr "m") 0
           [Content (dq "data: {'response':'Hel'}" ++ nl ++ dq "data: {'response':'lo'}");
            Stop; Sentinel];
       ending := Closed |}.
Proof.
  apply (X15_text_without_blank_line_is_flushed_raw
           (fun n => (1700000000123 + Z.of_nat n)%Z) "chatcmpl-1" (VStr "m")
           unterminated_reads 0).
  - reflexivity.
  - reflexivity.
Defined.

(** *** A frame is one event *)

Lemma no_break_app (a b : string) :
  no_break (a ++ b) = (no_break a && no_break b)%bool.
Proof.
  induction a as [|c r IH]; [reflexivity|].
  cbn [append no_break]. rewrite IH. now rewrite andb_assoc.
Qed.

Lemma no_break_head (c : ascii) (r : string) :
  no_break (String c r) = true ->
  Ascii.eqb c LF = false /\ Ascii.eqb c CR = false /\ no_break r = true.
Proof.
  cbn [no_break]. intros H. apply andb_true_iff in H. destruct H as [H1 H2].
  apply negb_true_iff, orb_false_iff in H1. tauto.
Qed.

Lemma sep_line_no_break (c : ascii) (r : string) :
  Ascii.eqb c LF = false -> Ascii.eqb c CR = false ->
  sep_line (String c r) = None /\ sep_blank (String c r) = None.
Proof.
  intros H1 H2. unfold sep_blank, sep_line. now rewrite H1, H2.
Qed.

Lemma first_match_no_break (s : string) :
  no_break s = true ->
  first_match sep_line s = None /\ first_match sep_blank s = None.
Proof.
  induction s as [|c r IH]; [now split|].
  intros H. destruct (no_break_head c r H) as [H1 [H2 H3]].
  destruct (sep_line_no_break c r H1 H2) as [E1 E2].
  destruct (IH H3) as [F1 F2].
  cbn [first_match]. now rewrite E1, E2, F1, F2.
Qed.

(** A text without line break, closed by a blank line, is cut off as one
    piece. *)
Lemma split_event (body rest cur : string) :
  no_break body = true ->
  split_from sep_blank (body ++ nl ++ nl ++ rest) 0 cur
  = rev_append cur body :: split_from sep_blank rest 0 EmptyString.
Proof.
  revert cur. induction body as [|c r IH]; intros cur H.
  - reflexivity.
  - destruct (no_break_head c r H) as [H1 [H2 H3]].
    change (String c r ++ nl ++ nl ++ rest)
      with (String c (r ++ nl ++ nl ++ rest)).
    cbn [split_from].
    rewrite (proj2 (sep_line_no_break c _ H1 H2)).
    now rewrite (IH (String c cur) H3).
Qed.

Lemma append_empty_l (s : string) : EmptyString ++ s = s.
Proof. reflexivity. Qed.

Lemma split_events (bodies : list string) (tail : string) :
  Forall (fun b => no_break b = true) bodies ->
  no_break tail = true ->
  pop (split sep_blank
         (String.concat EmptyString (map (fun b => b ++ nl ++ nl) bodies)
          ++ tail))
  = (bodies, Some tail).
Proof.
  unfold split. intros Hb Ht. induction Hb as [|b rest Hb _ IH].
  - cbn [map String.concat]. rewrite append_empty_l.
    now rewrite (split_no_match sep_blank tail EmptyString
                   (proj2 (first_match_no_break tail Ht))).
  - cbn [map]. rewrite concat_cons, !string_app_assoc.
    rewrite (split_event b _ EmptyString Hb). cbn [rev_append].
    rewrite pop_cons by apply split_from_nonempty.
    now rewrite IH.
Qed.

(** What [JSON.stringify] writes holds no line break. *)

Lemma hex_digit_no_break (n : N) :
  (n < 16)%N -> no_break (String (JSON.hex_digit n) EmptyString) = true.
Proof.
  intros H. destruct n as [|p]; [reflexivity|].
  do 4 (destruct p as [p|p|]; try reflexivity); exfalso; lia.
Qed.

Lemma unicode_escape_no_break (cu : N) :
  (cu < 65536)%N -> no_break (JSON.unicode_escape cu) = true.
Proof.
  intros H. unfold JSON.unicode_escape.
  assert (H1 : (cu / 4096 < 16)%N) by (apply N.Div0.div_lt_upper_bound; lia).
  assert (H2 : ((cu / 256) mod 16 < 16)%N) by (apply N.mod_lt; lia).
  assert (H3 : ((cu / 16) mod 16 < 16)%N) by (apply N.mod_lt; lia).
  assert (H4 : (cu mod 16 < 16)%N) by (apply N.mod_lt; lia).
  apply hex_digit_no_break in H1, H2, H3, H4.
  cbn [no_break] in *.
  rewrite andb_true_r in H1, H2, H3, H4.
  change (Ascii.eqb "\" LF || Ascii.eqb "\" CR)%bool with false.
  change (Ascii.eqb "u" LF || Ascii.eqb "u" CR)%bool with false.
  now rewrite H1, H2, H3, H4.
Qed.

Lemma escape_byte_no_break (c : ascii) : no_break (JSON.escape_byte c) = true.
Proof. destruct c as [[] [] [] [] [] [] [] []]; reflexivity. Qed.

Lemma code_bound (c : ascii) : (code c < 256)%N.
Proof. apply N_ascii_bounded. Qed.

Lemma surrogate_of_bound (b2 b3 : ascii) : (Utf8.surrogate_of b2 b3 < 65536)%N.
Proof.
  unfold Utf8.surrogate_of.
  pose proof (code_bound b2). pose proof (code_bound b3). lia.
Qed.

Lemma escape_no_break_bounded (n : nat) (s : string) :
  String.length s <= n -> no_break (JSON.escape s) = true.
Proof.
  revert s. induction n as [|n IH]; intros s Hlen.
  - destruct s; [reflexivity | simpl in Hlen; lia].
  - destruct s as [|b1 r1]; [reflexivity|].
    assert (Hr1 : no_break (JSON.escape r1) = true)
      by (apply IH; simpl in Hlen; lia).
    destruct r1 as [|b2 [|b3 r3]].
    + cbn [JSON.escape]. rewrite no_break_app, escape_byte_no_break. reflexivity.
    + change (JSON.escape (String b1 (String b2 EmptyString)))
        with (JSON.escape_byte b1 ++ JSON.escape (String b2 EmptyString)).
      now rewrite no_break_app, escape_byte_no_break, Hr1.
    + change (JSON.escape (String b1 (String b2 (String b3 r3))))
        with (if Utf8.is_surrogate_bytes b1 b2
              then JSON.unicode_escape (Utf8.surrogate_of b2 b3) ++ JSON.escape r3
              else JSON.escape_byte b1 ++ JSON.escape (String b2 (String b3 r3))).
      destruct (Utf8.is_surrogate_bytes b1 b2).
      * rewrite no_break_app, unicode_escape_no_break by apply surrogate_of_bound.
        apply IH. simpl in Hlen |- *. lia.
      * now rewrite no_break_app, escape_byte_no_break, Hr1.
Qed.

Lemma quote_no_break (s : string) : no_break (JSON.quote s) = true.
Proof.
  unfold JSON.quote.
  change (String DQUOTE (JSON.escape s ++ String DQUOTE EmptyString))
    with (String DQUOTE EmptyString ++ JSON.escape s ++ String DQUOTE EmptyString).
  rewrite !no_break_app, (escape_no_break_bounded _ s (Nat.le_refl _)).
  reflexivity.
Qed.

Lemma string_of_uint_no_break (u : Decimal.uint) :
  no_break (NilEmpty.string_of_uint u) = true.
Proof. induction u; cbn [NilEmpty.string_of_uint no_break]; auto. Qed.

Lemma digits_of_N_no_break (n : N) : no_break (digits_of_N n) = true.
Proof.
  unfold digits_of_N, NilZero.string_of_uint.
  destruct (N.to_uint n); try reflexivity;
    apply (string_of_uint_no_break (_ _)).
Qed.

Lemma fraction_digits_no_break (fuel : nat) (r d : Z) :
  no_break (fraction_digits fuel r d) = true.
Proof.
  revert r. induction fuel as [|k IH]; intros r; cbn [fraction_digits].
  - reflexivity.
  - destruct (r =? 0)%Z; [reflexivity|].
    now rewrite no_break_app, digits_of_N_no_break, IH.
Qed.

Lemma to_string_no_break (a : number) : no_break (to_string a) = true.
Proof.
  destruct a as [x | | []]; try reflexivity.
  unfold to_string. rewrite !no_break_app, digits_of_N_no_break.
  destruct (Qnum x <? 0)%Z;
    (destruct (is_empty _); [reflexivity|]);
    rewrite no_break_app, fraction_digits_no_break; reflexivity.
Qed.

Lemma concat_no_break (sep : string) (parts : list string) :
  no_break sep = true ->
  Forall (fun p => no_break p = true) parts ->
  no_break (String.concat sep parts) = true.
Proof.
  intros Hsep. induction 1 as [|p rest Hp Hrest IH]; [reflexivity|].
  destruct rest as [|q more]; [exact Hp|].
  change (String.concat sep (p :: q :: more))
    with (p ++ sep ++ String.concat sep (q :: more)).
  now rewrite !no_break_app, Hp, Hsep, IH.
Qed.

Lemma stringify_no_break (v : value) :
  no_break (interpolate (JSON.stringify v)) = true.
Proof.
  induction v as [ | | b | n | s | items IH | fields IH | rs]
    using value_induction; try reflexivity.
  - now destruct b.
  - cbn [JSON.stringify interpolate].
    destruct (isFinite n); [apply to_string_no_break | reflexivity].
  - apply quote_no_break.
  - cbn [JSON.stringify interpolate]. rewrite !no_break_app.
    rewrite concat_no_break; [reflexivity | reflexivity |].
    induction IH as [|x rest Hx _ IHrest]; cbn [map]; constructor; [|exact IHrest].
    destruct (JSON.stringify x); [exact Hx | reflexivity].
  - cbn [JSON.stringify interpolate]. rewrite !no_break_app.
    rewrite concat_no_break; [reflexivity | reflexivity |].
    induction IH as [|[k x] rest Hx _ IHrest]; cbn [flat_map]; [constructor|].
    cbn [snd fst] in *. destruct (JSON.stringify x).
    + constructor; [|exact IHrest].
      cbn [interpolate] in Hx. now rewrite !no_break_app, quote_no_break, Hx.
    + exact IHrest.
Qed.

(** *** Text of bytes below 128 *)

Lemma not_surrogate_lead (b1 b2 : ascii) :
  (code b1 < 128)%N -> Utf8.is_surrogate_bytes b1 b2 = false.
Proof.
  intros H. unfold Utf8.is_surrogate_bytes.
  replace (N.eqb (code b1) 237) with false; [reflexivity|].
  symmetry. apply N.eqb_neq. lia.
Qed.

(** [TextEncoder.encode] leaves such a text as it is. *)
Lemma encode_ascii (s : string) : ascii_only s = true -> Utf8.encode s = s.
Proof.
  induction s as [|b1 r1 IH]; [reflexivity|].
  intros H. destruct (ascii_only_head b1 r1 H) as [Hb Hr].
  specialize (IH Hr).
  destruct r1 as [|b2 [|b3 r3]].
  - reflexivity.
  - change (Utf8.encode (String b1 (String b2 EmptyString)))
      with (String b1 (Utf8.encode (String b2 EmptyString))).
    now rewrite IH.
  - change (Utf8.encode (String b1 (String b2 (String b3 r3))))
      with (if Utf8.is_surrogate_bytes b1 b2
            then Utf8.replacement ++ Utf8.encode r3
            else String b1 (Utf8.encode (String b2 (String b3 r3)))).
    now rewrite (not_surrogate_lead b1 b2 Hb), IH.
Qed.

(** *** Text that trimming leaves alone *)

Lemma no_multibyte_space_before (c x y : ascii) :
  (code c < 128)%N -> ws2 x c = false /\ ws3 y x c = false.
Proof.
  intros H. unfold ws2, ws3, byte_in.
  assert (E : forall k, (128 <= k)%N -> N.eqb (code c) k = false)
    by (intros k Hk; apply N.eqb_neq; lia).
  rewrite !E by lia.
  replace (N.leb 128 (code c)) with false
    by (symmetry; apply N.leb_gt; lia).
  cbn [andb orb]. now rewrite !andb_false_r.
Qed.

Lemma no_multibyte_space_after (c x y : ascii) :
  (code c < 128)%N -> ws2 c x = false /\ ws3 c x y = false.
Proof.
  intros H. unfold ws2, ws3.
  assert (E : forall k, (128 <= k)%N -> N.eqb (code c) k = false)
    by (intros k Hk; apply N.eqb_neq; lia).
  rewrite !E by lia. now split.
Qed.

Lemma starts_ws_plain (c : ascii) (r : string) :
  (code c < 128)%N -> ws1 c = false -> starts_ws (String c r) = false.
Proof.
  intros Hc Hw. cbn [starts_ws]. rewrite Hw.
  destruct r as [|c2 [|c3 r3]]; [reflexivity| |].
  - now rewrite (proj1 (no_multibyte_space_after c c2 c2 Hc)).
  - now rewrite (proj1 (no_multibyte_space_after c c2 c3 Hc)),
                (proj2 (no_multibyte_space_after c c2 c3 Hc)).
Qed.

Lemma starts_ws_rev_plain (c : ascii) (r : string) :
  (code c < 128)%N -> ws1 c = false -> starts_ws_rev (String c r) = false.
Proof.
  intros Hc Hw. cbn [starts_ws_rev]. rewrite Hw.
  destruct r as [|c2 [|c3 r3]]; [reflexivity| |].
  - now rewrite (proj1 (no_multibyte_space_before c c2 c2 Hc)).
  - now rewrite (proj1 (no_multibyte_space_before c c2 c3 Hc)),
                (proj2 (no_multibyte_space_before c c2 c3 Hc)).
Qed.

(** A text that starts and ends with a byte below 128 that is no white
    space is its own trimmed form. *)
Lemma trim_clean (c1 c2 : ascii) (middle : string) :
  (code c1 < 128)%N -> ws1 c1 = false ->
  (code c2 < 128)%N -> ws1 c2 = false ->
  trim (String c1 (middle ++ String c2 EmptyString))
  = String c1 (middle ++ String c2 EmptyString).
Proof.
  intros H1 W1 H2 W2. unfold trim.
  rewrite (trimStart_fixed _ (starts_ws_plain c1 _ H1 W1)).
  unfold trimEnd.
  assert (E : rev (String c1 (middle ++ String c2 EmptyString))
              = String c2 (rev (String c1 middle))).
  { change (String c1 (middle ++ String c2 EmptyString))
      with (String c1 middle ++ String c2 EmptyString).
    now rewrite rev_app. }
  rewrite E, (trimStart_rev_fixed _ (starts_ws_rev_plain c2 _ H2 W2)), <- E.
  apply rev_involutive.
Qed.

(** *** Reading back what [JSON.stringify] wrote *)

(** The escape of a byte is read back as that byte. *)
Lemma lex_escape_byte (c : ascii) (rest acc : string) (out : list JSON.token) :
  JSON.lex (JSON.escape_byte c ++ rest) (JSON.LStr acc) out
  = JSON.lex rest (JSON.LStr (String c acc)) out.
Proof. destruct c as [[] [] [] [] [] [] [] []]; reflexivity. Qed.

Lemma escape_ascii_step (c : ascii) (r : string) :
  (code c < 128)%N ->
  JSON.escape (String c r) = JSON.escape_byte c ++ JSON.escape r.
Proof.
  intros H. destruct r as [|b2 [|b3 r3]]; try reflexivity.
  change (JSON.escape (String c (String b2 (String b3 r3))))
    with (if Utf8.is_surrogate_bytes c b2
          then JSON.unicode_escape (Utf8.surrogate_of b2 b3) ++ JSON.escape r3
          else JSON.escape_byte c ++ JSON.escape (String b2 (String b3 r3))).
  now rewrite (not_surrogate_lead c b2 H).
Qed.

Lemma lex_escape (s rest acc : string) (out : list JSON.token) :
  ascii_only s = true ->
  JSON.lex (JSON.escape s ++ rest) (JSON.LStr acc) out
  = JSON.lex rest (JSON.LStr (rev_append s acc)) out.
Proof.
  revert acc. induction s as [|c r IH]; intros acc H; [reflexivity|].
  destruct (ascii_only_head c r H) as [Hc Hr].
  rewrite (escape_ascii_step c r Hc), string_app_assoc, lex_escape_byte.
  now rewrite (IH _ Hr).
Qed.

(** A string literal is read back as the string. *)
Lemma lex_quote (s rest : string) (out : list JSON.token) :
  ascii_only s = true ->
  JSON.lex (JSON.quote s ++ rest) (JSON.LOut EmptyString) out
  = JSON.lex rest (JSON.LOut EmptyString) (JSON.TString s :: out).
Proof.
  intros H. unfold JSON.quote.
  change (String DQUOTE (JSON.escape s ++ String DQUOTE EmptyString) ++ rest)
    with (String DQUOTE ((JSON.escape s ++ String DQUOTE EmptyString) ++ rest)).
  rewrite string_app_assoc.
  change (JSON.lex (String DQUOTE (JSON.escape s ++ String DQUOTE EmptyString ++ rest))
            (JSON.LOut EmptyString) out)
    with (JSON.lex (JSON.escape s ++ String DQUOTE rest) (JSON.LStr EmptyString) out).
  rewrite (lex_escape s _ EmptyString out H).
  change (JSON.lex (String DQUOTE rest) (JSON.LStr (rev_append s EmptyString)) out)
    with (JSON.lex rest (JSON.LOut EmptyString) (JSON.TString (rev (rev s)) :: out)).
  now rewrite rev_involutive.
Qed.

(** *** How whole numbers are written and read *)

Lemma span_digits_digit (c : ascii) (r : string) :
  is_digit c = true ->
  span_digits (String c r)
  = (String c (fst (span_digits r)), snd (span_digits r)).
Proof.
  intros H. cbn [span_digits]. rewrite H. now destruct (span_digits r).
Qed.

Lemma span_digits_uint (u : Decimal.uint) :
  span_digits (NilEmpty.string_of_uint u)
  = (NilEmpty.string_of_uint u, EmptyString).
Proof.
  induction u; cbn [NilEmpty.string_of_uint]; [reflexivity|..];
    rewrite span_digits_digit by reflexivity; now rewrite IHu.
Qed.

(** The digits of a natural number: at least one, and no leading zero
    but for zero itself. *)
Lemma digits_shape (n : N) :
  exists c r,
    digits_of_N n = String c r
    /\ is_digit c = true
    /\ span_digits r = (r, EmptyString)
    /\ (c = "0"%char -> r = EmptyString).
Proof.
  unfold digits_of_N.
  pose proof (DecimalN.Unsigned.to_of (N.to_uint n)) as H.
  rewrite DecimalN.Unsigned.of_to in H. unfold Decimal.unorm in H.
  pose proof (DecimalFacts.nzhead_nonzero (N.to_uint n)) as Hnz.
  destruct (Decimal.nzhead (N.to_uint n)) as [|u|u|u|u|u|u|u|u|u|u];
    rewrite H; cbn [NilZero.string_of_uint NilEmpty.string_of_uint].
  1: { exists "0"%char, EmptyString. repeat split. }
  1: { now contradiction (Hnz u). }
  all: eexists; eexists; split; [reflexivity|]; split; [reflexivity|];
    split; [apply span_digits_uint | discriminate].
Qed.

Lemma to_string_of_Z (z : Z) :
  to_string (of_Z z)
  = (if (z <? 0)%Z then "-" else EmptyString)
    ++ digits_of_N (Z.to_N (Z.abs z)).
Proof.
  unfold to_string, of_Z, inject_Z. cbn [Qnum Qden].
  rewrite Z.div_1_r, Z.mod_1_r.
  change (fraction_digits 1100 0 1) with EmptyString.
  cbn [is_empty]. now rewrite append_empty_r.
Qed.

Lemma floor_cases (a : number) :
  (exists z, floor a = of_Z z) \/ isFinite (floor a) = false.
Proof. destruct a as [x | | s]; [left; now exists (Qfloor x) | now right..]. Qed.

Lemma lex_digit (c : ascii) (r atom : string) (out : list JSON.token) :
  is_digit c = true ->
  JSON.lex (String c r) (JSON.LOut atom) out
  = JSON.lex r (JSON.LOut (String c atom)) out.
Proof.
  destruct c as [[] [] [] [] [] [] [] []]; intros H; vm_compute in H;
    first [discriminate H | reflexivity].
Qed.

Lemma span_digits_all (c : ascii) (r : string) :
  span_digits (String c r) = (String c r, EmptyString) ->
  is_digit c = true /\ span_digits r = (r, EmptyString).
Proof.
  cbn [span_digits]. destruct (is_digit c); [|discriminate].
  destruct (span_digits r) as [ds rest]. intros H. injection H as -> ->.
  now split.
Qed.

Lemma lex_digits (s r atom : string) (out : list JSON.token) :
  span_digits s = (s, EmptyString) ->
  JSON.lex (s ++ r) (JSON.LOut atom) out
  = JSON.lex r (JSON.LOut (rev_append s atom)) out.
Proof.
  revert atom. induction s as [|c s' IH]; intros atom H; [reflexivity|].
  destruct (span_digits_all c s' H) as [Hc Hs].
  change (String c s' ++ r) with (String c (s' ++ r)).
  rewrite (lex_digit c _ atom out Hc). now rewrite (IH _ Hs).
Qed.

Lemma rev_rev_append (s acc : string) : rev (rev_append s acc) = rev acc ++ s.
Proof. now rewrite rev_append_app, rev_app, rev_involutive. Qed.

Lemma rev_append_nonempty (s acc : string) :
  acc <> EmptyString -> rev_append s acc <> EmptyString.
Proof.
  revert acc. induction s as [|c r IH]; intros acc H; [exact H|].
  cbn [rev_append]. apply IH. discriminate.
Qed.

Lemma lex_atom_comma (atom rest : string) (out : list JSON.token) :
  atom <> EmptyString ->
  JSON.lex (String "," rest) (JSON.LOut atom) out
  = JSON.lex rest (JSON.LOut EmptyString)
      (JSON.TComma :: JSON.TAtom (rev atom) :: out).
Proof. destruct atom; [congruence | reflexivity]. Qed.

Lemma digit_is_no_letter (c : ascii) :
  is_digit c = true ->
  Ascii.eqb c "t" = false /\ Ascii.eqb c "f" = false /\ Ascii.eqb c "n" = false.
Proof.
  destruct c as [[] [] [] [] [] [] [] []]; intros H; vm_compute in H;
    first [discriminate H | repeat split].
Qed.

Lemma of_json_literal_unsigned (c : ascii) (r : string) :
  is_digit c = true -> span_digits r = (r, EmptyString) ->
  (c = "0"%char -> r = EmptyString) ->
  exists n, of_json_literal (String c r) = Some n.
Proof.
  intros Hc Hr Hz.
  assert (Hs : span_digits (String c r) = (String c r, EmptyString))
    by (rewrite (span_digits_digit c r Hc), Hr; reflexivity).
  assert (Hl : read_literal (String c r)
               = Some {| lit_int := String c r; lit_point := false;
                         lit_frac := EmptyString; lit_exp := 0 |}).
  { unfold read_literal. rewrite Hs. reflexivity. }
  revert Hl Hz.
  destruct c as [[] [] [] [] [] [] [] []]; vm_compute in Hc;
    try discriminate Hc; intros Hl Hz; unfold of_json_literal; rewrite Hl;
    cbn [lit_int lit_point lit_frac negb is_empty orb andb];
    try (eexists; reflexivity).
  rewrite (Hz eq_refl). eexists; reflexivity.
Qed.

Lemma of_json_literal_signed (c : ascii) (r : string) :
  is_digit c = true -> span_digits r = (r, EmptyString) ->
  (c = "0"%char -> r = EmptyString) ->
  exists n, of_json_literal (String "-" (String c r)) = Some n.
Proof.
  intros Hc Hr Hz.
  assert (Hs : span_digits (String c r) = (String c r, EmptyString))
    by (rewrite (span_digits_digit c r Hc), Hr; reflexivity).
  assert (Hl : read_literal (String c r)
               = Some {| lit_int := String c r; lit_point := false;
                         lit_frac := EmptyString; lit_exp := 0 |}).
  { unfold read_literal. rewrite Hs. reflexivity. }
  unfold of_json_literal. rewrite Hl.
  cbn [lit_int lit_point lit_frac negb is_empty orb andb].
  revert Hz.
  destruct c as [[] [] [] [] [] [] [] []]; vm_compute in Hc;
    try discriminate Hc; intros Hz; try (eexists; reflexivity).
  rewrite (Hz eq_refl). eexists; reflexivity.
Qed.

(** What is written for the [created] field, a whole number or [null],
    is read back as one atom, which has a value. *)
Lemma created_atom (a : number) :
  (exists v,
      JSON.atom_value (if isFinite (floor a) then to_string (floor a) else "null")
      = Some v)
  /\ forall rest out,
       JSON.lex ((if isFinite (floor a) then to_string (floor a) else "null")
                 ++ String "," rest) (JSON.LOut EmptyString) out
       = JSON.lex rest (JSON.LOut EmptyString)
           (JSON.TComma
            :: JSON.TAtom (if isFinite (floor a) then to_string (floor a) else "null")
            :: out).
Proof.
  destruct (floor_cases a) as [[z Hz] | Hinf].
  2:{ rewrite Hinf. split; [now exists VNull | reflexivity]. }
  rewrite Hz. change (isFinite (of_Z z)) with true. cbv iota.
  rewrite to_string_of_Z.
  destruct (digits_shape (Z.to_N (Z.abs z))) as [c [r [-> [Hc [Hr Hzero]]]]].
  assert (Hs : span_digits (String c r) = (String c r, EmptyString))
    by (rewrite (span_digits_digit c r Hc), Hr; reflexivity).
  destruct (digit_is_no_letter c Hc) as [Nt [Nf Nn]].
  destruct (z <? 0)%Z.
  - change ("-" ++ String c r) with (String "-" (String c r)). split.
    + destruct (of_json_literal_signed c r Hc Hr Hzero) as [n Hn].
      exists (VNum n). unfold JSON.atom_value. rewrite Hn. reflexivity.
    + intros rest out.
      change (JSON.lex (String "-" (String c r) ++ String "," rest)
                (JSON.LOut EmptyString) out)
        with (JSON.lex (String c r ++ String "," rest) (JSON.LOut "-") out).
      rewrite (lex_digits _ _ _ _ Hs), lex_atom_comma
        by (cbn [rev_append]; apply rev_append_nonempty; discriminate).
      now rewrite rev_rev_append.
  - change (EmptyString ++ String c r) with (String c r). split.
    + destruct (of_json_literal_unsigned c r Hc Hr Hzero) as [n Hn].
      exists (VNum n). unfold JSON.atom_value. rewrite Hn.
      cbn [String.eqb]. now rewrite Nt, Nf, Nn.
    + intros rest out.
      rewrite (lex_digits _ _ _ _ Hs), lex_atom_comma
        by (cbn [rev_append]; apply rev_append_nonempty; discriminate).
      now rewrite rev_rev_append.
Qed.

(** The punctuation and the constant atoms, one step each. *)
Lemma lex_open_brace (rest : string) (out : list JSON.token) :
  JSON.lex ("{" ++ rest) (JSON.LOut EmptyString) out
  = JSON.lex rest (JSON.LOut EmptyString) (JSON.TLBrace :: out).
Proof. reflexivity. Qed.

Lemma lex_close_brace (rest : string) (out : list JSON.token) :
  JSON.lex ("}" ++ rest) (JSON.LOut EmptyString) out
  = JSON.lex rest (JSON.LOut EmptyString) (JSON.TRBrace :: out).
Proof. reflexivity. Qed.

Lemma lex_open_bracket (rest : string) (out : list JSON.token) :
  JSON.lex ("[" ++ rest) (JSON.LOut EmptyString) out
  = JSON.lex rest (JSON.LOut EmptyString) (JSON.TLBracket :: out).
Proof. reflexivity. Qed.

Lemma lex_close_bracket (rest : string) (out : list JSON.token) :
  JSON.lex ("]" ++ rest) (JSON.LOut EmptyString) out
  = JSON.lex rest (JSON.LOut EmptyString) (JSON.TRBracket :: out).
Proof. reflexivity. Qed.

Lemma lex_colon (rest : string) (out : list JSON.token) :
  JSON.lex (":" ++ rest) (JSON.LOut EmptyString) out
  = JSON.lex rest (JSON.LOut EmptyString) (JSON.TColon :: out).
Proof. reflexivity. Qed.

Lemma lex_comma (rest : string) (out : list JSON.token) :
  JSON.lex ("," ++ rest) (JSON.LOut EmptyString) out
  = JSON.lex rest (JSON.LOut EmptyString) (JSON.TComma :: out).
Proof. reflexivity. Qed.

Lemma lex_zero_comma (rest : string) (out : list JSON.token) :
  JSON.lex ("0" ++ "," ++ rest) (JSON.LOut EmptyString) out
  = JSON.lex rest (JSON.LOut EmptyString)
      (JSON.TComma :: JSON.TAtom "0" :: out).
Proof. reflexivity. Qed.

Lemma lex_null_close (rest : string) (out : list JSON.token) :
  JSON.lex ("null" ++ "}" ++ rest) (JSON.LOut EmptyString) out
  = JSON.lex rest (JSON.LOut EmptyString)
      (JSON.TRBrace :: JSON.TAtom "null" :: out).
Proof. reflexivity. Qed.

Lemma lex_last_brace (out : list JSON.token) :
  JSON.lex "}" (JSON.LOut EmptyString) out
  = Some (List.rev (JSON.TRBrace :: out)).
Proof. reflexivity. Qed.

Lemma lex_created (a : number) (rest : string) (out : list JSON.token) :
  JSON.lex ((if isFinite (floor a) then to_string (floor a) else "null")
            ++ "," ++ rest) (JSON.LOut EmptyString) out
  = JSON.lex rest (JSON.LOut EmptyString)
      (JSON.TComma
       :: JSON.TAtom (if isFinite (floor a) then to_string (floor a) else "null")
       :: out).
Proof. exact (proj2 (created_atom a) rest out). Qed.

Ltac lex_stringified :=
  cbn [JSON.stringify createChunkPayload interpolate map flat_map fst snd app
       String.concat];
  change (if isFinite (of_Z 0) then to_string (of_Z 0) else "null") with "0";
  rewrite !string_app_assoc;
  repeat first
    [ rewrite lex_open_brace | rewrite lex_close_brace
    | rewrite lex_open_bracket | rewrite lex_close_bracket
    | rewrite lex_colon | rewrite lex_comma
    | rewrite lex_zero_comma | rewrite lex_null_close
    | rewrite lex_created
    | rewrite lex_quote by (reflexivity || assumption)
    | rewrite lex_last_brace
    | rewrite append_empty_l ].

Ltac run_tokens H :=
  repeat
    (cbn [List.rev app JSON.run JSON.parse_step JSON.expects_value JSON.deliver];
     first
       [ rewrite H
       | progress change (JSON.atom_value "0") with (Some (VNum zero))
       | progress change (JSON.atom_value "null") with (Some VNull) ]);
  cbn [List.rev app JSON.run JSON.parse_step JSON.expects_value JSON.deliver].

(** A content chunk as the worker writes it is read back as the same
    object, but for the value of [created]. *)
Lemma content_chunk_reads_back (id m t : string) (now : number) :
  ascii_only id = true -> ascii_only m = true -> ascii_only t = true ->
  exists created,
    JSON.parse
      (interpolate
         (JSON.stringify (createChunkPayload id (VStr m) (Some t) None now)))
    = Some
        (VObj
           [ ("id", VStr id);
             ("object", VStr "chat.completion.chunk");
             ("created", created);
             ("model", VStr m);
             ("choices",
              VArr
                [ VObj
                    [ ("index", VNum zero);
                      ("delta", VObj [("content", VStr t)]);
                      ("finish_reason", VNull) ] ]) ]).
Proof.
  intros Hid Hm Ht.
  destruct (proj1 (created_atom (div_by now (inject_Z 1000))))
    as [created Hcreated].
  exists created. unfold JSON.parse.
  lex_stringified. run_tokens Hcreated. reflexivity.
Qed.

Lemma stop_chunk_reads_back (id m reason : string) (now : number) :
  ascii_only id = true -> ascii_only m = true -> ascii_only reason = true ->
  exists created,
    JSON.parse
      (interpolate
         (JSON.stringify (createChunkPayload id (VStr m) None (Some reason) now)))
    = Some
        (VObj
           [ ("id", VStr id);
             ("object", VStr "chat.completion.chunk");
             ("created", created);
             ("model", VStr m);
             ("choices",
              VArr
                [ VObj
                    [ ("index", VNum zero);
                      ("delta", VObj []);
                      ("finish_reason", VStr reason) ] ]) ]).
Proof.
  intros Hid Hm Hr.
  destruct (proj1 (created_atom (div_by now (inject_Z 1000))))
    as [created Hcreated].
  exists created. unfold JSON.parse.
  lex_stringified. run_tokens Hcreated. reflexivity.
Qed.

(** *** Events written by [sseData] *)

Lemma sseData_event_line (payload : value) :
  sseData payload = event_line payload ++ nl ++ nl.
Proof. reflexivity. Qed.

Lemma event_line_no_break (payload : value) :
  no_break (event_line payload) = true.
Proof.
  unfold event_line. now rewrite no_break_app, stringify_no_break.
Qed.

(** X16. Whatever the payloads, and whatever line breaks and blank lines
    the texts inside them hold, the frames [sseData] writes for them, put
    end to end, are cut at blank lines into exactly these events again,
    with nothing left over; and each event is a single line. *)
Theorem X16_frames_are_single_events :
  forall (payloads : list value),
    pop (split sep_blank (String.concat EmptyString (map sseData payloads)))
    = (map event_line payloads, Some EmptyString)
    /\ Forall (fun p => split sep_line (event_line p) = [event_line p]) payloads.
Proof.
  intros payloads. split.
  - replace (map sseData payloads)
      with (map (fun b => b ++ nl ++ nl) (map event_line payloads))
      by (rewrite map_map; reflexivity).
    rewrite <- (append_empty_r (String.concat _ _)).
    apply split_events; [|reflexivity]. apply Forall_forall. intros b Hb.
    apply in_map_iff in Hb. destruct Hb as [p [<- _]].
    apply event_line_no_break.
  - apply Forall_forall. intros p _. unfold split.
    rewrite (split_no_match sep_line _ EmptyString
               (proj1 (first_match_no_break _ (event_line_no_break p)))).
    reflexivity.
Qed.

(** *** Events read by the normalizer *)

(** The event whose only line is [data:] and a text that starts and ends
    with a byte below 128 that is no white space. *)
Lemma data_event_emissions (c1 c2 : ascii) (middle : string) :
  (code c1 < 128)%N -> ws1 c1 = false ->
  (code c2 < 128)%N -> ws1 c2 = false ->
  no_break (String c1 (middle ++ String c2 EmptyString)) = true ->
  part_emissions ("data: " ++ String c1 (middle ++ String c2 EmptyString))
  = if String.eqb (String c1 (middle ++ String c2 EmptyString)) "[DONE]"
    then []
    else
      match JSON.parse (String c1 (middle ++ String c2 EmptyString)) with
      | Some parsed => flat_map content_of (extractDeltaText parsed)
      | None => content_of (String c1 (middle ++ String c2 EmptyString))
      end.
Proof.
  intros H1 W1 H2 W2 Hn.
  set (json := String c1 (middle ++ String c2 EmptyString)) in *.
  assert (Hline : no_break ("data: " ++ json) = true)
    by (rewrite no_break_app, Hn; reflexivity).
  assert (Htrim : trim ("data: " ++ json) = "data: " ++ json).
  { change ("data: " ++ json)
      with (String "d" (("ata: " ++ String c1 middle) ++ String c2 EmptyString)).
    apply trim_clean; try reflexivity; assumption. }
  assert (Hraw : trim (drop 5 ("data: " ++ json)) = json).
  { change (trim (drop 5 ("data: " ++ json))) with (trim json).
    now apply trim_clean. }
  unfold part_emissions, data_lines, split.
  rewrite (split_no_match sep_line _ EmptyString
             (proj1 (first_match_no_break _ Hline))).
  cbn [rev_append map]. rewrite Htrim.
  change (filter (startsWith "data:") ["data: " ++ json]) with ["data: " ++ json].
  cbn [flat_map]. rewrite List.app_nil_r.
  unfold line_emissions. rewrite Hraw. reflexivity.
Qed.

Lemma escape_byte_ascii (c : ascii) :
  (code c < 128)%N -> ascii_only (JSON.escape_byte c) = true.
Proof.
  destruct c as [[] [] [] [] [] [] [] []]; intros H;
    first [reflexivity | exfalso; vm_compute in H; discriminate H].
Qed.

Lemma escape_ascii (s : string) :
  ascii_only s = true -> ascii_only (JSON.escape s) = true.
Proof.
  induction s as [|c r IH]; intros H; [reflexivity|].
  destruct (ascii_only_head c r H) as [Hc Hr].
  rewrite (escape_ascii_step c r Hc), ascii_only_app.
  now rewrite (escape_byte_ascii c Hc), (IH Hr).
Qed.

Lemma quote_ascii (s : string) :
  ascii_only s = true -> ascii_only (JSON.quote s) = true.
Proof.
  intros H. unfold JSON.quote.
  change (String DQUOTE (JSON.escape s ++ String DQUOTE EmptyString))
    with (String DQUOTE EmptyString ++ JSON.escape s ++ String DQUOTE EmptyString).
  now rewrite !ascii_only_app, (escape_ascii s H).
Qed.

Lemma string_of_uint_ascii (u : Decimal.uint) :
  ascii_only (NilEmpty.string_of_uint u) = true.
Proof. induction u; cbn [NilEmpty.string_of_uint ascii_only]; auto. Qed.

Lemma digits_of_N_ascii (n : N) : ascii_only (digits_of_N n) = true.
Proof.
  unfold digits_of_N, NilZero.string_of_uint.
  destruct (N.to_uint n); try reflexivity;
    apply (string_of_uint_ascii (_ _)).
Qed.

Lemma created_ascii (a : number) :
  ascii_only (if isFinite (floor a) then to_string (floor a) else "null") = true.
Proof.
  destruct (floor_cases a) as [[z Hz] | Hinf]; [|now rewrite Hinf].
  rewrite Hz. change (isFinite (of_Z z)) with true. cbv iota.
  rewrite to_string_of_Z, ascii_only_app, digits_of_N_ascii.
  now destruct (z <? 0)%Z.
Qed.

Ltac stringified_ascii :=
  unfold event_line;
  cbn [JSON.stringify createChunkPayload interpolate map flat_map fst snd app
       String.concat];
  rewrite !ascii_only_app;
  rewrite ?created_ascii;
  rewrite ?quote_ascii by (reflexivity || assumption);
  reflexivity.

(** *** The three kinds of frame the normalizer writes, read again *)

Lemma object_text (fields : list (string * value)) :
  exists middle,
    interpolate (JSON.stringify (VObj fields)) = "{" ++ middle ++ "}"
    /\ no_break middle = true.
Proof.
  eexists. split; [reflexivity|].
  pose proof (stringify_no_break (VObj fields)) as H.
  cbn [JSON.stringify interpolate] in H.
  rewrite !no_break_app in H. apply andb_true_iff in H. destruct H as [_ H].
  apply andb_true_iff in H. now destruct H as [H _].
Qed.

Lemma object_event_emissions (fields : list (string * value)) (parsed : value) :
  JSON.parse (interpolate (JSON.stringify (VObj fields))) = Some parsed ->
  part_emissions (event_line (VObj fields))
  = flat_map content_of (extractDeltaText parsed).
Proof.
  intros Hp. destruct (object_text fields) as [middle [E Hm]].
  unfold event_line. rewrite E in Hp |- *.
  change ("{" ++ middle ++ "}") with (String "{" (middle ++ "}")) in Hp |- *.
  rewrite (data_event_emissions "{" "}" middle) by
    (try reflexivity;
     change (String "{" (middle ++ "}")) with ("{" ++ middle ++ "}");
     now rewrite !no_break_app, Hm).
  now rewrite Hp.
Qed.

Lemma content_frame_emissions (id m t : string) (now : number) :
  ascii_only id = true -> ascii_only m = true -> ascii_only t = true ->
  part_emissions (event_line (createChunkPayload id (VStr m) (Some t) None now))
  = content_of t.
Proof.
  intros Hid Hm Ht.
  destruct (content_chunk_reads_back id m t now Hid Hm Ht) as [created Hp].
  unfold createChunkPayload in *.
  rewrite (object_event_emissions _ _ Hp).
  unfold extractDeltaText, content_of.
  cbn [is_object negb get lookup String.eqb Ascii.eqb Bool.eqb andb
       nonempty_string delta_content app flat_map].
  destruct (is_empty t) eqn:E; cbn [app flat_map]; now rewrite ?E.
Qed.

Lemma stop_frame_emissions (id m reason : string) (now : number) :
  ascii_only id = true -> ascii_only m = true -> ascii_only reason = true ->
  part_emissions
    (event_line (createChunkPayload id (VStr m) None (Some reason) now))
  = [].
Proof.
  intros Hid Hm Hr.
  destruct (stop_chunk_reads_back id m reason now Hid Hm Hr) as [created Hp].
  unfold createChunkPayload in *.
  rewrite (object_event_emissions _ _ Hp). reflexivity.
Qed.

Lemma response_event_emissions (t : string) :
  ascii_only t = true ->
  part_emissions (event_line (VObj [("response", VStr t)])) = content_of t.
Proof.
  intros Ht.
  assert (Hp : JSON.parse (interpolate (JSON.stringify (VObj [("response", VStr t)])))
               = Some (VObj [("response", VStr t)])).
  { unfold JSON.parse. lex_stringified.
    cbn [List.rev app JSON.run JSON.parse_step JSON.expects_value JSON.deliver].
    reflexivity. }
  rewrite (object_event_emissions _ _ Hp).
  unfold extractDeltaText, content_of.
  cbn [is_object negb get lookup String.eqb Ascii.eqb Bool.eqb andb
       nonempty_string delta_content app flat_map].
  destruct (is_empty t) eqn:E; cbn [app flat_map]; now rewrite ?E.
Qed.

(** Reads that, put end to end, are events without line break closed by
    blank lines: each event is handled on its own and nothing is left in
    the buffer. *)
Lemma events_emissions (bodies reads : list string) (tail : string) :
  Forall (fun b => no_break b = true /\ ascii_only b = true) bodies ->
  no_break tail = true -> ascii_only tail = true ->
  String.concat EmptyString reads
  = String.concat EmptyString (map (fun b => b ++ nl ++ nl) bodies) ++ tail ->
  emissions {| chunks := map ChunkBytes reads; failure := None |}
  = ((flat_map part_emissions bodies ++ flush_emissions tail
      ++ [Stop; Sentinel])%list, Closed).
Proof.
  intros Hb Hn Hta Hreads.
  assert (Ha : ascii_only
                 (String.concat EmptyString
                    (map (fun b => b ++ nl ++ nl) bodies) ++ tail) = true).
  { rewrite ascii_only_app, Hta, andb_true_r.
    apply concat_ascii. apply Forall_forall. intros x Hx.
    apply in_map_iff in Hx. destruct Hx as [b [<- Hin]].
    rewrite Forall_forall in Hb. destruct (Hb b Hin) as [_ Hab].
    now rewrite !ascii_only_app, Hab. }
  assert (Hone : emissions {| chunks := [ChunkBytes (String.concat EmptyString reads)];
                              failure := None |}
                 = ((flat_map part_emissions bodies ++ flush_emissions tail
                     ++ [Stop; Sentinel])%list, Closed)).
  { rewrite Hreads. unfold emissions.
    cbn [chunks failure reads_emissions read_emissions].
    destruct (decode_ascii _ Utf8.fresh eq_refl Ha) as [d' [-> _]].
    cbv beta iota. rewrite append_empty_l.
    rewrite split_events;
      [| eapply Forall_impl; [|exact Hb]; now intros b [H _] | exact Hn].
    cbv beta iota. now rewrite List.app_nil_r. }
  rewrite <- Hreads in Ha.
  destruct reads as [|r rest].
  - exact Hone.
  - now rewrite (emissions_joined (r :: rest)) by (discriminate || exact Ha).
Qed.

Lemma response_events (texts : list string) :
  Forall (fun t => ascii_only t = true) texts ->
  Forall (fun b => no_break b = true /\ ascii_only b = true)
    (map (fun t => event_line (VObj [("response", VStr t)])) texts)
  /\ flat_map part_emissions
       (map (fun t => event_line (VObj [("response", VStr t)])) texts)
     = flat_map content_of texts.
Proof.
  induction 1 as [|t rest Ht _ [IH1 IH2]]; [split; [constructor | reflexivity]|].
  cbn [map flat_map]. split.
  - constructor; [|exact IH1]. split; [apply event_line_no_break|].
    stringified_ascii.
  - now rewrite (response_event_emissions t Ht), IH2.
Qed.

(** X17. Events that [sseData] would write for objects whose [response]
    is a text of bytes below 128, whatever that text is (quotes,
    backslashes, line breaks and control characters included), give that
    text back: however the bytes are cut into reads, the normalizer writes
    one content chunk for each text that is not empty, carrying exactly
    that text, in order, then the stop chunk and the sentinel. *)
Theorem X17_response_events_give_their_text_back :
  forall (clock : nat -> Z) (id : string) (model : value)
         (texts reads : list string) (tick0 : nat),
    Forall (fun t => ascii_only t = true) texts ->
    String.concat EmptyString reads
    = String.concat EmptyString
        (map (fun t => sseData (VObj [("response", VStr t)])) texts) ->
    toOpenAiSseFromAiStream clock id model
      {| chunks := map ChunkBytes reads; failure := None |} tick0
    = {| frames :=
           render clock id model tick0
             (flat_map content_of texts ++ [Stop; Sentinel])%list;
         ending := Closed |}.
Proof.
  intros clock id model texts reads tick0 Ht Hreads.
  destruct (response_events texts Ht) as [Hb He].
  rewrite normalizer_renders_emissions.
  rewrite (events_emissions
             (map (fun t => event_line (VObj [("response", VStr t)])) texts)
             reads EmptyString Hb eq_refl eq_refl).
  - cbn [fst snd]. now rewrite He.
  - rewrite Hreads, map_map, append_empty_r. reflexivity.
Qed.

Lemma X17_witness :
  toOpenAiSseFromAiStream (fun n => (1700000000123 + Z.of_nat n)%Z)
    "chatcmpl-1" (VStr "m")
    {| chunks :=
         map ChunkBytes
           [ sseData (VObj [("response", VStr awkward_text)]);
             sseData (VObj [("response", VStr EmptyString)]);
             sseData (VObj [("response", VStr "ok")]) ];
       failure := None |} 0
  = {| frames :=
         render (fun n => (1700000000123 + Z.of_nat n)%Z) "chatcmpl-1" (VStr "m") 0
           [Content awkward_text; Content "ok"; Stop; Sentinel];
       ending := Closed |}.
Proof.
  apply (X17_response_events_give_their_text_back
           (fun n => (1700000000123 + Z.of_nat n)%Z) "chatcmpl-1" (VStr "m")
           [awkward_text; EmptyString; "ok"]).
  - repeat constructor.
  - reflexivity.
Defined.

(** *** The normalizer reads its own output *)

Section OwnOutput.

Variable clock : nat -> Z.
Variable id : string.
Variable m : string.

Hypothesis id_ascii : ascii_only id = true.
Hypothesis m_ascii : ascii_only m = true.

Lemma chunk_frame_event (content finishReason : option string) (n : nat) :
  (forall t, content = Some t -> ascii_only t = true) ->
  (forall r, finishReason = Some r -> ascii_only r = true) ->
  chunk_frame clock id (VStr m) content finishReason n
  = event_line (createChunkPayload id (VStr m) content finishReason
                  (Date_now clock n)) ++ nl ++ nl
    /\ ascii_only (event_line (createChunkPayload id (VStr m) content finishReason
                                 (Date_now clock n))) = true.
Proof.
  intros Hc Hr.
  assert (Ha : ascii_only (event_line (createChunkPayload id (VStr m) content
                                         finishReason (Date_now clock n))) = true).
  { destruct content as [t|], finishReason as [r|];
      try pose proof (Hc _ eq_refl); try pose proof (Hr _ eq_refl);
      stringified_ascii. }
  split; [|exact Ha].
  unfold chunk_frame. rewrite sseData_event_line. apply encode_ascii.
  now rewrite !ascii_only_app, Ha.
Qed.

Lemma render_contents (texts : list string) (n : nat) :
  Forall (fun t => ascii_only t = true) texts ->
  exists bodies,
    render clock id (VStr m) n (map Content texts)
    = map (fun b => b ++ nl ++ nl) bodies
    /\ Forall (fun b => no_break b = true /\ ascii_only b = true) bodies
    /\ flat_map part_emissions bodies = flat_map content_of texts.
Proof.
  intros H. revert n. induction H as [|t rest Ht _ IH]; intros n.
  - exists []. repeat split. constructor.
  - destruct (IH (S n)) as [bodies [Hr [Hb He]]].
    destruct (chunk_frame_event (Some t) None n) as [Hf Ha];
      [intros ? [= <-]; exact Ht | discriminate |].
    exists (event_line (createChunkPayload id (VStr m) (Some t) None
                          (Date_now clock n)) :: bodies).
    cbn [map render flat_map]. rewrite Hf, Hr. repeat split.
    + constructor; [|exact Hb]. split; [apply event_line_no_break | exact Ha].
    + now rewrite (content_frame_emissions id m t _ id_ascii m_ascii Ht), He.
Qed.

Lemma render_ending (n : nat) :
  exists bodies,
    render clock id (VStr m) n [Stop; Sentinel]
    = map (fun b => b ++ nl ++ nl) bodies
    /\ Forall (fun b => no_break b = true /\ ascii_only b = true) bodies
    /\ flat_map part_emissions bodies = [].
Proof.
  destruct (chunk_frame_event None (Some "stop") n) as [Hf Ha];
    [discriminate | intros ? [= <-]; reflexivity |].
  exists [event_line (createChunkPayload id (VStr m) None (Some "stop")
                        (Date_now clock n)); "data: [DONE]"].
  cbn [map render flat_map]. rewrite Hf, encode_DONE_FRAME. repeat split.
  - repeat constructor; [apply event_line_no_break | exact Ha].
  - rewrite (stop_frame_emissions id m "stop" _ id_ascii m_ascii eq_refl).
    reflexivity.
Qed.

End OwnOutput.

Lemma content_of_nonempty (vs : list string) :
  flat_map content_of (filter (fun v => negb (is_empty v)) vs)
  = map Content (filter (fun v => negb (is_empty v)) vs).
Proof.
  induction vs as [|v rest IH]; [reflexivity|].
  cbn [filter]. destruct (is_empty v) eqn:E; cbn [negb]; [exact IH|].
  cbn [flat_map map]. unfold content_of at 1. now rewrite E, IH.
Qed.

(** X18. The normalizer reads its own output.  Take the frames it writes
    for a backend that streams strings, with an identifier, a model name
    and texts of bytes below 128, and feed them, as bytes, to the
    normalizer again, with any clock, identifier and model: the result is
    what the strings themselves give.  So with the same clock, identifier
    and model the output of the worker is reproduced frame for frame: an
    upstream that already speaks the format of the worker passes through
    unchanged, and the stop chunk and the sentinel of the upstream are
    not forwarded a second time. *)
Theorem X18_normalizer_reads_its_own_output :
  forall (clock clock2 : nat -> Z) (id m id2 : string) (model2 : value)
         (vs : list string) (tick0 tick2 : nat),
    ascii_only id = true ->
    ascii_only m = true ->
    Forall (fun v => ascii_only v = true) vs ->
    toOpenAiSseFromAiStream clock2 id2 model2
      {| chunks :=
           map ChunkBytes
             (frames (toOpenAiSseFromAiStream clock id (VStr m)
                        {| chunks := map ChunkString vs; failure := None |}
                        tick0));
         failure := None |} tick2
    = toOpenAiSseFromAiStream clock2 id2 model2
        {| chunks := map ChunkString vs; failure := None |} tick2.
Proof.
  intros clock clock2 id m id2 model2 vs tick0 tick2 Hid Hm Hvs.
  assert (Hstrings : emissions {| chunks := map ChunkString vs; failure := None |}
                     = ((map Content (filter (fun v => negb (is_empty v)) vs)
                         ++ [Stop; Sentinel])%list, Closed)).
  { unfold emissions. cbn [chunks failure].
    now rewrite reads_emissions_strings. }
  rewrite !normalizer_renders_emissions. cbn [frames]. rewrite Hstrings.
  cbn [fst snd]. rewrite render_app.
  set (texts := filter (fun v => negb (is_empty v)) vs).
  assert (Htexts : Forall (fun t => ascii_only t = true) texts).
  { apply Forall_forall. intros t Hin. apply filter_In in Hin.
    rewrite Forall_forall in Hvs. now apply Hvs. }
  destruct (render_contents clock id m Hid Hm texts tick0 Htexts)
    as [bodies [Hr [Hb He]]].
  destruct (render_ending clock id m Hid Hm (tick0 + stamps (map Content texts)))
    as [ending_bodies [Hr' [Hb' He']]].
  rewrite Hr, Hr', <- map_app.
  rewrite (events_emissions (bodies ++ ending_bodies)
             (map (fun b => b ++ nl ++ nl) (bodies ++ ending_bodies))
             EmptyString);
    [| now apply Forall_app | reflexivity | reflexivity
     | now rewrite append_empty_r].
  cbn [fst snd]. rewrite flat_map_app, He, He', List.app_nil_r.
  change (flush_emissions EmptyString) with (@nil emission). cbn [app].
  unfold texts. now rewrite content_of_nonempty.
Qed.

Lemma X18_witness :
  toOpenAiSseFromAiStream (fun n => (1700000000123 + Z.of_nat n)%Z)
    "chatcmpl-1" (VStr "m")
    {| chunks :=
         map ChunkBytes
           (frames (toOpenAiSseFromAiStream
                      (fun n => (1700000000123 + Z.of_nat n)%Z)
                      "chatcmpl-1" (VStr "m")
                      {| chunks := map ChunkString ["Hel"; EmptyString; awkward_text];
                         failure := None |} 0));
       failure := None |} 0
  = toOpenAiSseFromAiStream (fun n => (1700000000123 + Z.of_nat n)%Z)
      "chatcmpl-1" (VStr "m")
      {| chunks := map ChunkString ["Hel"; EmptyString; awkward_text];
         failure := None |} 0.
Proof.
  apply (X18_normalizer_reads_its_own_output
           (fun n => (1700000000123 + Z.of_nat n)%Z)
           (fun n => (1700000000123 + Z.of_nat n)%Z)
           "chatcmpl-1" "m" "chatcmpl-1" (VStr "m")
           ["Hel"; EmptyString; awkward_text] 0 0).
  - reflexivity.
  - reflexivity.
  - repeat constructor.
Defined.

(** *** The fallback stream, read by the normalizer *)

(** X20. What the sentinel of the fallback stream costs a consumer that
    cuts events at blank lines, as the normalizer of this worker does.
    Take the three frames the handler writes when the backend answers a
    streaming request with a plain result (identifier, model name and
    text of bytes below 128) and feed them to the normalizer: the content
    chunk gives its text back and the stop chunk gives nothing, as with
    the frames of the normalizer itself; but the last frame, which is not
    closed by a blank line, is not taken for the end-of-stream sentinel:
    it stays in the buffer to the end and is then forwarded as the
    content of a chunk, backslashes and all. *)
Theorem X20_fallback_sentinel_is_read_as_text :
  forall (e : env) (clock2 : nat -> Z) (id m id2 text : string)
         (model2 : value) (tick2 : nat),
    ascii_only id = true ->
    ascii_only m = true ->
    ascii_only text = true ->
    toOpenAiSseFromAiStream clock2 id2 model2
      {| chunks := map ChunkBytes (frames (fallback_stream e id (VStr m) text));
         failure := None |} tick2
    = {| frames :=
           render clock2 id2 model2 tick2
             (content_of text ++ [Content FALLBACK_SENTINEL; Stop; Sentinel])%list;
         ending := Closed |}.
Proof.
  intros e clock2 id m id2 text model2 tick2 Hid Hm Ht.
  destruct (chunk_frame_event (clock e) id m Hid Hm (Some text) None 1)
    as [Hf1 Ha1]; [intros ? [= <-]; exact Ht | discriminate |].
  destruct (chunk_frame_event (clock e) id m Hid Hm None (Some "stop") 2)
    as [Hf2 Ha2]; [discriminate | intros ? [= <-]; reflexivity |].
  rewrite normalizer_renders_emissions.
  rewrite (events_emissions
             [ event_line (createChunkPayload id (VStr m) (Some text) None
                             (Date_now (clock e) 1));
               event_line (createChunkPayload id (VStr m) None (Some "stop")
                             (Date_now (clock e) 2)) ]
             (frames (fallback_stream e id (VStr m) text))
             FALLBACK_SENTINEL).
  - cbn [fst snd flat_map].
    rewrite (content_frame_emissions id m text _ Hid Hm Ht).
    rewrite (stop_frame_emissions id m "stop" _ Hid Hm eq_refl).
    change (flush_emissions FALLBACK_SENTINEL) with [Content FALLBACK_SENTINEL].
    now rewrite !List.app_nil_r.
  - constructor; [split; [apply event_line_no_break | exact Ha1]|].
    constructor; [split; [apply event_line_no_break | exact Ha2]|].
    constructor.
  - reflexivity.
  - reflexivity.
  - unfold fallback_stream, emitChunk, enqueue, tick.
    cbn [frames queue ticks app].
    fold (chunk_frame (clock e) id (VStr m) (Some text) None 1).
    fold (chunk_frame (clock e) id (VStr m) None (Some "stop") 2).
    rewrite Hf1, Hf2. cbn [map]. rewrite !concat_cons.
    cbn [String.concat]. now rewrite !string_app_assoc, append_empty_r.
Qed.

Lemma X20_witness :
  toOpenAiSseFromAiStream (fun n => (1700000000123 + Z.of_nat n)%Z)
    "chatcmpl-2" (VStr "m")
    {| chunks :=
         map ChunkBytes
           (frames (fallback_stream (constant_backend VNull) "chatcmpl-1"
                      (VStr "m") "Hello"));
       failure := None |} 0
  = {| frames :=
         render (fun n => (1700000000123 + Z.of_nat n)%Z) "chatcmpl-2" (VStr "m") 0
           [Content "Hello"; Content FALLBACK_SENTINEL; Stop; Sentinel];
       ending := Closed |}.
Proof.
  apply (X20_fallback_sentinel_is_read_as_text
           (constant_backend VNull) (fun n => (1700000000123 + Z.of_nat n)%Z)
           "chatcmpl-1" "m" "chatcmpl-2" "Hello" (VStr "m") 0);
    reflexivity.
Defined.

(** *** The shape of every output *)

Lemma content_of_carries_text (text : string) :
  Forall carries_text (content_of text).
Proof.
  unfold content_of. destruct text; repeat constructor. discriminate.
Qed.

Lemma texts_carry_text (texts : list string) :
  Forall (fun s => s <> EmptyString) texts ->
  Forall carries_text (flat_map content_of texts).
Proof.
  intros H. apply Forall_flat_map_intro. apply Forall_forall.
  intros t _. apply content_of_carries_text.
Qed.

Lemma line_emissions_carry_text (line : string) :
  Forall carries_text (line_emissions line).
Proof.
  unfold line_emissions.
  destruct (is_empty _ || String.eqb _ _)%bool; [constructor|].
  destruct (JSON.parse _).
  - apply texts_carry_text, extractDeltaText_nonempty.
  - apply content_of_carries_text.
Qed.

Lemma part_emissions_carry_text (part : string) :
  Forall carries_text (part_emissions part).
Proof.
  unfold part_emissions. destruct (data_lines part).
  - apply texts_carry_text, extractTextCandidates_nonempty.
  - apply Forall_flat_map_intro. apply Forall_forall.
    intros line _. apply line_emissions_carry_text.
Qed.

Lemma reads_emissions_carry_text (cs : list chunk) (buf : string)
    (d : Utf8.decoder) :
  Forall carries_text (fst (fst (reads_emissions cs buf d))).
Proof.
  revert buf d. induction cs as [|c rest IH]; intros buf d;
    cbn [reads_emissions].
  - constructor.
  - destruct c as [v|bytes|]; cbn [read_emissions].
    + specialize (IH buf d).
      destruct (reads_emissions rest buf d) as [[more final] err].
      cbn [fst] in *. apply Forall_app. split;
        [apply content_of_carries_text | exact IH].
    + destruct (Utf8.decode d bytes) as [text d'].
      destruct (pop (split sep_blank (buf ++ text))) as [parts last].
      match goal with
      | |- context [reads_emissions rest ?b d'] =>
          specialize (IH b d');
          destruct (reads_emissions rest b d') as [[more final] err]
      end.
      cbn [fst] in *. apply Forall_app. split; [|exact IH].
      apply Forall_flat_map_intro. apply Forall_forall.
      intros part _. apply part_emissions_carry_text.
    + constructor.
Qed.

Lemma flush_emissions_carry_text (buf : string) :
  Forall carries_text (flush_emissions buf).
Proof.
  unfold flush_emissions. destruct (is_empty (trim buf)); [constructor|].
  apply texts_carry_text, extractTextCandidates_nonempty.
Qed.

Lemma carried_texts (es : list emission) :
  Forall carries_text es ->
  exists texts,
    es = map Content texts /\ Forall (fun s => s <> EmptyString) texts.
Proof.
  induction 1 as [|e rest He _ [texts [-> Ht]]].
  - exists []. split; [reflexivity | constructor].
  - destruct e as [text| |]; try contradiction.
    exists (text :: texts). split; [reflexivity | now constructor].
Qed.

(** X19. The shape of every output of the normalizer, whatever the
    backend stream holds and however it ends: content chunks, each with a
    content that is not the empty string, and then, exactly when the
    output is closed, the stop chunk and the sentinel; an output that
    fails has neither.  So the stop chunk is written at most once, never
    before a content chunk, and no chunk with an empty content is ever
    written. *)
Theorem X19_output_is_texts_then_the_ending :
  forall (clock : nat -> Z) (id : string) (model : value) (s : stream)
         (tick0 : nat),
    exists texts,
      Forall (fun t => t <> EmptyString) texts
      /\ frames (toOpenAiSseFromAiStream clock id model s tick0)
         = render clock id model tick0
             (map Content texts
              ++ match ending (toOpenAiSseFromAiStream clock id model s tick0) with
                 | Closed => [Stop; Sentinel]
                 | Errored _ => []
                 end)%list
      /\ length (frames (toOpenAiSseFromAiStream clock id model s tick0))
         = length texts
           + match ending (toOpenAiSseFromAiStream clock id model s tick0) with
             | Closed => 2
             | Errored _ => 0
             end.
Proof.
  intros clock id model s tick0.
  rewrite normalizer_renders_emissions. cbn [frames ending].
  rewrite render_length.
  assert (H : exists texts,
             Forall (fun t => t <> EmptyString) texts
             /\ fst (emissions s)
                = (map Content texts
                   ++ match snd (emissions s) with
                      | Closed => [Stop; Sentinel]
                      | Errored _ => []
                      end)%list).
  { unfold emissions.
    pose proof (reads_emissions_carry_text (chunks s) EmptyString Utf8.fresh) as Hr.
    destruct (reads_emissions (chunks s) EmptyString Utf8.fresh)
      as [[es buf] err].
    cbn [fst] in Hr.
    destruct err as [e|]; [|destruct (failure s) as [e|]]; cbn [fst snd].
    - destruct (carried_texts es Hr) as [texts [-> Ht]].
      exists texts. now rewrite List.app_nil_r.
    - destruct (carried_texts es Hr) as [texts [-> Ht]].
      exists texts. now rewrite List.app_nil_r.
    - assert (Hall : Forall carries_text (es ++ flush_emissions buf))
        by (apply Forall_app; split;
            [exact Hr | apply flush_emissions_carry_text]).
      destruct (carried_texts _ Hall) as [texts [E Ht]].
      exists texts. split; [exact Ht|].
      now rewrite app_assoc, E. }
  destruct H as [texts [Ht E]]. exists texts.
  split; [exact Ht|]. rewrite E. split; [reflexivity|].
  rewrite length_app, length_map.
  now destruct (snd (emissions s)).
Qed.

(** *** Events that carry no object *)

Lemma plain_event_emissions (b : string) :
  no_break b = true ->
  startsWith "data:" (trim b) = false ->
  part_emissions b = content_of b.
Proof.
  intros Hn Hd. unfold part_emissions, data_lines, split.
  rewrite (split_no_match sep_line _ EmptyString
             (proj1 (first_match_no_break _ Hn))).
  cbn [rev_append map filter]. rewrite Hd.
  destruct b; reflexivity.
Qed.

(** X21. An event that has no [data:] line is not dropped: it is
    forwarded as it is, as the content of a chunk.  For events of one
    line, of bytes below 128, that does not start with [data:] once
    trimmed (a comment line, an [event:] line, bare text), however the
    bytes are cut into reads, the output is one content chunk for each
    event that is not empty, carrying the event untrimmed, then the stop
    chunk and the sentinel. *)
Theorem X21_events_without_data_line_are_forwarded :
  forall (clock : nat -> Z) (id : string) (model : value)
         (bodies reads : list string) (tick0 : nat),
    Forall (fun b => no_break b = true /\ ascii_only b = true
                     /\ startsWith "data:" (trim b) = false) bodies ->
    String.concat EmptyString reads
    = String.concat EmptyString (map (fun b => b ++ nl ++ nl) bodies) ->
    toOpenAiSseFromAiStream clock id model
      {| chunks := map ChunkBytes reads; failure := None |} tick0
    = {| frames :=
           render clock id model tick0
             (flat_map content_of bodies ++ [Stop; Sentinel])%list;
         ending := Closed |}.
Proof.
  intros clock id model bodies reads tick0 Hb Hreads.
  rewrite normalizer_renders_emissions.
  rewrite (events_emissions bodies reads EmptyString);
    [| eapply Forall_impl; [|exact Hb]; now intros b [H1 [H2 _]]
     | reflexivity | reflexivity | rewrite append_empty_r; exact Hreads].
  cbn [fst snd]. f_equal. f_equal. f_equal. clear Hreads.
  induction Hb as [|b rest [Hn [_ Hd]] _ IH]; [reflexivity|].
  cbn [flat_map]. now rewrite (plain_event_emissions b Hn Hd), IH.
Qed.

Lemma X21_witness :
  toOpenAiSseFromAiStream (fun n => (1700000000123 + Z.of_nat n)%Z)
    "chatcmpl-1" (VStr "m")
    {| chunks := map ChunkBytes [": keep-alive" ++ nl; nl ++ " event: ping" ++ nl ++ nl];
       failure := None |} 0
  = {| frames :=
         render (fun n => (1700000000123 + Z.of_nat n)%Z) "chatcmpl-1" (VStr "m") 0
           [Content ": keep-alive"; Content " event: ping"; Stop; Sentinel];
       ending := Closed |}.
Proof.
  apply (X21_events_without_data_line_are_forwarded
           (fun n => (1700000000123 + Z.of_nat n)%Z) "chatcmpl-1" (VStr "m")
           [": keep-alive"; " event: ping"]).
  - repeat constructor.
  - reflexivity.
Defined.

Lemma scalar_event (p : value) :
  scalar_payload p ->
  no_break (event_line p) = true
  /\ ascii_only (event_line p) = true
  /\ part_emissions (event_line p) = [].
Proof.
  intros Hp. split; [apply event_line_no_break|].
  destruct p as [ | | [|] | n | t | items | fields | rs]; try contradiction;
    try (split; reflexivity).
  cbn [scalar_payload] in Hp. split; [stringified_ascii|].
  assert (Hparse : JSON.parse (JSON.quote t) = Some (VStr t)).
  { unfold JSON.parse.
    rewrite <- (append_empty_r (JSON.quote t)), (lex_quote t _ _ Hp).
    reflexivity. }
  unfold event_line. cbn [JSON.stringify interpolate].
  unfold JSON.quote in *.
  rewrite (data_event_emissions DQUOTE DQUOTE (JSON.escape t));
    try reflexivity.
  - cbn [String.eqb]. change (Ascii.eqb DQUOTE "[") with false. cbv iota.
    now rewrite Hparse.
  - apply (quote_no_break t).
Qed.

(** X22. A [data:] payload that is JSON but no object carries no text
    for the normalizer: events that [sseData] would write for strings of
    bytes below 128, booleans and [null] are read and dropped, so a
    stream of such events gives the stop chunk and the sentinel only.
    The text of a payload written as a JSON string is thus lost, where
    the same text left unquoted, which does not parse, is forwarded. *)
Theorem X22_scalar_payloads_are_dropped :
  forall (clock : nat -> Z) (id : string) (model : value)
         (payloads : list value) (reads : list string) (tick0 : nat),
    Forall scalar_payload payloads ->
    String.concat EmptyString reads
    = String.concat EmptyString (map sseData payloads) ->
    toOpenAiSseFromAiStream clock id model
      {| chunks := map ChunkBytes reads; failure := None |} tick0
    = {| frames := render clock id model tick0 [Stop; Sentinel];
         ending := Closed |}.
Proof.
  intros clock id model payloads reads tick0 Hp Hreads.
  rewrite normalizer_renders_emissions.
  rewrite (events_emissions (map event_line payloads) reads EmptyString);
    [ | | reflexivity | reflexivity
      | now rewrite Hreads, map_map, append_empty_r ].
  - assert (E : flat_map part_emissions (map event_line payloads) = []).
    { clear Hreads. induction Hp as [|p rest Hp _ IH]; [reflexivity|].
      cbn [map flat_map].
      now rewrite (proj2 (proj2 (scalar_event p Hp))), IH. }
    cbn [fst snd]. rewrite E. reflexivity.
  - apply Forall_forall. intros b Hb. apply in_map_iff in Hb.
    destruct Hb as [p [<- Hin]]. rewrite Forall_forall in Hp.
    destruct (scalar_event p (Hp p Hin)) as [H1 [H2 _]]. now split.
Qed.

Lemma X22_witness :
  toOpenAiSseFromAiStream (fun n => (1700000000123 + Z.of_nat n)%Z)
    "chatcmpl-1" (VStr "m")
    {| chunks :=
         map ChunkBytes [sseData (VStr "Hello"); sseData VNull; sseData (VBool true)];
       failure := None |} 0
  = {| frames :=
         render (fun n => (1700000000123 + Z.of_nat n)%Z) "chatcmpl-1" (VStr "m") 0
           [Stop; Sentinel];
       ending := Closed |}.
Proof.
  apply (X22_scalar_payloads_are_dropped
           (fun n => (1700000000123 + Z.of_nat n)%Z) "chatcmpl-1" (VStr "m")
           [VStr "Hello"; VNull; VBool true]).
  - repeat constructor.
  - reflexivity.
Defined.
